(** * causal_curve.cdrc : the causal dose-response curve estimator

    A shallow embedding of [src/causal_curve/cdrc.py] (class [CDRC]).

    Modelling conventions.
    - A finite Python float is the exact rational it denotes ([Q]); the
      rounding error of the float arithmetic is not modelled, and equality
      of floats is [Qeq].  An argument of the constructor or of
      [calculate_CDRC] can also be nan or an infinity; the entries of the
      data and of the arrays computed from them are finite.
    - The instance is a record of its attributes; an attribute that has not
      been assigned yet is [None].
    - A method is a function from the instance to the (possibly mutated)
      instance and either a value or the raised exception.
    - What [verbose] prints is not modelled.
    - numpy, pandas, scipy, statsmodels and pyGAM are not part of the
      repository.  The array helpers whose result is determined by their
      documentation ([np.linspace], [np.quantile], [np.round], [mean],
      [np.repeat], [np.column_stack]) are written out; the numerical
      solvers and densities are fields of the class [Externals]. *)

From Stdlib Require Import ZArith QArith Qround Qabs List String Bool Lia Lqa Arith.
From Stdlib Require Import Sorting.Sorted Sorting.Permutation.
Import ListNotations.
Open Scope string_scope.
Open Scope Z_scope.

(** ** Python values and exceptions *)

Module Py.

(** The values a constructor argument or [ci] can take.  A float is finite
    ([PyFloat]), [float('nan')] or one of [float('inf')], [float('-inf')]. *)
Inductive value : Type :=
| PyNone
| PyBool (b : bool)
| PyInt (z : Z)
| PyFloat (q : Q)
| PyNaN
| PyInf (positive : bool)
| PyStr (s : string).

(** [isinstance(v, int)]: [bool] is a subclass of [int]. *)
Definition isinstance_int (v : value) : bool :=
  match v with PyInt _ | PyBool _ => true | _ => false end.

Definition isinstance_float (v : value) : bool :=
  match v with PyFloat _ | PyNaN | PyInf _ => true | _ => false end.

Definition isinstance_bool (v : value) : bool :=
  match v with PyBool _ => true | _ => false end.

Definition isinstance_str (v : value) : bool :=
  match v with PyStr _ => true | _ => false end.

Definition isinstance_str_or_NoneType (v : value) : bool :=
  match v with PyStr _ | PyNone => true | _ => false end.

(** The integer an [int] instance denotes ([True] is 1, [False] is 0). *)
Definition int_value (v : value) : Z :=
  match v with
  | PyInt z => z
  | PyBool true => 1
  | _ => 0
  end.

(** The rational a finite float denotes. *)
Definition float_value (v : value) : Q :=
  match v with PyFloat q => q | _ => 0%Q end.

(** [v <= q] and [v >= q] for a float [v] and a finite [q]: every comparison
    with nan is [False]. *)
Definition float_le (v : value) (q : Q) : bool :=
  match v with
  | PyFloat x => Qle_bool x q
  | PyInf positive => negb positive
  | _ => false
  end.

Definition float_ge (v : value) (q : Q) : bool :=
  match v with
  | PyFloat x => Qle_bool q x
  | PyInf positive => positive
  | _ => false
  end.

(** [==] on the values used here. *)
Definition eqb (a b : value) : bool :=
  match a, b with
  | PyNone, PyNone => true
  | PyStr s, PyStr t => String.eqb s t
  | PyInt x, PyInt y => Z.eqb x y
  | PyBool x, PyBool y => Bool.eqb x y
  | PyInt x, PyBool y | PyBool y, PyInt x => Z.eqb x (if y then 1 else 0)
  | PyFloat x, PyFloat y => Qeq_bool x y
  | PyInf x, PyInf y => Bool.eqb x y
  | _, _ => false
  end.

(** Exceptions.  [TypeError] and [ValueError] carry the name of the
    parameter (or fit input) that the message of the [raise] is about. *)
Inductive exn : Type :=
| TypeError (what : string)
| ValueError (what : string)
| AttributeError (attr : string)
| IndexError
| LibraryError (lib : string).

Inductive result (A : Type) : Type :=
| Ok (a : A)
| Raise (e : exn).
Arguments Ok {A} a.
Arguments Raise {A} e.

Definition rbind {A B} (r : result A) (k : A -> result B) : result B :=
  match r with Ok a => k a | Raise e => Raise e end.

End Py.
Import Py.

Declare Scope res_scope.
Delimit Scope res_scope with res.
Notation "x <- c ;; k" := (rbind c (fun x => k))
  (at level 61, c at next level, right associativity) : res_scope.
Notation "' pat <- c ;; k" := (rbind c (fun x => match x with pat => k end))
  (at level 61, pat pattern, c at next level, right associativity) : res_scope.
Notation "c ;;; k" := (rbind c (fun _ => k))
  (at level 61, right associativity) : res_scope.

(** [if cond: raise e] *)
Definition raise_if (cond : bool) (e : exn) : result unit :=
  if cond then Raise e else Ok tt.

(** ** pandas containers *)

Inductive Dtype : Type :=
| float64 | float32 | int64 | bool_ | complex128 | object_ | datetime64.

(** [pandas.api.types.is_float_dtype] *)
Definition is_float_dtype (d : Dtype) : bool :=
  match d with float64 | float32 => true | _ => false end.

(** [pandas.api.types.is_numeric_dtype]: integers, floats, booleans and
    complex numbers. *)
Definition is_numeric_dtype (d : Dtype) : bool :=
  match d with
  | float64 | float32 | int64 | bool_ | complex128 => true
  | object_ | datetime64 => false
  end.

Record Series : Type := mkSeries { dtype : Dtype; values : list Q }.

(** A data frame: its columns in order, by name. *)
Definition DataFrame : Type := list (string * Series).

(** ** numpy helpers, over exact rationals *)

Module Np.

Definition Qsum (l : list Q) : Q := fold_right Qplus 0%Q l.

(** [a.mean()] of a one-dimensional array.  (On an empty array numpy gives
    nan, which has no rational counterpart; the quotient below is then 0.) *)
Definition mean (l : list Q) : Q :=
  (Qsum l / inject_Z (Z.of_nat (List.length l)))%Q.

(** [np.rint]: round to the nearest integer, halves to the even one. *)
Definition rint (x : Q) : Z :=
  let f := Qfloor x in
  let r := (x - inject_Z f)%Q in
  match (r ?= 1 # 2)%Q with
  | Lt => f
  | Gt => f + 1
  | Eq => if Z.even f then f else f + 1
  end.

(** [np.round(x, decimals)] for [decimals >= 0]: scale, [rint], unscale. *)
Definition round (x : Q) (decimals : nat) : Q :=
  let p := inject_Z (10 ^ Z.of_nat decimals) in
  (inject_Z (rint (x * p)) / p)%Q.

(** [np.repeat(x, repeats = n)] *)
Definition repeat (x : Q) (n : nat) : list Q := List.repeat x n.

(** [np.column_stack((a, b))] of two one-dimensional arrays: the rows
    [(a[k], b[k])]; arrays of different lengths are refused. *)
Definition column_stack (a b : list Q) : result (list (Q * Q)) :=
  if Nat.eqb (List.length a) (List.length b) then Ok (combine a b)
  else Raise (ValueError "column_stack").

(** [np.linspace(start, stop, num)] with the end point included:
    [num] samples [start + i * step], [step = (stop - start) / (num - 1)],
    the last one set to [stop] itself; a negative [num] is refused. *)
Definition linspace (start stop : Q) (num : Z) : result (list Q) :=
  if num <? 0 then Raise (ValueError "num") else
  let div := num - 1 in
  let delta := (stop - start)%Q in
  let step := (delta / inject_Z div)%Q in
  Ok (map (fun i : nat =>
             let i := Z.of_nat i in
             if (1 <? num) && (i =? num - 1) then stop
             else if 0 <? div then (start + inject_Z i * step)%Q
             else (start + inject_Z i * delta)%Q)
          (seq 0 (Z.to_nat num))).

(** Sorting (numpy partitions in place; the values read afterwards are those
    of the sorted array). *)
Fixpoint insert (x : Q) (l : list Q) : list Q :=
  match l with
  | [] => [x]
  | h :: t => if Qle_bool x h then x :: h :: t else h :: insert x t
  end.

Definition sort (l : list Q) : list Q := fold_right insert [] l.

(** [_lerp(a, b, t)] *)
Definition lerp (a b t : Q) : Q := (a + (b - a) * t)%Q.

(** One quantile of an already sorted array [ap] of [Nx > 0] values, with
    linear interpolation: the virtual index [q * (Nx - 1)], its floor, the
    index above (clipped to [Nx - 1]) and the weight of the value above. *)
Definition quantile_sorted (ap : list Q) (q : Q) : Q :=
  let Nx := Z.of_nat (List.length ap) in
  let indices := (q * inject_Z (Nx - 1))%Q in
  let indices_below := Qfloor indices in
  let indices_above :=
    if Nx - 1 <? indices_below + 1 then Nx - 1 else indices_below + 1 in
  let weights_above := (indices - inject_Z indices_below)%Q in
  let x_below := nth (Z.to_nat indices_below) ap 0%Q in
  let x_above := nth (Z.to_nat indices_above) ap 0%Q in
  lerp x_below x_above weights_above.

(** [np.quantile(a, q = qs)]: every level must lie in [0, 1]; an empty [a]
    is refused. *)
Definition quantile (a : list Q) (qs : list Q) : result (list Q) :=
  if negb (forallb (fun q => Qle_bool 0 q && Qle_bool q 1) qs)
  then Raise (ValueError "q")
  else match a with
       | [] => Raise IndexError
       | _ => let ap := sort a in Ok (map (quantile_sorted ap) qs)
       end.

(** numpy broadcasting of a binary elementwise function: the first argument
    is a scalar or a one-dimensional array, the second a one-dimensional
    array. *)
Inductive arg : Type :=
| Scalar (x : Q)
| Vector (v : list Q).

Fixpoint map2 (f : Q -> Q -> Q) (a b : list Q) : list Q :=
  match a, b with
  | x :: a', y :: b' => f x y :: map2 f a' b'
  | _, _ => []
  end.

Definition broadcast (f : Q -> Q -> Q) (a : arg) (b : list Q)
  : result (list Q) :=
  match a with
  | Scalar x => Ok (map (f x) b)
  | Vector v =>
      if Nat.eqb (List.length v) (List.length b) then Ok (map2 f v b)
      else match v, b with
           | [x], _ => Ok (map (f x) b)
           | _, [y] => Ok (map (fun x => f x y) v)
           | _, _ => Raise (ValueError "broadcast")
           end
  end.

(** [out[:, i] = v] into a column of [n] cells: [v] must have [n] entries,
    or one entry, which is repeated. *)
Definition as_column (n : nat) (v : list Q) : result (list Q) :=
  if Nat.eqb (List.length v) n then Ok v
  else match v with
       | [x] => Ok (List.repeat x n)
       | _ => Raise (ValueError "broadcast")
       end.

End Np.

(** [x < y] on floats. *)
Definition Qlt_bool (x y : Q) : bool := negb (Qle_bool y x).

(** ** The numerical libraries the class calls *)

(** [sm.families.Gaussian()] and [sm.families.Gamma(Inverse_Power())] *)
Inductive Family : Type :=
| Gaussian
| Gamma_Inverse_Power.

(** What the code reads of a fitted statsmodels GLM. *)
Record GLMResults : Type := mkGLMResults {
  fittedvalues : list Q;
  resid_response : list Q;
  mu : list Q;
  scale : Q;
  deviance : Q
}.

Class Externals : Type := {
  (** a fitted [pygam.LinearGAM] *)
  gam_model : Type;
  (** [sm.GLM(endog, exog, family = fam).fit()] *)
  GLM_fit : Family -> list Q -> DataFrame -> result GLMResults;
  (** [np.log], [np.std] *)
  np_log : Q -> Q;
  np_std : list Q -> Q;
  (** [scipy.stats.norm.pdf(x, loc, scale)] at one point *)
  norm_pdf : Q -> Q -> Q -> Q;
  (** [scipy.stats.gamma.pdf(x, a = a, loc = 0, scale = scale)] at one point *)
  gamma_pdf : Q -> Q -> Q -> Q;
  (** [LinearGAM(s(0, n_splines, spline_order) + s(1, n_splines, spline_order),
      max_iter = max_iter).fit(X, y)], with the arguments in the order
      [n_splines], [spline_order], [max_iter], [X], [y] *)
  LinearGAM_fit :
    value -> value -> Z -> list (Q * Q) -> list Q -> result gam_model;
  (** [gam.predict(X)] and [gam.prediction_intervals(X, width = ci)], for
      one row of [X]; both work row by row.  The width is the float given
      to [calculate_CDRC], passed on as it is. *)
  gam_predict : gam_model -> Q * Q -> Q;
  gam_prediction_intervals : gam_model -> value -> Q * Q -> Q * Q;
  (** the text [gam.summary()] prints *)
  gam_summary : gam_model -> string
}.

(** ** The instance *)

(** A GPS function: called with a scalar treatment value or with an array of
    them, it gives one density per observation. *)
Definition GpsFunction : Type := Np.arg -> result (list Q).

(** The predictions for one grid index [i]: the arrays [preds[:, i, 0]],
    [preds[:, i, 1]] and [preds[:, i, 2]]. *)
Record Slab : Type := mkSlab {
  point : list Q;
  lower : list Q;
  upper : list Q
}.

(** An array of shape [(n_samples, treatment_grid_num, 3)], by grid index. *)
Definition Tensor : Type := list Slab.

(** An array of shape [(n_samples, treatment_grid_num)], by column. *)
Definition Matrix : Type := list (list Q).

Module TableRow.
(** One row of the data frame [calculate_CDRC] returns. *)
Record t : Type := mk {
  Treatment : Q;
  CDRC : Q;
  Lower_CI : Q;
  Upper_CI : Q
}.
End TableRow.

Section Instance.
Context {E : Externals}.

Record CDRC : Type := mkCDRC {
  gps_family : value;
  treatment_grid_num : value;
  spline_order : value;
  n_splines : value;
  lambda_ : value;
  max_iter : value;
  verbose : value;
  T : option Series;
  X : option DataFrame;
  y : option Series;
  grid_values : option (list Q);
  best_gps_family : option value;
  gps_function : option GpsFunction;
  gps_deviance : option Q;
  gps : option (list Q);
  gam_results : option gam_model;
  _gam_summary_str : option string;
  gps_at_grid : option Matrix;
  _cdrc_preds : option Tensor
}.

(** [self.attr = v] for each attribute assigned after construction. *)
Definition set_T v (self : CDRC) : CDRC :=
  {| gps_family := gps_family self; treatment_grid_num := treatment_grid_num
  self; spline_order := spline_order self; n_splines := n_splines self;
  lambda_ := lambda_ self; max_iter := max_iter self; verbose := verbose self;
  T := Some v; X := X self; y := y self; grid_values := grid_values self;
  best_gps_family := best_gps_family self; gps_function := gps_function self;
  gps_deviance := gps_deviance self; gps := gps self; gam_results :=
  gam_results self; _gam_summary_str := _gam_summary_str self; gps_at_grid :=
  gps_at_grid self; _cdrc_preds := _cdrc_preds self |}.

Definition set_X v (self : CDRC) : CDRC :=
  {| gps_family := gps_family self; treatment_grid_num := treatment_grid_num
  self; spline_order := spline_order self; n_splines := n_splines self;
  lambda_ := lambda_ self; max_iter := max_iter self; verbose := verbose self;
  T := T self; X := Some v; y := y self; grid_values := grid_values self;
  best_gps_family := best_gps_family self; gps_function := gps_function self;
  gps_deviance := gps_deviance self; gps := gps self; gam_results :=
  gam_results self; _gam_summary_str := _gam_summary_str self; gps_at_grid :=
  gps_at_grid self; _cdrc_preds := _cdrc_preds self |}.

Definition set_y v (self : CDRC) : CDRC :=
  {| gps_family := gps_family self; treatment_grid_num := treatment_grid_num
  self; spline_order := spline_order self; n_splines := n_splines self;
  lambda_ := lambda_ self; max_iter := max_iter self; verbose := verbose self;
  T := T self; X := X self; y := Some v; grid_values := grid_values self;
  best_gps_family := best_gps_family self; gps_function := gps_function self;
  gps_deviance := gps_deviance self; gps := gps self; gam_results :=
  gam_results self; _gam_summary_str := _gam_summary_str self; gps_at_grid :=
  gps_at_grid self; _cdrc_preds := _cdrc_preds self |}.

Definition set_grid_values v (self : CDRC) : CDRC :=
  {| gps_family := gps_family self; treatment_grid_num := treatment_grid_num
  self; spline_order := spline_order self; n_splines := n_splines self;
  lambda_ := lambda_ self; max_iter := max_iter self; verbose := verbose self;
  T := T self; X := X self; y := y self; grid_values := Some v;
  best_gps_family := best_gps_family self; gps_function := gps_function self;
  gps_deviance := gps_deviance self; gps := gps self; gam_results :=
  gam_results self; _gam_summary_str := _gam_summary_str self; gps_at_grid :=
  gps_at_grid self; _cdrc_preds := _cdrc_preds self |}.

Definition set_best_gps_family v (self : CDRC) : CDRC :=
  {| gps_family := gps_family self; treatment_grid_num := treatment_grid_num
  self; spline_order := spline_order self; n_splines := n_splines self;
  lambda_ := lambda_ self; max_iter := max_iter self; verbose := verbose self;
  T := T self; X := X self; y := y self; grid_values := grid_values self;
  best_gps_family := Some v; gps_function := gps_function self; gps_deviance
  := gps_deviance self; gps := gps self; gam_results := gam_results self;
  _gam_summary_str := _gam_summary_str self; gps_at_grid := gps_at_grid self;
  _cdrc_preds := _cdrc_preds self |}.

Definition set_gps_function v (self : CDRC) : CDRC :=
  {| gps_family := gps_family self; treatment_grid_num := treatment_grid_num
  self; spline_order := spline_order self; n_splines := n_splines self;
  lambda_ := lambda_ self; max_iter := max_iter self; verbose := verbose self;
  T := T self; X := X self; y := y self; grid_values := grid_values self;
  best_gps_family := best_gps_family self; gps_function := Some v;
  gps_deviance := gps_deviance self; gps := gps self; gam_results :=
  gam_results self; _gam_summary_str := _gam_summary_str self; gps_at_grid :=
  gps_at_grid self; _cdrc_preds := _cdrc_preds self |}.

Definition set_gps_deviance v (self : CDRC) : CDRC :=
  {| gps_family := gps_family self; treatment_grid_num := treatment_grid_num
  self; spline_order := spline_order self; n_splines := n_splines self;
  lambda_ := lambda_ self; max_iter := max_iter self; verbose := verbose self;
  T := T self; X := X self; y := y self; grid_values := grid_values self;
  best_gps_family := best_gps_family self; gps_function := gps_function self;
  gps_deviance := Some v; gps := gps self; gam_results := gam_results self;
  _gam_summary_str := _gam_summary_str self; gps_at_grid := gps_at_grid self;
  _cdrc_preds := _cdrc_preds self |}.

Definition set_gps v (self : CDRC) : CDRC :=
  {| gps_family := gps_family self; treatment_grid_num := treatment_grid_num
  self; spline_order := spline_order self; n_splines := n_splines self;
  lambda_ := lambda_ self; max_iter := max_iter self; verbose := verbose self;
  T := T self; X := X self; y := y self; grid_values := grid_values self;
  best_gps_family := best_gps_family self; gps_function := gps_function self;
  gps_deviance := gps_deviance self; gps := Some v; gam_results := gam_results
  self; _gam_summary_str := _gam_summary_str self; gps_at_grid := gps_at_grid
  self; _cdrc_preds := _cdrc_preds self |}.

Definition set_gam_results v (self : CDRC) : CDRC :=
  {| gps_family := gps_family self; treatment_grid_num := treatment_grid_num
  self; spline_order := spline_order self; n_splines := n_splines self;
  lambda_ := lambda_ self; max_iter := max_iter self; verbose := verbose self;
  T := T self; X := X self; y := y self; grid_values := grid_values self;
  best_gps_family := best_gps_family self; gps_function := gps_function self;
  gps_deviance := gps_deviance self; gps := gps self; gam_results := Some v;
  _gam_summary_str := _gam_summary_str self; gps_at_grid := gps_at_grid self;
  _cdrc_preds := _cdrc_preds self |}.

Definition set_gam_summary_str v (self : CDRC) : CDRC :=
  {| gps_family := gps_family self; treatment_grid_num := treatment_grid_num
  self; spline_order := spline_order self; n_splines := n_splines self;
  lambda_ := lambda_ self; max_iter := max_iter self; verbose := verbose self;
  T := T self; X := X self; y := y self; grid_values := grid_values self;
  best_gps_family := best_gps_family self; gps_function := gps_function self;
  gps_deviance := gps_deviance self; gps := gps self; gam_results :=
  gam_results self; _gam_summary_str := Some v; gps_at_grid := gps_at_grid
  self; _cdrc_preds := _cdrc_preds self |}.

Definition set_gps_at_grid v (self : CDRC) : CDRC :=
  {| gps_family := gps_family self; treatment_grid_num := treatment_grid_num
  self; spline_order := spline_order self; n_splines := n_splines self;
  lambda_ := lambda_ self; max_iter := max_iter self; verbose := verbose self;
  T := T self; X := X self; y := y self; grid_values := grid_values self;
  best_gps_family := best_gps_family self; gps_function := gps_function self;
  gps_deviance := gps_deviance self; gps := gps self; gam_results :=
  gam_results self; _gam_summary_str := _gam_summary_str self; gps_at_grid :=
  Some v; _cdrc_preds := _cdrc_preds self |}.

Definition set_cdrc_preds v (self : CDRC) : CDRC :=
  {| gps_family := gps_family self; treatment_grid_num := treatment_grid_num
  self; spline_order := spline_order self; n_splines := n_splines self;
  lambda_ := lambda_ self; max_iter := max_iter self; verbose := verbose self;
  T := T self; X := X self; y := y self; grid_values := grid_values self;
  best_gps_family := best_gps_family self; gps_function := gps_function self;
  gps_deviance := gps_deviance self; gps := gps self; gam_results :=
  gam_results self; _gam_summary_str := _gam_summary_str self; gps_at_grid :=
  gps_at_grid self; _cdrc_preds := Some v |}.

(** ** Methods: state passing with exceptions *)

(** A method body: from the instance to the instance it leaves behind and
    the value it returns or the exception it raises. *)
Definition M (A : Type) : Type := CDRC -> CDRC * result A.

Definition ret {A} (a : A) : M A := fun self => (self, Ok a).

Definition bind {A B} (m : M A) (k : A -> M B) : M B :=
  fun self =>
    match m self with
    | (self', Ok a) => k a self'
    | (self', Raise e) => (self', Raise e)
    end.

(** A computation that does not touch the instance. *)
Definition lift {A} (r : result A) : M A := fun self => (self, r).

(** [self.attr] for an attribute set by the constructor. *)
Definition read {A} (attr : CDRC -> A) : M A := fun self => (self, Ok (attr self)).

(** [self.attr] for an attribute that may not have been assigned yet. *)
Definition getattr {A} (attr : CDRC -> option A) (name : string) : M A :=
  fun self =>
    match attr self with
    | Some a => (self, Ok a)
    | None => (self, Raise (AttributeError name))
    end.

(** [self.attr = v] *)
Definition assign (set : CDRC -> CDRC) : M unit := fun self => (set self, Ok tt).

End Instance.

Declare Scope method_scope.
Delimit Scope method_scope with M.
Notation "x <- c ;; k" := (bind c (fun x => k))
  (at level 61, c at next level, right associativity) : method_scope.
Notation "' pat <- c ;; k" := (bind c (fun x => match x with pat => k end))
  (at level 61, pat pattern, c at next level, right associativity) : method_scope.
Notation "c ;;; k" := (bind c (fun _ => k))
  (at level 61, right associativity) : method_scope.

Section Methods.
Context {E : Externals}.

(** [for x in xs: body(x)], collecting what the bodies return. *)
Fixpoint for_each {A B} (xs : list A) (body : A -> M B) : M (list B) :=
  match xs with
  | [] => ret []
  | x :: xs' =>
      (b <- body x ;;
       bs <- for_each xs' body ;;
       ret (b :: bs))%M
  end.

(** [a[i]] on a list or array. *)
Definition index {A} (a : list A) (i : nat) : result A :=
  match nth_error a i with
  | Some x => Ok x
  | None => Raise IndexError
  end.

(** [range(0, n)]: [n] must be an [int]. *)
Definition range (n : value) : result (list nat) :=
  if isinstance_int n then Ok (seq 0 (Z.to_nat (int_value n)))
  else Raise (TypeError "range").

(** [s in names] *)
Definition str_in (s : string) (names : list string) : bool :=
  existsb (String.eqb s) names.

(** *** Construction *)

Definition _validate_init_params (self : CDRC) : result unit :=
  ((* Checks for gps_family param *)
   raise_if (negb (isinstance_str_or_NoneType (gps_family self)))
            (TypeError "gps_family") ;;;
   raise_if (isinstance_str (gps_family self) &&
             negb (match gps_family self with
                   | PyStr s => str_in s ["normal"; "lognormal"; "gamma"]
                   | _ => false
                   end))
            (ValueError "gps_family") ;;;
   (* Checks for treatment_grid_num *)
   raise_if (negb (isinstance_int (treatment_grid_num self)))
            (TypeError "treatment_grid_num") ;;;
   raise_if (isinstance_int (treatment_grid_num self) &&
             (int_value (treatment_grid_num self) <? 10))
            (ValueError "treatment_grid_num") ;;;
   raise_if (isinstance_int (treatment_grid_num self) &&
             (int_value (treatment_grid_num self) >=? 1000))
            (ValueError "treatment_grid_num") ;;;
   (* Checks for spline_order *)
   raise_if (negb (isinstance_int (spline_order self)))
            (TypeError "spline_order") ;;;
   raise_if (isinstance_int (spline_order self) &&
             (int_value (spline_order self) <? 1))
            (ValueError "spline_order") ;;;
   raise_if (isinstance_int (spline_order self) &&
             (int_value (spline_order self) >=? 30))
            (ValueError "spline_order") ;;;
   (* Checks for n_splines *)
   raise_if (negb (isinstance_int (n_splines self)))
            (TypeError "n_splines") ;;;
   raise_if (isinstance_int (n_splines self) &&
             (int_value (n_splines self) <? 2))
            (ValueError "n_splines") ;;;
   raise_if (isinstance_int (n_splines self) &&
             (int_value (n_splines self) >=? 100))
            (ValueError "n_splines") ;;;
   (* Checks for lambda_ *)
   raise_if (negb (isinstance_float (lambda_ self)))
            (TypeError "lambda_") ;;;
   raise_if (isinstance_float (lambda_ self) &&
             float_le (lambda_ self) 0)
            (ValueError "lambda_") ;;;
   raise_if (isinstance_float (lambda_ self) &&
             float_ge (lambda_ self) 1000)
            (ValueError "lambda_") ;;;
   (* Checks for max_iter *)
   raise_if (negb (isinstance_int (max_iter self)))
            (TypeError "max_iter") ;;;
   raise_if (isinstance_int (max_iter self) &&
             (int_value (max_iter self) <=? 10))
            (ValueError "max_iter") ;;;
   raise_if (isinstance_int (max_iter self) &&
             (int_value (max_iter self) >=? 1000000))
            (ValueError "max_iter") ;;;
   (* Checks for verbose *)
   raise_if (negb (isinstance_bool (verbose self)))
            (TypeError "verbose"))%res.

(** The instance right after the assignments of [__init__]: the parameters
    stored, no other attribute assigned yet. *)
Definition store_params
  (gps_family treatment_grid_num spline_order n_splines lambda_ max_iter
     verbose : value) : CDRC :=
  {| gps_family := gps_family; treatment_grid_num := treatment_grid_num;
     spline_order := spline_order; n_splines := n_splines;
     lambda_ := lambda_; max_iter := max_iter; verbose := verbose;
     T := None; X := None; y := None; grid_values := None;
     best_gps_family := None; gps_function := None; gps_deviance := None;
     gps := None; gam_results := None; _gam_summary_str := None;
     gps_at_grid := None; _cdrc_preds := None |}.

(** [CDRC(gps_family, treatment_grid_num, spline_order, n_splines, lambda_,
    max_iter, verbose)]: the attributes are stored, then validated; when the
    validation raises there is no instance. *)
Definition __init__
  (gps_family treatment_grid_num spline_order n_splines lambda_ max_iter
     verbose : value) : result CDRC :=
  let self :=
    store_params gps_family treatment_grid_num spline_order n_splines lambda_
                 max_iter verbose in
  (_validate_init_params self ;;; Ok self)%res.

(** *** Fitting *)

Definition _validate_fit_data : M unit :=
  (T_ <- getattr T "T" ;;
   (* Checks for T column *)
   lift (raise_if (negb (is_float_dtype (dtype T_))) (TypeError "T")) ;;;
   (* Make sure all X columns are float or int *)
   X_ <- getattr X "X" ;;
   for_each X_ (fun column =>
     lift (raise_if (negb (is_numeric_dtype (dtype (snd column))))
                    (TypeError "X"))) ;;;
   (* Checks for Y column *)
   y_ <- getattr y "y" ;;
   lift (raise_if (negb (is_float_dtype (dtype y_))) (TypeError "y")))%M.

Definition _grid_values : M (list Q) :=
  (T_ <- getattr T "T" ;;
   num <- read treatment_grid_num ;;
   lift (raise_if (negb (isinstance_int num)) (TypeError "num")) ;;;
   q <- lift (Np.linspace 0 1 (int_value num)) ;;
   lift (Np.quantile (values T_) q))%M.

(** [np.log(treatment_val)] on a scalar or an array *)
Definition log_arg (a : Np.arg) : Np.arg :=
  match a with
  | Np.Scalar x => Np.Scalar (np_log x)
  | Np.Vector v => Np.Vector (map np_log v)
  end.

Definition _create_normal_gps_function : M (GpsFunction * Q) :=
  (T_ <- getattr T "T" ;;
   X_ <- getattr X "X" ;;
   normal_gps_model <- lift (GLM_fit Gaussian (values T_) X_) ;;
   let pred_treat := fittedvalues normal_gps_model in
   let sigma := np_std (resid_response normal_gps_model) in
   let gps_function : GpsFunction := fun treatment_val =>
     Np.broadcast (fun x loc => norm_pdf x loc sigma) treatment_val pred_treat in
   ret (gps_function, deviance normal_gps_model))%M.

Definition _create_lognormal_gps_function : M (GpsFunction * Q) :=
  (T_ <- getattr T "T" ;;
   X_ <- getattr X "X" ;;
   lognormal_gps_model <- lift (GLM_fit Gaussian (map np_log (values T_)) X_) ;;
   let pred_log_treat := fittedvalues lognormal_gps_model in
   let sigma := np_std (resid_response lognormal_gps_model) in
   let gps_function : GpsFunction := fun treatment_val =>
     Np.broadcast (fun x loc => norm_pdf x loc sigma)
                  (log_arg treatment_val) pred_log_treat in
   ret (gps_function, deviance lognormal_gps_model))%M.

Definition _create_gamma_gps_function : M (GpsFunction * Q) :=
  (T_ <- getattr T "T" ;;
   X_ <- getattr X "X" ;;
   gamma_gps_model <- lift (GLM_fit Gamma_Inverse_Power (values T_) X_) ;;
   let mu_ := mu gamma_gps_model in
   let scale_ := scale gamma_gps_model in
   let shape := map (fun m => (m / scale gamma_gps_model)%Q) mu_ in
   let gps_function : GpsFunction := fun treatment_val =>
     Np.broadcast (fun x a => gamma_pdf x a scale_) treatment_val shape in
   ret (gps_function, deviance gamma_gps_model))%M.

(** A dict in insertion order. *)
Definition dict (V : Type) : Type := list (string * V).

(** [d[k]] *)
Fixpoint dict_get {V} (d : dict V) (k : string) : option V :=
  match d with
  | [] => None
  | (k', v) :: d' => if String.eqb k k' then Some v else dict_get d' k
  end.

(** [min(d, key = key)] after its first item: the running best is replaced
    only by an item whose key is strictly smaller. *)
Fixpoint min_from (key : string -> Q) (best : string) (rest : list string)
  : string :=
  match rest with
  | [] => best
  | item :: rest' =>
      if Qlt_bool (key item) (key best) then min_from key item rest'
      else min_from key best rest'
  end.

(** [min(d, key = key)] over the keys of a dict, in insertion order. *)
Definition py_min {V} (d : dict V) (key : string -> Q) : result string :=
  match map fst d with
  | [] => Raise (ValueError "min")
  | first :: rest => Ok (min_from key first rest)
  end.

Definition _find_best_gps_model : M (string * GpsFunction * Q) :=
  (normal <- _create_normal_gps_function ;;
   lognormal <- _create_lognormal_gps_function ;;
   gamma <- _create_gamma_gps_function ;;
   let models_to_try_dict : dict (GpsFunction * Q) :=
     [ ("normal_gps_model", normal);
       ("lognormal_gps_model", lognormal);
       ("gamma_gps_model", gamma) ] in
   let model_comparison_dict : dict Q :=
     map (fun item => (fst item, snd (snd item))) models_to_try_dict in
   (* Return model with lowest deviance *)
   best_model <- lift (py_min model_comparison_dict
                         (fun k => match dict_get model_comparison_dict k with
                                   | Some d => d
                                   | None => 0%Q
                                   end)) ;;
   match dict_get models_to_try_dict best_model with
   | Some chosen => ret (best_model, fst chosen, snd chosen)
   | None => lift (Raise (LibraryError "KeyError"))
   end)%M.

Definition _fit_gam : M gam_model :=
  (T_ <- getattr T "T" ;;
   gps_ <- getattr gps "gps" ;;
   X_ <- lift (Np.column_stack (values T_) gps_) ;;
   y_ <- getattr y "y" ;;
   n_splines_ <- read n_splines ;;
   spline_order_ <- read spline_order ;;
   lift (LinearGAM_fit n_splines_ spline_order_ 500 X_ (values y_)))%M.

Definition _gps_values_at_grid : M Matrix :=
  (T_ <- getattr T "T" ;;
   num <- read treatment_grid_num ;;
   grid <- lift (range num) ;;
   (* Loop over all grid values *)
   for_each grid (fun i =>
     grid_values_ <- getattr grid_values "grid_values" ;;
     g <- lift (index grid_values_ i) ;;
     gps_function_ <- getattr gps_function "gps_function" ;;
     column <- lift (gps_function_ (Np.Scalar g)) ;;
     lift (Np.as_column (List.length (values T_)) column)))%M.

Definition fit (T_ : Series) (X_ : DataFrame) (y_ : Series) : M unit :=
  (assign (set_T T_) ;;;
   assign (set_X X_) ;;;
   assign (set_y y_) ;;;
   (* Validate this input data *)
   _validate_fit_data ;;;
   (* Create grid_values *)
   grid <- _grid_values ;;
   assign (set_grid_values grid) ;;;
   (* Estimating the GPS *)
   family <- read gps_family ;;
   assign (set_best_gps_family family) ;;;
   (* If no family specified, pick the best family *)
   (if Py.eqb family PyNone then
      ' (best, f, d) <- _find_best_gps_model ;;
      assign (set_best_gps_family (PyStr best)) ;;;
      assign (set_gps_function f) ;;;
      assign (set_gps_deviance d)
    (* Otherwise, go with the what the user provided... *)
    else
      best_gps_family_ <- getattr best_gps_family "best_gps_family" ;;
      if Py.eqb best_gps_family_ (PyStr "normal") then
        ' (f, d) <- _create_normal_gps_function ;;
        assign (set_gps_function f) ;;;
        assign (set_gps_deviance d)
      else if Py.eqb best_gps_family_ (PyStr "lognormal") then
        ' (f, d) <- _create_lognormal_gps_function ;;
        assign (set_gps_function f) ;;;
        assign (set_gps_deviance d)
      else if Py.eqb best_gps_family_ (PyStr "gamma") then
        ' (f, d) <- _create_gamma_gps_function ;;
        assign (set_gps_function f) ;;;
        assign (set_gps_deviance d)
      else ret tt) ;;;
   (* Estimate the GPS *)
   gps_function_ <- getattr gps_function "gps_function" ;;
   T' <- getattr T "T" ;;
   gps_ <- lift (gps_function_ (Np.Vector (values T'))) ;;
   assign (set_gps gps_) ;;;
   (* Save model results *)
   gam <- _fit_gam ;;
   assign (set_gam_results gam) ;;;
   assign (set_gam_summary_str (gam_summary gam)) ;;;
   (* Loop over all grid values and give GPS loading for each observation *)
   matrix <- _gps_values_at_grid ;;
   assign (set_gps_at_grid matrix))%M.

(** *** The curve *)

Definition _validate_calculate_CDRC_params (ci : value) : M unit :=
  (lift (raise_if (negb (isinstance_float ci)) (TypeError "ci")) ;;;
   lift (raise_if (isinstance_float ci && (float_le ci 0 || float_ge ci 1))
                  (ValueError "ci")))%M.

(** [np.round(cdrc_preds, 3)] on every cell of the tensor *)
Definition round_tensor (preds : Tensor) : Tensor :=
  map (fun s => {| point := map (fun x => Np.round x 3) (point s);
                   lower := map (fun x => Np.round x 3) (lower s);
                   upper := map (fun x => Np.round x 3) (upper s) |}) preds.

Definition _cdrc_predictions (ci : value) : M Tensor :=
  (T_ <- getattr T "T" ;;
   num <- read treatment_grid_num ;;
   grid <- lift (range num) ;;
   (* Loop through each of the grid values, predict point estimate and get
      prediction interval *)
   cdrc_preds <- for_each grid (fun i =>
     grid_values_ <- getattr grid_values "grid_values" ;;
     g <- lift (index grid_values_ i) ;;
     let temp_T := Np.repeat g (List.length (values T_)) in
     gps_at_grid_ <- getattr gps_at_grid "gps_at_grid" ;;
     temp_gps <- lift (index gps_at_grid_ i) ;;
     gam <- getattr gam_results "gam_results" ;;
     rows <- lift (Np.column_stack temp_T temp_gps) ;;
     let temp_cdrc_preds := map (gam_predict gam) rows in
     let temp_cdrc_interval :=
       map (gam_prediction_intervals gam ci) rows in
     let temp_cdrc_lower_bound := map fst temp_cdrc_interval in
     let temp_cdrc_upper_bound := map snd temp_cdrc_interval in
     ret {| point := temp_cdrc_preds;
            lower := temp_cdrc_lower_bound;
            upper := temp_cdrc_upper_bound |}) ;;
   ret (round_tensor cdrc_preds))%M.

(** The loop of [calculate_CDRC] over the columns of [_cdrc_preds], and the
    data frame made of its rows. *)
Definition results_table : M (list TableRow.t) :=
  (num <- read treatment_grid_num ;;
   grid <- lift (range num) ;;
   for_each grid (fun i =>
     grid_values_ <- getattr grid_values "grid_values" ;;
     temp_grid_value <- lift (index grid_values_ i) ;;
     _cdrc_preds_ <- getattr _cdrc_preds "_cdrc_preds" ;;
     slab <- lift (index _cdrc_preds_ i) ;;
     let temp_point_estimate := Np.mean (point slab) in
     let temp_lower_bound := Np.mean (lower slab) in
     let temp_upper_bound := Np.mean (upper slab) in
     ret (TableRow.mk temp_grid_value temp_point_estimate temp_lower_bound
                 temp_upper_bound)))%M.

Definition calculate_CDRC (ci : value) : M (list TableRow.t) :=
  (_validate_calculate_CDRC_params ci ;;;
   (* Create CDRC predictions from trained GAM *)
   preds <- _cdrc_predictions ci ;;
   assign (set_cdrc_preds preds) ;;;
   (* For each column of _cdrc_preds, calculate the mean and confidence
      interval bounds *)
   results_table)%M.

(** The text [print_gam_summary] prints. *)
Definition print_gam_summary : M string :=
  getattr _gam_summary_str "_gam_summary_str".

End Methods.

(** ** A small stand-in for the numerical libraries

    Used to run the class on concrete data: the GLM predicts, for every
    observation, the midpoint of the response and its mean; its Gaussian deviance is the residual sum
    of squares and its gamma deviance twice the sum of absolute residuals;
    the logarithm is replaced by halving, the densities by rational bumps;
    the additive model predicts [t + gps] with the interval
    [t + gps -/+ width]. *)
Module Stub.

Definition glm_fit (fam : Family) (endog : list Q) (exog : DataFrame)
  : result GLMResults :=
  match endog with
  | [] => Raise (LibraryError "statsmodels")
  | _ =>
      let m := Np.mean endog in
      let fitted := map (fun t => ((m + t) / 2)%Q) endog in
      let resid := map (fun t => ((t - m) / 2)%Q) endog in
      Ok {| fittedvalues := fitted;
            resid_response := resid;
            mu := fitted;
            scale := 1%Q;
            deviance :=
              match fam with
              | Gaussian => Np.Qsum (map (fun r => (r * r)%Q) resid)
              | Gamma_Inverse_Power =>
                  (2 * Np.Qsum (map Qabs resid))%Q
              end |}
  end.

Definition bump (x loc s : Q) : Q :=
  (1 / (1 + (x - loc) * (x - loc) + s * s))%Q.

#[local] Instance externals : Externals := {|
  gam_model := list Q;
  GLM_fit := glm_fit;
  np_log := fun x => (x / 2)%Q;
  np_std := fun l => Np.mean (map Qabs l);
  norm_pdf := bump;
  gamma_pdf := fun x a s => bump x (a * s) s;
  LinearGAM_fit := fun _ _ _ X y => Ok y;
  gam_predict := fun _ row => (fst row + snd row)%Q;
  gam_prediction_intervals := fun _ width row =>
    ((fst row + snd row - float_value width)%Q,
     (fst row + snd row + float_value width)%Q);
  gam_summary := fun _ => "LinearGAM"
|}.

(** Four observations, one covariate. *)
Definition T0 : Series := mkSeries float64 [1; 2; 3; 6]%Q.
Definition X0 : DataFrame := [("x1", mkSeries int64 [1; 1; 2; 3]%Q)].
Definition y0 : Series := mkSeries float64 [1 # 2; 1; 3 # 2; 3]%Q.

(** [CDRC(treatment_grid_num = 10)], the other parameters at their defaults. *)
Definition model0 : CDRC :=
  store_params PyNone (PyInt 10) (PyInt 3) (PyInt 30) (PyFloat (1 # 2))
               (PyInt 100) (PyBool false).

(** [model0] after [fit(T0, X0, y0)]. *)
Definition fitted0 : CDRC := fst (fit T0 X0 y0 model0).

(** [fitted0] after [calculate_CDRC(0.95)], and the table of that call. *)
Definition ci0 : value := PyFloat (95 # 100).

Definition after0 : CDRC := fst (calculate_CDRC ci0 fitted0).

Definition table0 : list TableRow.t :=
  match snd (calculate_CDRC ci0 fitted0) with
  | Ok table => table
  | Raise _ => []
  end.

(** The treatment values as integers. *)
Definition T_int : Series := mkSeries int64 [1; 2; 3; 6]%Q.

(** [CDRC(gps_family = 'lognormal', treatment_grid_num = 10)] *)
Definition model_lognormal : CDRC :=
  store_params (PyStr "lognormal") (PyInt 10) (PyInt 3) (PyInt 30)
               (PyFloat (1 # 2)) (PyInt 100) (PyBool false).

(** The same stand-in with a GLM routine that cannot fit the gamma family. *)
Definition glm_fit_no_gamma (fam : Family) (endog : list Q) (exog : DataFrame)
  : result GLMResults :=
  match fam with
  | Gaussian => glm_fit fam endog exog
  | Gamma_Inverse_Power => Raise (LibraryError "statsmodels")
  end.

Definition externals_no_gamma : Externals := {|
  gam_model := list Q;
  GLM_fit := glm_fit_no_gamma;
  np_log := fun x => (x / 2)%Q;
  np_std := fun l => Np.mean (map Qabs l);
  norm_pdf := bump;
  gamma_pdf := fun x a s => bump x (a * s) s;
  LinearGAM_fit := fun _ _ _ X y => Ok y;
  gam_predict := fun _ row => (fst row + snd row)%Q;
  gam_prediction_intervals := fun _ width row =>
    ((fst row + snd row - float_value width)%Q,
     (fst row + snd row + float_value width)%Q);
  gam_summary := fun _ => "LinearGAM"
|}.

(** [CDRC(treatment_grid_num = 10)] over that stand-in. *)
Definition model_no_gamma : @CDRC externals_no_gamma :=
  store_params PyNone (PyInt 10) (PyInt 3) (PyInt 30) (PyFloat (1 # 2))
               (PyInt 100) (PyBool false).

(** [CDRC(gps_family = 'normal', treatment_grid_num = 10)] *)
Definition model_normal : @CDRC externals :=
  store_params (PyStr "normal") (PyInt 10) (PyInt 3) (PyInt 30)
               (PyFloat (1 # 2)) (PyInt 100) (PyBool false).

(** The GLM of the normal family on the sample. *)
Definition glm_normal0 : GLMResults :=
  match glm_fit Gaussian (values T0) X0 with
  | Ok m => m
  | Raise _ => mkGLMResults [] [] [] 0 0
  end.

(** A sample whose treatment is the same for every observation. *)
Definition T_flat : Series := mkSeries float64 [2; 2; 2]%Q.

End Stub.

(** * Vocabulary of the properties *)

Section GridVocabulary.
Open Scope Q_scope.

(** The value [np.quantile] reads at a virtual index [v] of the sorted
    array. *)
Definition interpolate (ap : list Q) (v : Q) : Q :=
  let Nx := Z.of_nat (List.length ap) in
  let below := Qfloor v in
  let above := if (Nx - 1 <? below + 1)%Z then (Nx - 1)%Z else (below + 1)%Z in
  Np.lerp (nth (Z.to_nat below) ap 0) (nth (Z.to_nat above) ap 0)
          (v - inject_Z below).

(** The [i]-th of [n] equally spaced levels from 0 to 1 inclusive. *)
Definition level (n : Z) (i : nat) : Q :=
  inject_Z (Z.of_nat i) / inject_Z (n - 1).

(** The least and the greatest value of a sample. *)
Definition is_minimum (m : Q) (l : list Q) : Prop :=
  (exists x, In x l /\ x == m) /\ forall x, In x l -> m <= x.

Definition is_maximum (m : Q) (l : list Q) : Prop :=
  (exists x, In x l /\ x == m) /\ forall x, In x l -> x <= m.

(** The sample [np.linspace(0, 1, n)] computes at position [i]. *)
Definition linspace_sample (n : Z) (i : nat) : Q :=
  if (1 <? n)%Z && (Z.of_nat i =? n - 1)%Z then 1
  else if (0 <? n - 1)%Z
       then 0 + inject_Z (Z.of_nat i) * ((1 - 0) / inject_Z (n - 1))
       else 0 + inject_Z (Z.of_nat i) * (1 - 0).

(** The grid [_grid_values] computes from the treatment values [a] for a
    grid of [n] points. *)
Definition grid_of (a : list Q) (n : Z) : list Q :=
  map (Np.quantile_sorted (Np.sort a))
      (map (linspace_sample n) (seq 0 (Z.to_nat n))).


(** [r] is [x] rounded to [d] decimals, a half going to the even digit:
    the multiple of [10 ^ -d] nearest to [x].  This is said without the
    rounding function of the code. *)
Definition nearest_even (d : nat) (x r : Q) : Prop :=
  exists k : Z,
    r == inject_Z k / inject_Z (10 ^ Z.of_nat d) /\
    Qabs (x * inject_Z (10 ^ Z.of_nat d) - inject_Z k) <= 1 # 2 /\
    (Qabs (x * inject_Z (10 ^ Z.of_nat d) - inject_Z k) == 1 # 2 ->
     Z.even k = true).

(** The sum of a list of numbers; a column [c] of [nobs] numbers has the
    mean [m] when [m * nobs == total c]. *)
Definition total (l : list Q) : Q := fold_right Qplus 0 l.

(** The quantile at level [p] of a sample given in non-decreasing order,
    by linear interpolation between the two nearest order statistics (the
    default method of [np.quantile]): with [h = p * (N - 1)] and [k] the
    floor of [h], the value [h - k] of the way from the order statistic
    [k] to the next one.  This is said without the helpers of the code. *)
Definition linear_quantile (sorted : list Q) (p : Q) : Q :=
  let last := (Z.of_nat (List.length sorted) - 1)%Z in
  let h := p * inject_Z last in
  let k := Qfloor h in
  let lo := nth (Z.to_nat k) sorted 0 in
  let hi := nth (Z.to_nat (Z.min (k + 1) last)) sorted 0 in
  lo + (h - inject_Z k) * (hi - lo).

End GridVocabulary.

(** The deviance a GPS fitter returned, in lowest terms. *)
Definition returned_deviance (r : result (GpsFunction * Q)) : option Q :=
  match r with
  | Ok (_, d) => Some (Qred d)
  | Raise _ => None
  end.

(** Whether a call returned, rather than raised. *)
Definition returned {A} (r : result A) : bool :=
  match r with
  | Ok _ => true
  | Raise _ => false
  end.

(** Whether an attribute has been assigned. *)
Definition assigned {A} (attr : option A) : bool :=
  match attr with
  | Some _ => true
  | None => false
  end.

Section Vocabulary.
Context {E : Externals}.

(** What a successful validation has checked. *)
Record valid_params (self : CDRC) : Prop := {
  vp_family : gps_family self = PyNone \/
              exists s, gps_family self = PyStr s /\
                        str_in s ["normal"; "lognormal"; "gamma"] = true;
  vp_grid : isinstance_int (treatment_grid_num self) = true /\
            10 <= int_value (treatment_grid_num self) < 1000;
  vp_order : isinstance_int (spline_order self) = true /\
             1 <= int_value (spline_order self) < 30;
  vp_splines : isinstance_int (n_splines self) = true /\
               2 <= int_value (n_splines self) < 100;
  vp_lambda : lambda_ self = PyNaN \/
              exists q, lambda_ self = PyFloat q /\ (0 < q < 1000)%Q;
  vp_iter : isinstance_int (max_iter self) = true /\
            10 < int_value (max_iter self) < 1000000;
  vp_verbose : exists b, verbose self = PyBool b
}.

(** A method body that leaves the instance as it found it. *)
Definition read_only {A} (m : M A) : Prop :=
  forall self, fst (m self) = self.

Definition keeps {A B} (attr : CDRC -> A) (m : M B) : Prop :=
  forall self, attr (fst (m self)) = attr self.

(** The instance with [max_iter] forgotten. *)
Definition forget_max_iter (self : CDRC) : CDRC :=
  {| gps_family := gps_family self;
     treatment_grid_num := treatment_grid_num self;
     spline_order := spline_order self; n_splines := n_splines self;
     lambda_ := lambda_ self; max_iter := PyNone; verbose := verbose self;
     T := T self; X := X self; y := y self; grid_values := grid_values self;
     best_gps_family := best_gps_family self;
     gps_function := gps_function self; gps_deviance := gps_deviance self;
     gps := gps self; gam_results := gam_results self;
     _gam_summary_str := _gam_summary_str self;
     gps_at_grid := gps_at_grid self; _cdrc_preds := _cdrc_preds self |}.

(** The instance with [_cdrc_preds] forgotten. *)
Definition forget_cdrc_preds (self : CDRC) : CDRC :=
  {| gps_family := gps_family self;
     treatment_grid_num := treatment_grid_num self;
     spline_order := spline_order self; n_splines := n_splines self;
     lambda_ := lambda_ self; max_iter := max_iter self;
     verbose := verbose self;
     T := T self; X := X self; y := y self; grid_values := grid_values self;
     best_gps_family := best_gps_family self;
     gps_function := gps_function self; gps_deviance := gps_deviance self;
     gps := gps self; gam_results := gam_results self;
     _gam_summary_str := _gam_summary_str self;
     gps_at_grid := gps_at_grid self; _cdrc_preds := None |}.

(** The fit inputs [_validate_fit_data] refuses. *)
Definition non_numeric_column (X_ : DataFrame) : bool :=
  existsb (fun column => negb (is_numeric_dtype (dtype (snd column)))) X_.

Definition refused_fit_data (T_ : Series) (X_ : DataFrame) (y_ : Series)
  : bool :=
  negb (is_float_dtype (dtype T_)) || non_numeric_column X_ ||
  negb (is_float_dtype (dtype y_)).

(** [fit] from the choice of the GPS family on. *)
Definition fit_from_family : M unit :=
  (family <- read gps_family ;;
   assign (set_best_gps_family family) ;;;
   (if Py.eqb family PyNone then
      ' (best, f, d) <- _find_best_gps_model ;;
      assign (set_best_gps_family (PyStr best)) ;;;
      assign (set_gps_function f) ;;;
      assign (set_gps_deviance d)
    else
      best_gps_family_ <- getattr best_gps_family "best_gps_family" ;;
      if Py.eqb best_gps_family_ (PyStr "normal") then
        ' (f, d) <- _create_normal_gps_function ;;
        assign (set_gps_function f) ;;;
        assign (set_gps_deviance d)
      else if Py.eqb best_gps_family_ (PyStr "lognormal") then
        ' (f, d) <- _create_lognormal_gps_function ;;
        assign (set_gps_function f) ;;;
        assign (set_gps_deviance d)
      else if Py.eqb best_gps_family_ (PyStr "gamma") then
        ' (f, d) <- _create_gamma_gps_function ;;
        assign (set_gps_function f) ;;;
        assign (set_gps_deviance d)
      else ret tt))%M.

(** [fit] from the evaluation of the GPS on. *)
Definition fit_from_gps : M unit :=
  (gps_function_ <- getattr gps_function "gps_function" ;;
   T' <- getattr T "T" ;;
   gps_ <- lift (gps_function_ (Np.Vector (values T'))) ;;
   assign (set_gps gps_) ;;;
   gam <- _fit_gam ;;
   assign (set_gam_results gam) ;;;
   assign (set_gam_summary_str (gam_summary gam)) ;;;
   matrix <- _gps_values_at_grid ;;
   assign (set_gps_at_grid matrix))%M.

(** The instance with [lambda_] forgotten. *)
Definition forget_lambda (self : CDRC) : CDRC :=
  {| gps_family := gps_family self;
     treatment_grid_num := treatment_grid_num self;
     spline_order := spline_order self; n_splines := n_splines self;
     lambda_ := PyNone; max_iter := max_iter self; verbose := verbose self;
     T := T self; X := X self; y := y self; grid_values := grid_values self;
     best_gps_family := best_gps_family self;
     gps_function := gps_function self; gps_deviance := gps_deviance self;
     gps := gps self; gam_results := gam_results self;
     _gam_summary_str := _gam_summary_str self;
     gps_at_grid := gps_at_grid self; _cdrc_preds := _cdrc_preds self |}.

(** The instance with everything but the fit inputs [T] and [X]
    forgotten. *)
Definition only_T_and_X (self : CDRC) : CDRC :=
  {| gps_family := PyNone; treatment_grid_num := PyNone;
     spline_order := PyNone; n_splines := PyNone;
     lambda_ := PyNone; max_iter := PyNone; verbose := PyNone;
     T := T self; X := X self; y := None; grid_values := None;
     best_gps_family := None;
     gps_function := None; gps_deviance := None;
     gps := None; gam_results := None;
     _gam_summary_str := None;
     gps_at_grid := None; _cdrc_preds := None |}.

(** The seven parameters of an instance, as a freshly constructed
    instance holds them. *)
Definition params_of (self : CDRC) : CDRC :=
  store_params (gps_family self) (treatment_grid_num self) (spline_order self)
               (n_splines self) (lambda_ self) (max_iter self) (verbose self).

(** An attribute kept or forgotten. *)
Definition keep_if {A} (b : bool) (attr : option A) : option A :=
  if b then attr else None.

(** The instance with the parameters and the first [k] of the attributes
    that [fit] assigns, in the order in which it assigns them; the others,
    and [_cdrc_preds], are forgotten. *)
Definition keep_first (k : nat) (self : CDRC) : CDRC :=
  {| gps_family := gps_family self;
     treatment_grid_num := treatment_grid_num self;
     spline_order := spline_order self; n_splines := n_splines self;
     lambda_ := lambda_ self; max_iter := max_iter self;
     verbose := verbose self;
     T := keep_if (Nat.ltb 0 k) (T self);
     X := keep_if (Nat.ltb 1 k) (X self);
     y := keep_if (Nat.ltb 2 k) (y self);
     grid_values := keep_if (Nat.ltb 3 k) (grid_values self);
     best_gps_family := keep_if (Nat.ltb 4 k) (best_gps_family self);
     gps_function := keep_if (Nat.ltb 5 k) (gps_function self);
     gps_deviance := keep_if (Nat.ltb 6 k) (gps_deviance self);
     gps := keep_if (Nat.ltb 7 k) (gps self);
     gam_results := keep_if (Nat.ltb 8 k) (gam_results self);
     _gam_summary_str := keep_if (Nat.ltb 9 k) (_gam_summary_str self);
     gps_at_grid := keep_if (Nat.ltb 10 k) (gps_at_grid self);
     _cdrc_preds := None |}.

(** A method body carries one erasure to another when, from two instances
    that the first erasure makes equal, it returns the same value or raises
    the same exception, and, when it returns, leaves two instances that the
    second erasure makes equal. *)
Definition carries (e1 e2 : CDRC -> CDRC) {A} (m : M A) : Prop :=
  forall s1 s2, e1 s1 = e1 s2 ->
    snd (m s1) = snd (m s2) /\
    (returned (snd (m s1)) = true -> e2 (fst (m s1)) = e2 (fst (m s2))).

(** The fitter [fit] calls for a family name given to the constructor. *)
Definition family_fitter (name : string) : option (M (GpsFunction * Q)) :=
  if String.eqb name "normal" then Some _create_normal_gps_function
  else if String.eqb name "lognormal" then Some _create_lognormal_gps_function
  else if String.eqb name "gamma" then Some _create_gamma_gps_function
  else None.

(** The GLM that the fitter of a family fits on the data: the lognormal
    family fits the logarithms of the treatment. *)
Definition family_glm (name : string) (T_ : Series) (X_ : DataFrame)
  : result GLMResults :=
  if String.eqb name "normal" then GLM_fit Gaussian (values T_) X_
  else if String.eqb name "lognormal" then
    GLM_fit Gaussian (map np_log (values T_)) X_
  else GLM_fit Gamma_Inverse_Power (values T_) X_.

(** The densities of one treatment value [x] under the fitted GLM [m] of a
    family, one per fitted value. *)
Definition family_density (name : string) (m : GLMResults) (x : Q) : list Q :=
  if String.eqb name "normal" then
    map (fun loc => norm_pdf x loc (np_std (resid_response m)))
        (fittedvalues m)
  else if String.eqb name "lognormal" then
    map (fun loc => norm_pdf (np_log x) loc (np_std (resid_response m)))
        (fittedvalues m)
  else
    map (fun a => gamma_pdf x a (scale m))
        (map (fun mu_ => (mu_ / scale m)%Q) (mu m)).

(** What [fit] has set when it returns. *)
Record fitted (self : CDRC) (T_ : Series) (n : Z) (grid : list Q)
       (matrix : Matrix) (gam : gam_model) : Prop := {
  fitted_sample : values T_ <> [];
  fitted_T : T self = Some T_;
  fitted_num : treatment_grid_num self = PyInt n;
  fitted_grid : grid_values self = Some grid;
  fitted_grid_length : List.length grid = Z.to_nat n;
  fitted_matrix : gps_at_grid self = Some matrix;
  fitted_matrix_length : List.length matrix = Z.to_nat n;
  fitted_matrix_columns :
    Forall (fun col => List.length col = List.length (values T_)) matrix;
  fitted_gam : gam_results self = Some gam
}.

(** The query rows for one grid value [g]: [g] paired with the GPS of every
    observation at that grid value. *)
Definition query_rows (nobs : nat) (g : Q) (col : list Q) : list (Q * Q) :=
  combine (List.repeat g nobs) col.

(** The rounded predictions for one grid index. *)
Definition slab_of (gam : gam_model) (width : value) (rows : list (Q * Q))
  : Slab :=
  {| point := map (fun r => Np.round (gam_predict gam r) 3) rows;
     lower := map (fun r => Np.round (fst (gam_prediction_intervals gam width r)) 3) rows;
     upper := map (fun r => Np.round (snd (gam_prediction_intervals gam width r)) 3) rows |}.

Definition predictions_of (gam : gam_model) (width : value) (nobs : nat)
           (grid : list Q) (matrix : Matrix) (n : Z) : Tensor :=
  map (fun i => slab_of gam width
                  (query_rows nobs (nth i grid 0%Q) (nth i matrix [])))
      (seq 0 (Z.to_nat n)).

Definition row_of (grid : list Q) (preds : Tensor) (i : nat) : TableRow.t :=
  let slab := nth i preds (mkSlab [] [] []) in
  TableRow.mk (nth i grid 0%Q) (Np.mean (point slab)) (Np.mean (lower slab))
         (Np.mean (upper slab)).

Section Erasure.
Variable erase : CDRC -> CDRC.

Definition respects {A} (m : M A) : Prop :=
  forall s1 s2, erase s1 = erase s2 ->
    erase (fst (m s1)) = erase (fst (m s2)) /\ snd (m s1) = snd (m s2).

(** An attribute the erasure keeps. *)
Definition kept {A} (attr : CDRC -> A) : Prop :=
  forall s, attr s = attr (erase s).

(** An assignment that commutes with the erasure. *)
Definition commutes (set : CDRC -> CDRC) : Prop :=
  forall s, erase (set s) = erase (set (erase s)).

End Erasure.

End Vocabulary.

(** * Properties *)

(** ** Running the small steps *)

Lemma raise_if_then {B} (c : bool) (e : exn) (k : result B) :
  (raise_if c e ;;; k)%res = if c then Raise e else k.
Proof. now destruct c. Qed.

Lemma lift_raise_if_then {E : Externals} {B} (c : bool) (e : exn)
      (k : unit -> M B) self :
  bind (lift (raise_if c e)) k self
  = if c then (self, Raise e) else k tt self.
Proof. now destruct c. Qed.

(** ** Constructor validation *)

Section Construction.
Context {E : Externals}.

Ltac step_check H :=
  match type of H with
  | (raise_if ?c ?e ;;; ?k)%res = Ok _ =>
      let Hc := fresh "Hc" in
      rewrite raise_if_then in H; destruct c eqn:Hc; [discriminate H|]
  end.

Lemma validate_init_sound self :
  _validate_init_params self = Ok tt -> valid_params self.
Proof.
  unfold _validate_init_params. intro H.
  do 17 step_check H.
  unfold raise_if in H.
  destruct (negb (isinstance_bool (verbose self))) eqn:Hv; [discriminate|].
  constructor.
  - destruct (gps_family self); try discriminate; auto.
    right. exists s. split; auto.
    apply negb_false_iff in Hc0. exact Hc0.
  - destruct (isinstance_int (treatment_grid_num self)); [|discriminate].
    simpl in *. split; auto. lia.
  - destruct (isinstance_int (spline_order self)); [|discriminate].
    simpl in *. split; auto. lia.
  - destruct (isinstance_int (n_splines self)); [|discriminate].
    simpl in *. split; auto. lia.
  - destruct (lambda_ self) as [| | |q| |positive|]; try discriminate.
    + right. exists q. split; auto. simpl in *. split.
      * apply Qnot_le_lt. intro Hq. apply Qle_bool_iff in Hq. congruence.
      * apply Qnot_le_lt. intro Hq. apply Qle_bool_iff in Hq. congruence.
    + now left.
    + simpl in *. destruct positive; discriminate.
  - destruct (isinstance_int (max_iter self)); [|discriminate].
    simpl in *. split; auto. lia.
  - destruct (verbose self); try discriminate. now exists b.
Qed.

Lemma validate_init_complete self :
  valid_params self -> _validate_init_params self = Ok tt.
Proof.
  intros [Hf [Hg1 Hg2] [Ho1 Ho2] [Hs1 Hs2] Hl [Hi1 Hi2] [b Hb]].
  unfold _validate_init_params.
  assert (Hlam :
    negb (isinstance_float (lambda_ self)) = false /\
    isinstance_float (lambda_ self) && float_le (lambda_ self) 0 = false /\
    isinstance_float (lambda_ self) && float_ge (lambda_ self) 1000 = false).
  { destruct Hl as [-> | [q [-> [Hl2 Hl3]]]]; [auto|]. simpl.
    split; [reflexivity|]. split.
    - destruct (Qle_bool q 0) eqn:Hq; auto.
      apply Qle_bool_iff in Hq. exfalso. apply (Qlt_not_le _ _ Hl2 Hq).
    - destruct (Qle_bool 1000 q) eqn:Hq; auto.
      apply Qle_bool_iff in Hq. exfalso. apply (Qlt_not_le _ _ Hl3 Hq). }
  destruct Hlam as (Hl1 & Hl2 & Hl3).
  assert (Hfam :
    negb (isinstance_str_or_NoneType (gps_family self)) = false /\
    isinstance_str (gps_family self) &&
      negb match gps_family self with
           | PyStr s => str_in s ["normal"; "lognormal"; "gamma"]
           | _ => false
           end = false).
  { destruct Hf as [-> | [s [-> Hs]]]; [auto|].
    rewrite Hs. auto. }
  destruct Hfam as [-> ->].
  rewrite Hg1, Ho1, Hs1, Hi1, Hl1, Hl2, Hl3, Hb.
  replace (int_value (treatment_grid_num self) <? 10) with false
    by (symmetry; apply Z.ltb_ge; lia).
  replace (int_value (treatment_grid_num self) >=? 1000) with false
    by (symmetry; rewrite Z.geb_leb; apply Z.leb_gt; lia).
  replace (int_value (spline_order self) <? 1) with false
    by (symmetry; apply Z.ltb_ge; lia).
  replace (int_value (spline_order self) >=? 30) with false
    by (symmetry; rewrite Z.geb_leb; apply Z.leb_gt; lia).
  replace (int_value (n_splines self) <? 2) with false
    by (symmetry; apply Z.ltb_ge; lia).
  replace (int_value (n_splines self) >=? 100) with false
    by (symmetry; rewrite Z.geb_leb; apply Z.leb_gt; lia).
  replace (int_value (max_iter self) <=? 10) with false
    by (symmetry; apply Z.leb_gt; lia).
  replace (int_value (max_iter self) >=? 1000000) with false
    by (symmetry; rewrite Z.geb_leb; apply Z.leb_gt; lia).
  reflexivity.
Qed.

Lemma init_ok f g so ns l mi v :
  valid_params (store_params f g so ns l mi v) ->
  __init__ f g so ns l mi v = Ok (store_params f g so ns l mi v).
Proof.
  intro H. unfold __init__. now rewrite (validate_init_complete _ H).
Qed.

Lemma init_raises f g so ns l mi v e :
  _validate_init_params (store_params f g so ns l mi v) = Raise e ->
  __init__ f g so ns l mi v = Raise e.
Proof. intro H. unfold __init__. now rewrite H. Qed.

(** Walks through the checks of [_validate_init_params] in order; every
    branch that raises something else than the goal excludes is closed. *)
Ltac walk_checks :=
  unfold __init__, _validate_init_params, store_params;
  cbn [gps_family treatment_grid_num spline_order n_splines lambda_ max_iter
       verbose isinstance_int negb andb int_value];
  repeat (rewrite raise_if_then;
          cbn [isinstance_int negb andb int_value];
          match goal with
          | |- context [if ?c then _ else _] => destruct c
          end;
          try discriminate);
  try (unfold raise_if; cbn [rbind];
       match goal with
       | |- context [if ?c then _ else _] => destruct c
       end; discriminate).

Lemma bool_never_type_error_grid f so ns l mi v b :
  __init__ f (PyBool b) so ns l mi v <> Raise (TypeError "treatment_grid_num").
Proof. walk_checks. Qed.

Lemma bool_never_type_error_order f g ns l mi v b :
  __init__ f g (PyBool b) ns l mi v <> Raise (TypeError "spline_order").
Proof. walk_checks. Qed.

Lemma bool_never_type_error_splines f g so l mi v b :
  __init__ f g so (PyBool b) l mi v <> Raise (TypeError "n_splines").
Proof. walk_checks. Qed.

Lemma bool_never_type_error_iter f g so ns l v b :
  __init__ f g so ns l (PyBool b) v <> Raise (TypeError "max_iter").
Proof. walk_checks. Qed.

Ltac passed_checks H :=
  apply validate_init_complete in H;
  unfold _validate_init_params, store_params in H;
  cbn [gps_family treatment_grid_num spline_order n_splines lambda_ max_iter
       verbose] in H;
  do 17 step_check H;
  unfold raise_if in H;
  match type of H with
  | (if ?c then _ else _) = _ =>
      let Hv := fresh "Hv" in destruct c eqn:Hv; [discriminate H|]
  end.

Ltac replay_checks :=
  unfold __init__, _validate_init_params, store_params;
  cbn [gps_family treatment_grid_num spline_order n_splines lambda_ max_iter
       verbose];
  repeat rewrite raise_if_then;
  repeat match goal with
         | Hc : ?c = false |- context [?c] => rewrite Hc
         end.

(** C10 as the code has it.  A boolean given for one of the integer
    parameters ([treatment_grid_num], [spline_order], [n_splines],
    [max_iter]) passes the [isinstance(., int)] check, so the constructor
    never raises the type error of that parameter.  With the other
    parameters acceptable, [treatment_grid_num], [n_splines] and [max_iter]
    given [True] or [False] raise the value error of their range check, and
    so does [spline_order = False]; [spline_order = True] is the integer 1,
    which is in range: no check rejects it and the instance is
    constructed. *)
Theorem bool_for_int_param_meets_range_check :
  forall (f g so ns l mi v : value) (b : bool),
    isinstance_int (PyBool b) = true /\
    (__init__ f (PyBool b) so ns l mi v <> Raise (TypeError "treatment_grid_num") /\
     __init__ f g (PyBool b) ns l mi v <> Raise (TypeError "spline_order") /\
     __init__ f g so (PyBool b) l mi v <> Raise (TypeError "n_splines") /\
     __init__ f g so ns l (PyBool b) v <> Raise (TypeError "max_iter")) /\
    (valid_params (store_params f g so ns l mi v) ->
     __init__ f (PyBool b) so ns l mi v
       = Raise (ValueError "treatment_grid_num") /\
     __init__ f g (PyBool b) ns l mi v
       = (if b then Ok (store_params f g (PyBool true) ns l mi v)
          else Raise (ValueError "spline_order")) /\
     __init__ f g so (PyBool b) l mi v = Raise (ValueError "n_splines") /\
     __init__ f g so ns l (PyBool b) v = Raise (ValueError "max_iter")).
Proof.
  intros f g so ns l mi v b. split; [reflexivity|]. split.
  - repeat split.
    + apply bool_never_type_error_grid.
    + apply bool_never_type_error_order.
    + apply bool_never_type_error_splines.
    + apply bool_never_type_error_iter.
  - intro H. passed_checks H. repeat split.
    + replay_checks. now destruct b.
    + replay_checks. now destruct b.
    + replay_checks. now destruct b.
    + replay_checks. now destruct b.
Qed.

End Construction.

(** ** What a method body reads and writes *)

Section Frames.
Context {E : Externals}.

Lemma read_only_run {A} (m : M A) :
  read_only m -> forall self, m self = (self, snd (m self)).
Proof.
  intros H self. specialize (H self). destruct (m self); simpl in *. now subst.
Qed.

Lemma read_only_ret {A} (a : A) : read_only (ret a).
Proof. now intro. Qed.

Lemma read_only_lift {A} (r : result A) : read_only (lift r).
Proof. now intro. Qed.

Lemma read_only_read {A} (attr : CDRC -> A) : read_only (read attr).
Proof. now intro. Qed.

Lemma read_only_getattr {A} (attr : CDRC -> option A) name :
  read_only (getattr attr name).
Proof. intro self. unfold getattr. now destruct (attr self). Qed.

Lemma read_only_bind {A B} (m : M A) (k : A -> M B) :
  read_only m -> (forall a, read_only (k a)) -> read_only (bind m k).
Proof.
  intros Hm Hk self. unfold bind. rewrite (read_only_run m Hm self).
  destruct (snd (m self)); [apply Hk | reflexivity].
Qed.

Lemma read_only_for_each {A B} (xs : list A) (body : A -> M B) :
  (forall x, read_only (body x)) -> read_only (for_each xs body).
Proof.
  intro Hb. induction xs as [|x xs IH]; simpl.
  - apply read_only_ret.
  - apply read_only_bind; [apply Hb|]. intro b.
    apply read_only_bind; [apply IH|]. intro bs. apply read_only_ret.
Qed.

(** Two instances that an erasure maps to the same instance agree on
    everything but what the erasure forgets.  A method body respects the
    erasure when, from two such instances, it returns the same value or
    raises the same exception, and leaves two such instances. *)
Section Erasure.
Variable erase : CDRC -> CDRC.

Lemma respects_ret {A} (a : A) : respects erase (ret a).
Proof. intros s1 s2 H. now split. Qed.

Lemma respects_lift {A} (r : result A) : respects erase (lift r).
Proof. intros s1 s2 H. now split. Qed.

Lemma respects_read {A} (attr : CDRC -> A) :
  kept erase attr -> respects erase (read attr).
Proof.
  intros Hk s1 s2 H. split; [exact H|]. simpl.
  now rewrite (Hk s1), (Hk s2), H.
Qed.

Lemma respects_getattr {A} (attr : CDRC -> option A) name :
  kept erase attr -> respects erase (getattr attr name).
Proof.
  intros Hk s1 s2 H. unfold getattr.
  rewrite (Hk s1), (Hk s2), H. now destruct (attr (erase s2)).
Qed.

Lemma respects_assign (set : CDRC -> CDRC) :
  commutes erase set -> respects erase (assign set).
Proof.
  intros Hc s1 s2 H. split; [|reflexivity]. simpl.
  now rewrite (Hc s1), (Hc s2), H.
Qed.

Lemma respects_bind {A B} (m : M A) (k : A -> M B) :
  respects erase m -> (forall a, respects erase (k a)) -> respects erase (bind m k).
Proof.
  intros Hm Hk s1 s2 H. unfold bind.
  destruct (Hm s1 s2 H) as [Hs Hr].
  destruct (m s1) as [s1' r1], (m s2) as [s2' r2]. simpl in *. subst r2.
  destruct r1; [now apply Hk | now split].
Qed.

Lemma respects_for_each {A B} (xs : list A) (body : A -> M B) :
  (forall x, respects erase (body x)) -> respects erase (for_each xs body).
Proof.
  intro Hb. induction xs as [|x xs IH]; simpl.
  - apply respects_ret.
  - apply respects_bind; [apply Hb|]. intro b.
    apply respects_bind; [apply IH|]. intro bs. apply respects_ret.
Qed.

End Erasure.

End Frames.

(** Decomposes a method body into its steps; what is left are the attributes
    read and the assignments made, each settled by computation. *)
Ltac read_only_steps :=
  repeat first
    [ apply read_only_ret | apply read_only_lift | apply read_only_read
    | apply read_only_getattr
    | apply read_only_for_each; intro
    | apply read_only_bind; [|intro]
    | match goal with
      | |- read_only (match ?x with _ => _ end) => destruct x
      | |- read_only (if ?c then _ else _) => destruct c
      | |- read_only (let _ := _ in _) => cbv zeta
      end ].

Ltac respects_steps :=
  repeat first
    [ apply respects_ret | apply respects_lift
    | apply respects_read; intro; reflexivity
    | apply respects_getattr; intro; reflexivity
    | apply respects_assign; intro; reflexivity
    | apply respects_for_each; intro
    | apply respects_bind; [|intro]
    | match goal with
      | |- respects _ (match ?x with _ => _ end) => destruct x
      | |- respects _ (if ?c then _ else _) => destruct c
      | |- respects _ (let _ := _ in _) => cbv zeta
      end ].

Section MethodFrames.
Context {E : Externals}.

Lemma validate_fit_data_read_only : read_only _validate_fit_data.
Proof. unfold _validate_fit_data. read_only_steps. Qed.

Lemma grid_values_read_only : read_only _grid_values.
Proof. unfold _grid_values. read_only_steps. Qed.

Lemma create_normal_read_only : read_only _create_normal_gps_function.
Proof. unfold _create_normal_gps_function. read_only_steps. Qed.

Lemma create_lognormal_read_only : read_only _create_lognormal_gps_function.
Proof. unfold _create_lognormal_gps_function. read_only_steps. Qed.

Lemma create_gamma_read_only : read_only _create_gamma_gps_function.
Proof. unfold _create_gamma_gps_function. read_only_steps. Qed.

Lemma find_best_read_only : read_only _find_best_gps_model.
Proof.
  unfold _find_best_gps_model.
  apply read_only_bind; [apply create_normal_read_only | intro].
  apply read_only_bind; [apply create_lognormal_read_only | intro].
  apply read_only_bind; [apply create_gamma_read_only | intro].
  read_only_steps.
Qed.

Lemma fit_gam_read_only : read_only _fit_gam.
Proof. unfold _fit_gam. read_only_steps. Qed.

Lemma gps_values_at_grid_read_only : read_only _gps_values_at_grid.
Proof. unfold _gps_values_at_grid. read_only_steps. Qed.

Lemma validate_ci_read_only ci : read_only (_validate_calculate_CDRC_params ci).
Proof. unfold _validate_calculate_CDRC_params. read_only_steps. Qed.

Lemma cdrc_predictions_read_only ci : read_only (_cdrc_predictions ci).
Proof. unfold _cdrc_predictions. read_only_steps. Qed.

Lemma fit_respects_max_iter T_ X_ y_ :
  respects forget_max_iter (fit T_ X_ y_).
Proof.
  unfold fit, _validate_fit_data, _grid_values, _find_best_gps_model,
    _create_normal_gps_function, _create_lognormal_gps_function,
    _create_gamma_gps_function, _fit_gam, _gps_values_at_grid.
  respects_steps.
Qed.

Lemma cdrc_predictions_respects_preds ci :
  respects forget_cdrc_preds (_cdrc_predictions ci).
Proof. unfold _cdrc_predictions. respects_steps. Qed.

Lemma calculate_CDRC_respects_max_iter ci :
  respects forget_max_iter (calculate_CDRC ci).
Proof.
  unfold calculate_CDRC, _validate_calculate_CDRC_params, _cdrc_predictions,
    results_table.
  respects_steps.
Qed.

End MethodFrames.

(** ** Running a method step by step *)

Section Execution.
Context {E : Externals}.

Lemma bind_assign {B} (set : CDRC -> CDRC) (k : unit -> M B) self :
  bind (assign set) k self = k tt (set self).
Proof. reflexivity. Qed.

Lemma bind_read_only {A B} (m : M A) (k : A -> M B) self :
  read_only m ->
  bind m k self = match snd (m self) with
                  | Ok a => k a self
                  | Raise e => (self, Raise e)
                  end.
Proof. intro H. unfold bind. now rewrite (read_only_run m H self). Qed.

Lemma bind_assoc {A B C} (m : M A) (k1 : A -> M B) (k2 : B -> M C) self :
  bind (bind m k1) k2 self = bind m (fun a => bind (k1 a) k2) self.
Proof.
  unfold bind. destruct (m self) as [s r]. now destruct r.
Qed.

Lemma bind_ret {A B} (a : A) (k : A -> M B) self :
  bind (ret a) k self = k a self.
Proof. reflexivity. Qed.

(** [for_each] with a body that only reads: it succeeds exactly when every
    round does, with the values of the rounds in order. *)
Lemma for_each_read_only_ok {A B} (xs : list A) (body : A -> M B) self :
  (forall x, read_only (body x)) ->
  forall bs,
    snd (for_each xs body self) = Ok bs <->
    Forall2 (fun x b => snd (body x self) = Ok b) xs bs.
Proof.
  intro Hro. induction xs as [|x xs IH]; intro bs; simpl.
  - split.
    + intro H. injection H as <-. constructor.
    + intro H. inversion H. reflexivity.
  - rewrite bind_read_only by apply Hro.
    destruct (snd (body x self)) as [b|e] eqn:Hb.
    + rewrite bind_read_only by (apply read_only_for_each, Hro).
      destruct (snd (for_each xs body self)) as [bs'|e] eqn:Hbs.
      * simpl. split.
        -- intro H. injection H as <-. constructor; [exact Hb|].
           now apply IH.
        -- intro H. inversion H as [|x0 b0 xs0 bs0 Hhd Htl]; subst.
           assert (b0 = b) by congruence. subst b0.
           apply IH in Htl. injection Htl as ->. reflexivity.
      * simpl. split; [discriminate|].
        intro H. inversion H as [|x0 b0 xs0 bs0 Hhd Htl]; subst.
        apply IH in Htl. discriminate.
    + simpl. split; [discriminate|].
      intro H. inversion H as [|x0 b0 xs0 bs0 Hhd Htl]; subst. congruence.
Qed.

Lemma for_each_read_only_map {A B} (xs : list A) (body : A -> M B)
      (f : A -> B) self :
  (forall x, read_only (body x)) ->
  (forall x, In x xs -> snd (body x self) = Ok (f x)) ->
  snd (for_each xs body self) = Ok (map f xs).
Proof.
  intros Hro H. apply for_each_read_only_ok; [exact Hro|].
  induction xs as [|x xs IH]; simpl; constructor.
  - apply H. now left.
  - apply IH. intros x' Hx'. apply H. now right.
Qed.

End Execution.

(** ** [calculate_CDRC]: validation, stored predictions, repeated calls *)

Section Curve.
Context {E : Externals}.

Lemma results_table_read_only : read_only results_table.
Proof. unfold results_table. read_only_steps. Qed.

Lemma validate_ci_eval ci self :
  _validate_calculate_CDRC_params ci self =
  (self,
   if negb (isinstance_float ci) then Raise (TypeError "ci")
   else if isinstance_float ci && (float_le ci 0 || float_ge ci 1)
        then Raise (ValueError "ci")
        else Ok tt).
Proof.
  unfold _validate_calculate_CDRC_params.
  rewrite lift_raise_if_then.
  destruct (negb (isinstance_float ci)); [reflexivity|].
  unfold lift, raise_if.
  now destruct (isinstance_float ci && _).
Qed.

(** The steps of [calculate_CDRC], one after the other. *)
Lemma calculate_CDRC_run ci self :
  calculate_CDRC ci self =
  match snd (_validate_calculate_CDRC_params ci self) with
  | Raise e => (self, Raise e)
  | Ok _ =>
      match snd (_cdrc_predictions ci self) with
      | Raise e => (self, Raise e)
      | Ok preds =>
          (set_cdrc_preds preds self,
           snd (results_table (set_cdrc_preds preds self)))
      end
  end.
Proof.
  unfold calculate_CDRC.
  rewrite bind_read_only by apply validate_ci_read_only.
  destruct (snd (_validate_calculate_CDRC_params ci self)); [|reflexivity].
  rewrite bind_read_only by apply cdrc_predictions_read_only.
  destruct (snd (_cdrc_predictions ci self)) as [preds|e]; [|reflexivity].
  rewrite bind_assign.
  apply (read_only_run _ results_table_read_only).
Qed.

Lemma validate_ci_passes q self :
  (0 < q < 1)%Q ->
  _validate_calculate_CDRC_params (PyFloat q) self = (self, Ok tt).
Proof.
  intros [H0 H1]. rewrite validate_ci_eval. simpl.
  assert (Hb : Qle_bool q 0 || Qle_bool 1 q = false).
  { apply orb_false_iff. split.
    - destruct (Qle_bool q 0) eqn:Hq; auto. apply Qle_bool_iff in Hq.
      exfalso. apply (Qlt_not_le _ _ H0 Hq).
    - destruct (Qle_bool 1 q) eqn:Hq; auto. apply Qle_bool_iff in Hq.
      exfalso. apply (Qlt_not_le _ _ H1 Hq). }
  now rewrite Hb.
Qed.


(** What a call of [calculate_CDRC] that returns has done: the predictions
    were computed from the instance as it was, stored as [_cdrc_preds], and
    the table was read off the instance with them stored. *)
Lemma calculate_CDRC_returns ci self self' table :
  calculate_CDRC ci self = (self', Ok table) ->
  exists preds,
    snd (_cdrc_predictions ci self) = Ok preds /\
    self' = set_cdrc_preds preds self /\
    snd (results_table self') = Ok table.
Proof.
  rewrite calculate_CDRC_run. intro H.
  destruct (snd (_validate_calculate_CDRC_params ci self)); [|discriminate].
  destruct (snd (_cdrc_predictions ci self)) as [preds|e]; [|discriminate].
  injection H as <- <-. now exists preds.
Qed.

(** C5 as the code has it.  When [calculate_CDRC(ci)] returns, the
    predictions tensor it derived is stored on the instance as the attribute
    [_cdrc_preds] and is still there after the call; every other attribute
    is as before. *)
Theorem calculate_CDRC_stores_predictions :
  forall (self self' : CDRC) (ci : value) (table : list TableRow.t),
    calculate_CDRC ci self = (self', Ok table) ->
    exists preds,
      snd (_cdrc_predictions ci self) = Ok preds /\
      _cdrc_preds self' = Some preds /\
      forget_cdrc_preds self' = forget_cdrc_preds self.
Proof.
  intros self self' ci table H.
  destruct (calculate_CDRC_returns _ _ _ _ H) as [preds [Hp [-> _]]].
  exists preds. repeat split; auto.
Qed.

(** C9.  A second call of [calculate_CDRC] with the same [ci], on the
    instance as the first call left it, returns the same table (and leaves
    the instance as the first call left it). *)
Theorem calculate_CDRC_twice :
  forall (self self' : CDRC) (ci : value) (table : list TableRow.t),
    calculate_CDRC ci self = (self', Ok table) ->
    calculate_CDRC ci self' = (self', Ok table).
Proof.
  intros self self' ci table H.
  pose proof H as H0. rewrite calculate_CDRC_run in H0.
  destruct (calculate_CDRC_returns _ _ _ _ H) as [preds [Hp [-> Ht]]].
  rewrite calculate_CDRC_run.
  rewrite validate_ci_eval in *. simpl snd in *.
  destruct (if negb (isinstance_float ci) then _ else _); [|discriminate].
  assert (Hp' : snd (_cdrc_predictions ci (set_cdrc_preds preds self))
                = Ok preds).
  { rewrite <- Hp. symmetry.
    apply (cdrc_predictions_respects_preds ci self (set_cdrc_preds preds self)).
    reflexivity. }
  rewrite Hp'.
  change (set_cdrc_preds preds (set_cdrc_preds preds self))
    with (set_cdrc_preds preds self).
  now rewrite Ht.
Qed.

End Curve.

(** ** [fit]: the part played by [max_iter], and failed validation *)

Section Fit.
Context {E : Externals}.

(** C6.  Two instances constructed with the same arguments except for two
    acceptable [max_iter] values, fitted on the same data, end the same way
    (both return or both raise the same exception), hold the same outcome
    model and agree on every attribute but [max_iter] itself; the outcome
    model is always fitted with the iteration cap 500; and
    [calculate_CDRC] gives the same outcome on two instances that differ
    only in [max_iter]. *)
Theorem fit_ignores_max_iter :
  forall (f g so ns l v mi1 mi2 : value) (self1 self2 : CDRC)
         (T_ : Series) (X_ : DataFrame) (y_ : Series),
    __init__ f g so ns l mi1 v = Ok self1 ->
    __init__ f g so ns l mi2 v = Ok self2 ->
    snd (fit T_ X_ y_ self1) = snd (fit T_ X_ y_ self2) /\
    gam_results (fst (fit T_ X_ y_ self1))
      = gam_results (fst (fit T_ X_ y_ self2)) /\
    forget_max_iter (fst (fit T_ X_ y_ self1))
      = forget_max_iter (fst (fit T_ X_ y_ self2)) /\
    (forall (self : CDRC) (T' : Series) (gps' : list Q) (y' : Series),
        T self = Some T' -> gps self = Some gps' -> y self = Some y' ->
        snd (_fit_gam self)
        = (X' <- Np.column_stack (values T') gps' ;;
           LinearGAM_fit (n_splines self) (spline_order self) 500 X'
                         (values y'))%res) /\
    (forall (ci : value) (s1 s2 : CDRC),
        forget_max_iter s1 = forget_max_iter s2 ->
        snd (calculate_CDRC ci s1) = snd (calculate_CDRC ci s2)).
Proof.
  intros f g so ns l v mi1 mi2 self1 self2 T_ X_ y_ H1 H2.
  unfold __init__ in H1, H2.
  destruct (_validate_init_params (store_params f g so ns l mi1 v));
    [|discriminate].
  destruct (_validate_init_params (store_params f g so ns l mi2 v));
    [|discriminate].
  injection H1 as <-. injection H2 as <-.
  destruct (fit_respects_max_iter T_ X_ y_
              (store_params f g so ns l mi1 v)
              (store_params f g so ns l mi2 v) eq_refl) as [Hs Hr].
  repeat split.
  - exact Hr.
  - change (gam_results (forget_max_iter
              (fst (fit T_ X_ y_ (store_params f g so ns l mi1 v))))
            = gam_results (forget_max_iter
              (fst (fit T_ X_ y_ (store_params f g so ns l mi2 v))))).
    now rewrite Hs.
  - exact Hs.
  - intros self T' gps' y' HT Hg Hy.
    unfold _fit_gam, bind, getattr, lift, read.
    rewrite HT, Hg, Hy.
    now destruct (Np.column_stack (values T') gps').
  - intros ci s1 s2 Hs12.
    apply (calculate_CDRC_respects_max_iter ci s1 s2 Hs12).
Qed.

Lemma check_columns (X_ : DataFrame) self :
  snd (for_each X_ (fun column =>
         lift (raise_if (negb (is_numeric_dtype (dtype (snd column))))
                        (TypeError "X"))) self)
  = if non_numeric_column X_ then Raise (TypeError "X")
    else Ok (map (fun _ => tt) X_).
Proof.
  induction X_ as [|c X_ IH]; [reflexivity|].
  simpl for_each. rewrite lift_raise_if_then.
  unfold non_numeric_column in *. simpl existsb.
  destruct (negb (is_numeric_dtype (dtype (snd c)))); [reflexivity|].
  simpl orb.
  rewrite bind_read_only by (apply read_only_for_each; intro; apply read_only_lift).
  rewrite IH.
  now destruct (existsb _ X_).
Qed.

Lemma validate_fit_data_eval self T_ X_ y_ :
  T self = Some T_ -> X self = Some X_ -> y self = Some y_ ->
  _validate_fit_data self =
  (self,
   if negb (is_float_dtype (dtype T_)) then Raise (TypeError "T")
   else if non_numeric_column X_ then Raise (TypeError "X")
   else if negb (is_float_dtype (dtype y_)) then Raise (TypeError "y")
   else Ok tt).
Proof.
  intros HT HX Hy.
  rewrite (read_only_run _ validate_fit_data_read_only). f_equal.
  unfold _validate_fit_data.
  unfold bind at 1. unfold getattr at 1. rewrite HT.
  rewrite lift_raise_if_then.
  destruct (negb (is_float_dtype (dtype T_))); [reflexivity|].
  unfold bind at 1. unfold getattr at 1. rewrite HX.
  rewrite bind_read_only by (apply read_only_for_each; intro; apply read_only_lift).
  rewrite check_columns.
  destruct (non_numeric_column X_); [reflexivity|].
  unfold bind at 1. unfold getattr at 1. rewrite Hy.
  unfold lift, raise_if.
  now destruct (negb (is_float_dtype (dtype y_))).
Qed.

(** C8 as the code has it.  When [T] or [y] is not of a float dtype or some
    column of [X] is not numeric, [fit] raises a type error about the first
    such input right after assigning the three inputs: no fitting routine is
    called (the outcome does not depend on the numerical libraries), the
    instance has [T], [X] and [y] assigned, and every derived attribute is
    exactly what it was before the call: unset on an instance that was
    constructed and never fitted. *)
Theorem fit_refused_data_frame :
  forall (self : CDRC) (T_ : Series) (X_ : DataFrame) (y_ : Series),
    refused_fit_data T_ X_ y_ = true ->
    exists what,
      In what ["T"; "X"; "y"] /\
      fit T_ X_ y_ self
        = (set_y y_ (set_X X_ (set_T T_ self)), Raise (TypeError what)) /\
      (let self' := fst (fit T_ X_ y_ self) in
       T self' = Some T_ /\ X self' = Some X_ /\ y self' = Some y_ /\
       grid_values self' = grid_values self /\
       gps_function self' = gps_function self /\
       gps self' = gps self /\
       gps_at_grid self' = gps_at_grid self /\
       gam_results self' = gam_results self) /\
      (forall f g so ns l mi v, self = store_params f g so ns l mi v ->
       let self' := fst (fit T_ X_ y_ self) in
       grid_values self' = None /\ gps_function self' = None /\
       gps self' = None /\ gps_at_grid self' = None /\
       gam_results self' = None).
Proof.
  intros self T_ X_ y_ Hbad.
  assert (Hrun : exists what, In what ["T"; "X"; "y"] /\
    fit T_ X_ y_ self
    = (set_y y_ (set_X X_ (set_T T_ self)), Raise (TypeError what))).
  { unfold fit. rewrite !bind_assign.
    rewrite bind_read_only by apply validate_fit_data_read_only.
    rewrite (validate_fit_data_eval _ T_ X_ y_) by reflexivity.
    unfold refused_fit_data in Hbad. simpl snd.
    destruct (negb (is_float_dtype (dtype T_))).
    - exists "T". simpl. auto.
    - destruct (non_numeric_column X_).
      + exists "X". simpl. auto.
      + destruct (negb (is_float_dtype (dtype y_))); [|discriminate].
        exists "y". simpl. auto. }
  destruct Hrun as [what [Hin Hrun]].
  exists what. split; [exact Hin|]. split; [exact Hrun|].
  rewrite Hrun. split.
  - repeat split.
  - intros f g so ns l mi v ->. repeat split.
Qed.

End Fit.

(** ** Choosing the GPS family *)

Section Selection.
Context {E : Externals}.

Lemma Qlt_bool_iff x y : Qlt_bool x y = true <-> (x < y)%Q.
Proof.
  unfold Qlt_bool. rewrite negb_true_iff. split.
  - intro H. apply Qnot_le_lt. intro Hle. apply Qle_bool_iff in Hle.
    congruence.
  - intro H. destruct (Qle_bool y x) eqn:Hle; auto.
    apply Qle_bool_iff in Hle. exfalso. apply (Qlt_not_le _ _ H Hle).
Qed.

Lemma Qlt_bool_false_iff x y : Qlt_bool x y = false <-> (y <= x)%Q.
Proof.
  unfold Qlt_bool. rewrite negb_false_iff. apply Qle_bool_iff.
Qed.

(** The three fitters run one after the other, whatever the first ones
    returned; the name returned is the key of the dict entry with the lowest
    deviance, the earlier entry on a tie. *)
Lemma find_best_gps_model_selects self fn dn fl dl fg dg :
  snd (_create_normal_gps_function self) = Ok (fn, dn) ->
  snd (_create_lognormal_gps_function self) = Ok (fl, dl) ->
  snd (_create_gamma_gps_function self) = Ok (fg, dg) ->
  snd (_find_best_gps_model self)
  = Ok (if Qlt_bool dl dn
        then if Qlt_bool dg dl then ("gamma_gps_model", fg, dg)
             else ("lognormal_gps_model", fl, dl)
        else if Qlt_bool dg dn then ("gamma_gps_model", fg, dg)
             else ("normal_gps_model", fn, dn)).
Proof.
  intros Hn Hl Hg. unfold _find_best_gps_model.
  rewrite bind_read_only by apply create_normal_read_only. rewrite Hn.
  rewrite bind_read_only by apply create_lognormal_read_only. rewrite Hl.
  rewrite bind_read_only by apply create_gamma_read_only. rewrite Hg.
  cbv zeta. unfold py_min. cbn [map fst snd min_from dict_get String.eqb
    Ascii.eqb Bool.eqb bind lift].
  destruct (Qlt_bool dl dn); cbn [dict_get String.eqb Ascii.eqb Bool.eqb];
    destruct (Qlt_bool dg _); reflexivity.
Qed.

Lemma find_best_gps_model_minimum self fn dn fl dl fg dg name f d :
  snd (_create_normal_gps_function self) = Ok (fn, dn) ->
  snd (_create_lognormal_gps_function self) = Ok (fl, dl) ->
  snd (_create_gamma_gps_function self) = Ok (fg, dg) ->
  snd (_find_best_gps_model self) = Ok (name, f, d) ->
  (d <= dn /\ d <= dl /\ d <= dg)%Q /\
  (name = "normal_gps_model" /\ f = fn /\ d = dn \/
   name = "lognormal_gps_model" /\ f = fl /\ d = dl /\ (dl < dn)%Q \/
   name = "gamma_gps_model" /\ f = fg /\ d = dg /\ (dg < dn)%Q /\ (dg < dl)%Q).
Proof.
  intros Hn Hl Hg H.
  rewrite (find_best_gps_model_selects _ _ _ _ _ _ _ Hn Hl Hg) in H.
  destruct (Qlt_bool dl dn) eqn:H1.
  - apply Qlt_bool_iff in H1. destruct (Qlt_bool dg dl) eqn:H2.
    + apply Qlt_bool_iff in H2. injection H as <- <- <-.
      assert (dg < dn)%Q by (eapply Qlt_trans; eauto).
      split; [|right; right; auto].
      repeat split; auto using Qlt_le_weak, Qle_refl.
    + apply Qlt_bool_false_iff in H2. injection H as <- <- <-.
      split; [|right; left; auto].
      repeat split; auto using Qlt_le_weak, Qle_refl.
  - apply Qlt_bool_false_iff in H1. destruct (Qlt_bool dg dn) eqn:H2.
    + apply Qlt_bool_iff in H2. injection H as <- <- <-.
      assert (dg < dl)%Q by (eapply Qlt_le_trans; eauto).
      split; [|right; right; auto].
      repeat split; auto using Qlt_le_weak, Qle_refl.
    + apply Qlt_bool_false_iff in H2. injection H as <- <- <-.
      split; [|left; auto].
      repeat split; auto using Qle_refl.
Qed.

(** A fitter that raises makes the selection raise, also when the fitters
    before it returned. *)
Lemma find_best_gps_model_runs_all self :
  (forall e, snd (_create_normal_gps_function self) = Raise e ->
             snd (_find_best_gps_model self) = Raise e) /\
  (forall r e, snd (_create_normal_gps_function self) = Ok r ->
               snd (_create_lognormal_gps_function self) = Raise e ->
               snd (_find_best_gps_model self) = Raise e) /\
  (forall r r' e, snd (_create_normal_gps_function self) = Ok r ->
                  snd (_create_lognormal_gps_function self) = Ok r' ->
                  snd (_create_gamma_gps_function self) = Raise e ->
                  snd (_find_best_gps_model self) = Raise e).
Proof.
  unfold _find_best_gps_model. repeat split.
  - intros e Hn.
    rewrite bind_read_only by apply create_normal_read_only. now rewrite Hn.
  - intros r e Hn Hl.
    rewrite bind_read_only by apply create_normal_read_only. rewrite Hn.
    rewrite bind_read_only by apply create_lognormal_read_only. now rewrite Hl.
  - intros r r' e Hn Hl Hg.
    rewrite bind_read_only by apply create_normal_read_only. rewrite Hn.
    rewrite bind_read_only by apply create_lognormal_read_only. rewrite Hl.
    rewrite bind_read_only by apply create_gamma_read_only. now rewrite Hg.
Qed.

End Selection.

(** ** The treatment grid *)

Section Grid.
Open Scope Q_scope.

(** *** Sorting *)

Lemma insert_perm x l : Permutation (x :: l) (Np.insert x l).
Proof.
  induction l as [|h t IH]; simpl; [reflexivity|].
  destruct (Qle_bool x h); [reflexivity|].
  rewrite perm_swap. now constructor.
Qed.

Lemma sort_perm l : Permutation l (Np.sort l).
Proof.
  induction l as [|h t IH]; simpl; [constructor|].
  rewrite <- insert_perm. now constructor.
Qed.

Lemma insert_sorted x l :
  StronglySorted Qle l -> StronglySorted Qle (Np.insert x l).
Proof.
  induction 1 as [|h t Ht IH Hh]; simpl.
  - repeat constructor.
  - destruct (Qle_bool x h) eqn:Hx.
    + apply Qle_bool_iff in Hx. constructor.
      * now constructor.
      * constructor; [exact Hx|].
        eapply Forall_impl; [|exact Hh]. intros a Ha. now apply Qle_trans with h.
    + constructor; [exact IH|].
      assert (Hhx : h <= x).
      { apply Qlt_le_weak, Qnot_le_lt. intro Hle.
        apply Qle_bool_iff in Hle. congruence. }
      apply (Permutation_Forall (insert_perm x t)). now constructor.
Qed.

Lemma sort_sorted l : StronglySorted Qle (Np.sort l).
Proof.
  induction l as [|h t IH]; simpl; [constructor|]. now apply insert_sorted.
Qed.

Lemma sort_length l : List.length (Np.sort l) = List.length l.
Proof. symmetry. apply Permutation_length, sort_perm. Qed.

Lemma sorted_nth_le l :
  StronglySorted Qle l ->
  forall i j, (i <= j < List.length l)%nat -> nth i l 0 <= nth j l 0.
Proof.
  induction 1 as [|h t Ht IH Hh]; intros i j [Hij Hj]; simpl in Hj; [lia|].
  destruct j as [|j].
  - replace i with 0%nat by lia. apply Qle_refl.
  - destruct i as [|i]; simpl.
    + rewrite Forall_forall in Hh. apply Hh, nth_In. lia.
    + apply IH. lia.
Qed.

(** *** Interpolation between order statistics *)

Lemma quantile_sorted_interpolate ap q :
  Np.quantile_sorted ap q
  = interpolate ap (q * inject_Z (Z.of_nat (List.length ap) - 1)).
Proof. reflexivity. Qed.

Lemma floor_bounds v (hi : Z) :
  0 <= v -> v <= inject_Z hi -> (0 <= Qfloor v <= hi)%Z.
Proof.
  intros H0 H1. split.
  - change 0%Z with (Qfloor 0). now apply Qfloor_resp_le.
  - rewrite <- (Qfloor_Z hi). now apply Qfloor_resp_le.
Qed.

Lemma frac_bounds v : 0 <= v - inject_Z (Qfloor v) /\ v - inject_Z (Qfloor v) <= 1.
Proof.
  pose proof (Qfloor_le v) as H1. pose proof (Qlt_floor v) as H2.
  rewrite inject_Z_plus in H2. change (inject_Z 1) with 1 in H2.
  split; lra.
Qed.

Lemma interpolate_between ap v :
  StronglySorted Qle ap -> ap <> [] ->
  0 <= v -> v <= inject_Z (Z.of_nat (List.length ap) - 1) ->
  nth (Z.to_nat (Qfloor v)) ap 0 <= interpolate ap v /\
  interpolate ap v
    <= nth (Z.to_nat (Z.min (Qfloor v + 1) (Z.of_nat (List.length ap) - 1))) ap 0.
Proof.
  intros Hs Hne H0 H1.
  assert (Hlen : (0 < List.length ap)%nat) by (destruct ap; simpl; [congruence | lia]).
  destruct (floor_bounds v _ H0 H1) as [Hf0 Hf1].
  unfold interpolate, Np.lerp.
  set (below := Qfloor v) in *.
  set (Nx := Z.of_nat (List.length ap)) in *.
  assert (Habove : (if (Nx - 1 <? below + 1)%Z then (Nx - 1)%Z else (below + 1)%Z)
                   = Z.min (below + 1) (Nx - 1)).
  { destruct (Z.ltb_spec (Nx - 1) (below + 1)); lia. }
  rewrite Habove.
  set (above := Z.min (below + 1) (Nx - 1)).
  assert (Hle : nth (Z.to_nat below) ap 0 <= nth (Z.to_nat above) ap 0).
  { apply sorted_nth_le; [exact Hs|]. unfold above, Nx in *. lia. }
  destruct (frac_bounds v) as [Hw0 Hw1]. fold below in Hw0, Hw1.
  split; nra.
Qed.

Lemma interpolate_mono ap v1 v2 :
  StronglySorted Qle ap -> ap <> [] ->
  0 <= v1 -> v1 <= v2 -> v2 <= inject_Z (Z.of_nat (List.length ap) - 1) ->
  interpolate ap v1 <= interpolate ap v2.
Proof.
  intros Hs Hne H0 H12 H2.
  assert (Hlen : (0 < List.length ap)%nat) by (destruct ap; simpl; [congruence | lia]).
  assert (H1 : v1 <= inject_Z (Z.of_nat (List.length ap) - 1)) by lra.
  assert (H0' : 0 <= v2) by lra.
  destruct (floor_bounds v1 _ H0 H1) as [Hf1 Hf1'].
  destruct (floor_bounds v2 _ H0' H2) as [Hf2 Hf2'].
  pose proof (Qfloor_resp_le _ _ H12) as Hff.
  destruct (Z.eq_dec (Qfloor v1) (Qfloor v2)) as [Heq|Hneq].
  - unfold interpolate, Np.lerp. rewrite Heq.
    set (below := Qfloor v2) in *.
    set (Nx := Z.of_nat (List.length ap)) in *.
    set (above := if (Nx - 1 <? below + 1)%Z then (Nx - 1)%Z else (below + 1)%Z).
    assert (Hle : nth (Z.to_nat below) ap 0 <= nth (Z.to_nat above) ap 0).
    { apply sorted_nth_le; [exact Hs|]. unfold above, Nx in *.
      destruct (Z.ltb_spec (Z.of_nat (List.length ap) - 1) (below + 1)); lia. }
    nra.
  - destruct (interpolate_between ap v1 Hs Hne H0 H1) as [_ Hup].
    destruct (interpolate_between ap v2 Hs Hne H0' H2) as [Hlow _].
    eapply Qle_trans; [exact Hup|]. eapply Qle_trans; [|exact Hlow].
    apply sorted_nth_le; [exact Hs|]. lia.
Qed.

Lemma interpolate_comp ap v v' : v == v' -> interpolate ap v == interpolate ap v'.
Proof.
  intro H. unfold interpolate, Np.lerp. rewrite (Qfloor_comp _ _ H).
  now rewrite H.
Qed.

Lemma quantile_sorted_linear ap q :
  Np.quantile_sorted ap q == linear_quantile ap q.
Proof.
  unfold Np.quantile_sorted, linear_quantile, Np.lerp. cbv zeta.
  set (Nx := Z.of_nat (List.length ap)).
  set (below := Qfloor (q * inject_Z (Nx - 1))).
  assert (Habove : (if (Nx - 1 <? below + 1)%Z then (Nx - 1)%Z
                    else (below + 1)%Z)
                   = Z.min (below + 1) (Nx - 1)).
  { destruct (Z.ltb_spec (Nx - 1) (below + 1)); lia. }
  rewrite Habove. ring.
Qed.

Lemma interpolate_at_index ap (k : Z) :
  (0 <= k)%Z -> interpolate ap (inject_Z k) == nth (Z.to_nat k) ap 0.
Proof.
  intro Hk. unfold interpolate, Np.lerp. rewrite Qfloor_Z.
  ring.
Qed.

(** *** Probability levels *)

Lemma inject_Z_pos (z : Z) : (0 < z)%Z -> 0 < inject_Z z.
Proof. intro H. change 0 with (inject_Z 0). now rewrite <- Zlt_Qlt. Qed.

Lemma level_bounds n i :
  (2 <= n)%Z -> (i < Z.to_nat n)%nat -> 0 <= level n i /\ level n i <= 1.
Proof.
  intros Hn Hi. unfold level.
  assert (Hd : 0 < inject_Z (n - 1)) by (apply inject_Z_pos; lia).
  assert (Hi0 : 0 <= inject_Z (Z.of_nat i)).
  { change 0 with (inject_Z 0). rewrite <- Zle_Qle. lia. }
  assert (Hi1 : inject_Z (Z.of_nat i) <= inject_Z (n - 1)).
  { rewrite <- Zle_Qle. lia. }
  split.
  - apply Qle_shift_div_l; [exact Hd|]. lra.
  - apply Qle_shift_div_r; [exact Hd|]. lra.
Qed.

Lemma level_mono n i j :
  (2 <= n)%Z -> (i <= j)%nat -> level n i <= level n j.
Proof.
  intros Hn Hij. unfold level.
  assert (Hd : 0 < inject_Z (n - 1)) by (apply inject_Z_pos; lia).
  assert (Hle : inject_Z (Z.of_nat i) <= inject_Z (Z.of_nat j)).
  { rewrite <- Zle_Qle. lia. }
  apply Qle_shift_div_l; [exact Hd|].
  unfold Qdiv. rewrite <- Qmult_assoc, (Qmult_comm (/ _)), Qmult_inv_r; lra.
Qed.

Lemma linspace_unit n :
  (0 <= n)%Z ->
  Np.linspace 0 1 n = Ok (map (linspace_sample n) (seq 0 (Z.to_nat n))).
Proof.
  intro Hn. unfold Np.linspace.
  destruct (Z.ltb_spec n 0); [lia|]. reflexivity.
Qed.

Lemma linspace_sample_level n i :
  (2 <= n)%Z -> (i < Z.to_nat n)%nat -> linspace_sample n i == level n i.
Proof.
  intros Hn Hi. unfold linspace_sample, level.
  assert (Hd : 0 < inject_Z (n - 1)) by (apply inject_Z_pos; lia).
  destruct (Z.ltb_spec 1 n); [|lia]. simpl andb.
  destruct (Z.eqb_spec (Z.of_nat i) (n - 1)) as [->|Hne].
  - field. lra.
  - destruct (Z.ltb_spec 0 (n - 1)); [|lia]. field. lra.
Qed.

Lemma linspace_levels_in_range n :
  (2 <= n)%Z ->
  forallb (fun q => Qle_bool 0 q && Qle_bool q 1)
          (map (linspace_sample n) (seq 0 (Z.to_nat n))) = true.
Proof.
  intro Hn. apply forallb_forall. intros q Hq.
  apply in_map_iff in Hq. destruct Hq as [i [<- Hi]].
  apply in_seq in Hi.
  assert (Hi' : (i < Z.to_nat n)%nat) by lia.
  destruct (level_bounds n i Hn Hi') as [H0 H1].
  rewrite <- (linspace_sample_level n i Hn Hi') in H0, H1.
  apply andb_true_iff. split; now apply Qle_bool_iff.
Qed.

Lemma nth_map_seq {A} (f : nat -> A) (n i : nat) (d : A) :
  (i < n)%nat -> nth i (map f (seq 0 n)) d = f i.
Proof.
  intro Hi. rewrite (nth_indep _ d (f 0%nat)) by (rewrite length_map, length_seq; lia).
  rewrite (map_nth f (seq 0 n) 0%nat i). now rewrite seq_nth.
Qed.

Lemma last_is_nth {A} (l : list A) (d : A) :
  last l d = nth (List.length l - 1) l d.
Proof.
  induction l as [|x l IH]; [reflexivity|].
  destruct l as [|x' l]; [reflexivity|].
  change (last (x :: x' :: l) d) with (last (x' :: l) d). rewrite IH.
  simpl List.length.
  replace (S (S (List.length l)) - 1)%nat with (S (List.length l - 0)) by lia.
  replace (S (List.length l) - 1)%nat with (List.length l - 0)%nat by lia.
  reflexivity.
Qed.

(** *** The grid *)

Lemma sorted_head_minimum l :
  l <> [] -> is_minimum (nth 0 (Np.sort l) 0) l.
Proof.
  intro Hne.
  assert (Hlen : (0 < List.length (Np.sort l))%nat).
  { rewrite sort_length. destruct l; simpl; [congruence | lia]. }
  split.
  - exists (nth 0 (Np.sort l) 0). split; [|reflexivity].
    apply (Permutation_in _ (Permutation_sym (sort_perm l))).
    now apply nth_In.
  - intros x Hx. apply (Permutation_in _ (sort_perm l)) in Hx.
    destruct (In_nth _ _ 0 Hx) as [k [Hk <-]].
    apply sorted_nth_le; [apply sort_sorted | lia].
Qed.

Lemma sorted_last_maximum l :
  l <> [] -> is_maximum (nth (List.length l - 1) (Np.sort l) 0) l.
Proof.
  intro Hne.
  assert (Hlen : (0 < List.length (Np.sort l))%nat).
  { rewrite sort_length. destruct l; simpl; [congruence | lia]. }
  pose proof (sort_length l) as Hsl.
  split.
  - exists (nth (List.length l - 1) (Np.sort l) 0). split; [|reflexivity].
    apply (Permutation_in _ (Permutation_sym (sort_perm l))).
    apply nth_In. lia.
  - intros x Hx. apply (Permutation_in _ (sort_perm l)) in Hx.
    destruct (In_nth _ _ 0 Hx) as [k [Hk <-]].
    apply sorted_nth_le; [apply sort_sorted | lia].
Qed.

Lemma is_minimum_comp m m' l : m == m' -> is_minimum m l -> is_minimum m' l.
Proof.
  intros Hm [[x [Hx Hxm]] Hle]. split.
  - exists x. split; [exact Hx|]. now rewrite Hxm.
  - intros z Hz. rewrite <- Hm. now apply Hle.
Qed.

Lemma is_maximum_comp m m' l : m == m' -> is_maximum m l -> is_maximum m' l.
Proof.
  intros Hm [[x [Hx Hxm]] Hle]. split.
  - exists x. split; [exact Hx|]. now rewrite Hxm.
  - intros z Hz. rewrite <- Hm. now apply Hle.
Qed.

Lemma quantile_of_levels a n :
  a <> [] -> (2 <= n)%Z ->
  (qs <- Np.linspace 0 1 n ;; Np.quantile a qs)%res = Ok (grid_of a n).
Proof.
  intros Ha Hn. rewrite linspace_unit by lia. simpl rbind.
  unfold Np.quantile. rewrite linspace_levels_in_range by exact Hn.
  simpl negb. cbv iota. destruct a; [congruence | reflexivity].
Qed.

Lemma grid_of_length a n : List.length (grid_of a n) = Z.to_nat n.
Proof. unfold grid_of. now rewrite !length_map, length_seq. Qed.

Lemma grid_of_nth a n i :
  (i < Z.to_nat n)%nat ->
  nth i (grid_of a n) 0
  = Np.quantile_sorted (Np.sort a) (linspace_sample n i).
Proof.
  intro Hi. unfold grid_of. rewrite map_map.
  exact (nth_map_seq
           (fun x => Np.quantile_sorted (Np.sort a) (linspace_sample n x))
           _ _ _ Hi).
Qed.

Lemma quantile_sorted_comp ap q q' :
  q == q' -> Np.quantile_sorted ap q == Np.quantile_sorted ap q'.
Proof.
  intro H. rewrite !quantile_sorted_interpolate.
  apply interpolate_comp. now rewrite H.
Qed.

Lemma grid_of_quantile a n i :
  (2 <= n)%Z -> (i < Z.to_nat n)%nat ->
  nth i (grid_of a n) 0 == Np.quantile_sorted (Np.sort a) (level n i).
Proof.
  intros Hn Hi. rewrite grid_of_nth by exact Hi.
  apply quantile_sorted_comp. now apply linspace_sample_level.
Qed.

Lemma virtual_index_bounds (N : nat) q :
  (0 < N)%nat -> 0 <= q -> q <= 1 ->
  0 <= q * inject_Z (Z.of_nat N - 1) /\
  q * inject_Z (Z.of_nat N - 1) <= inject_Z (Z.of_nat N - 1).
Proof.
  intros HN H0 H1.
  assert (Hd : 0 <= inject_Z (Z.of_nat N - 1)).
  { change 0 with (inject_Z 0). rewrite <- Zle_Qle. lia. }
  split; nra.
Qed.

Lemma grid_of_mono a n i j :
  a <> [] -> (2 <= n)%Z -> (i <= j < Z.to_nat n)%nat ->
  nth i (grid_of a n) 0 <= nth j (grid_of a n) 0.
Proof.
  intros Ha Hn [Hij Hj].
  rewrite (grid_of_quantile a n i), (grid_of_quantile a n j) by (lia || exact Hn).
  rewrite !quantile_sorted_interpolate.
  assert (Hne : Np.sort a <> []).
  { intro H. apply Ha. apply Permutation_nil.
    rewrite <- H. apply Permutation_sym, sort_perm. }
  assert (HN : (0 < List.length (Np.sort a))%nat).
  { destruct (Np.sort a); simpl; [congruence | lia]. }
  destruct (level_bounds n i Hn) as [Hi0 Hi1]; [lia|].
  destruct (level_bounds n j Hn) as [Hj0 Hj1]; [lia|].
  pose proof (level_mono n i j Hn Hij) as Hm.
  destruct (virtual_index_bounds _ _ HN Hi0 Hi1) as [Hvi0 Hvi1].
  destruct (virtual_index_bounds _ _ HN Hj0 Hj1) as [Hvj0 Hvj1].
  assert (Hd : 0 <= inject_Z (Z.of_nat (List.length (Np.sort a)) - 1)).
  { change 0 with (inject_Z 0). rewrite <- Zle_Qle. lia. }
  apply interpolate_mono; auto using sort_sorted. nra.
Qed.

Lemma grid_of_first a n :
  a <> [] -> (2 <= n)%Z -> is_minimum (hd 0 (grid_of a n)) a.
Proof.
  intros Ha Hn.
  apply is_minimum_comp with (nth 0 (Np.sort a) 0);
    [|now apply sorted_head_minimum].
  assert (Hhd : hd 0 (grid_of a n) = nth 0 (grid_of a n) 0)
    by now destruct (grid_of a n).
  rewrite Hhd, grid_of_quantile by lia.
  rewrite quantile_sorted_interpolate.
  rewrite <- (interpolate_at_index (Np.sort a) 0) by lia.
  apply interpolate_comp. unfold level. simpl Z.of_nat.
  unfold Qdiv. ring.
Qed.

Lemma grid_of_last a n :
  a <> [] -> (2 <= n)%Z -> is_maximum (last (grid_of a n) 0) a.
Proof.
  intros Ha Hn.
  apply is_maximum_comp with (nth (List.length a - 1) (Np.sort a) 0);
    [|now apply sorted_last_maximum].
  assert (Hlen : (0 < List.length a)%nat) by (destruct a; simpl; [congruence | lia]).
  assert (Hlast : last (grid_of a n) 0 = nth (Z.to_nat n - 1) (grid_of a n) 0).
  { rewrite <- grid_of_length with (a := a). apply last_is_nth. }
  rewrite Hlast, grid_of_quantile by lia.
  rewrite quantile_sorted_interpolate, sort_length.
  replace (List.length a - 1)%nat with (Z.to_nat (Z.of_nat (List.length a) - 1)) by lia.
  rewrite <- (interpolate_at_index (Np.sort a)) by lia.
  apply interpolate_comp. unfold level.
  replace (Z.of_nat (Z.to_nat n - 1)) with (n - 1)%Z by lia.
  assert (Hd : 0 < inject_Z (n - 1)) by (apply inject_Z_pos; lia).
  field. lra.
Qed.

End Grid.

(** ** Attributes a method body leaves alone *)

Section Keeps.
Context {E : Externals}.

Lemma keeps_read_only {A B} (attr : CDRC -> A) (m : M B) :
  read_only m -> keeps attr m.
Proof. intros H self. now rewrite H. Qed.

Lemma keeps_assign {A} (attr : CDRC -> A) (set : CDRC -> CDRC) :
  (forall self, attr (set self) = attr self) -> keeps attr (assign set).
Proof. intros H self. apply H. Qed.

Lemma keeps_bind {A B C} (attr : CDRC -> A) (m : M B) (k : B -> M C) :
  keeps attr m -> (forall b, keeps attr (k b)) -> keeps attr (bind m k).
Proof.
  intros Hm Hk self. unfold bind. specialize (Hm self).
  destruct (m self) as [s r]. simpl in Hm. destruct r; [|exact Hm].
  now rewrite Hk.
Qed.

Lemma bind_returns {A B} (m : M A) (k : A -> M B) self self' b :
  bind m k self = (self', Ok b) ->
  exists a s, m self = (s, Ok a) /\ k a s = (self', Ok b).
Proof.
  unfold bind. destruct (m self) as [s r]. destruct r as [a|e]; [|discriminate].
  intro H. now exists a, s.
Qed.

End Keeps.

Ltac keeps_steps :=
  repeat first
    [ apply keeps_read_only;
      first [ apply find_best_read_only | apply create_normal_read_only
            | apply create_lognormal_read_only | apply create_gamma_read_only
            | apply fit_gam_read_only | apply gps_values_at_grid_read_only
            | apply read_only_ret | apply read_only_lift
            | apply read_only_read | apply read_only_getattr ]
    | apply keeps_assign; intro; reflexivity
    | apply keeps_bind; [|intro]
    | match goal with
      | |- keeps _ (match ?x with _ => _ end) => destruct x
      | |- keeps _ (if ?c then _ else _) => destruct c
      end ].

Section FitStages.
Context {E : Externals}.

Lemma fit_from_family_keeps_T : keeps T fit_from_family.
Proof. unfold fit_from_family. keeps_steps. Qed.

Lemma fit_from_family_keeps_y : keeps y fit_from_family.
Proof. unfold fit_from_family. keeps_steps. Qed.

Lemma fit_from_family_keeps_num : keeps treatment_grid_num fit_from_family.
Proof. unfold fit_from_family. keeps_steps. Qed.

Lemma fit_from_family_keeps_grid : keeps grid_values fit_from_family.
Proof. unfold fit_from_family. keeps_steps. Qed.

Lemma fit_from_gps_keeps_grid : keeps grid_values fit_from_gps.
Proof. unfold fit_from_gps. keeps_steps. Qed.

(** The steps of [fit], one after the other. *)
Lemma fit_run T_ X_ y_ self :
  fit T_ X_ y_ self =
  let s := set_y y_ (set_X X_ (set_T T_ self)) in
  match snd (_validate_fit_data s) with
  | Raise e => (s, Raise e)
  | Ok _ =>
      match snd (_grid_values s) with
      | Raise e => (s, Raise e)
      | Ok grid =>
          bind fit_from_family (fun _ => fit_from_gps) (set_grid_values grid s)
      end
  end.
Proof.
  unfold fit. rewrite !bind_assign. cbv zeta.
  rewrite bind_read_only by apply validate_fit_data_read_only.
  destruct (snd (_validate_fit_data _)); [|reflexivity].
  rewrite bind_read_only by apply grid_values_read_only.
  destruct (snd (_grid_values _)) as [grid|e]; [|reflexivity].
  rewrite bind_assign.
  unfold fit_from_family, fit_from_gps.
  rewrite !bind_assoc. unfold bind at 1. unfold read at 1.
  unfold bind at 3. unfold read at 1.
  reflexivity.
Qed.

End FitStages.

Section GridTheorem.
Context {E : Externals}.
Open Scope Q_scope.

Lemma grid_values_eval self T_ n :
  T self = Some T_ -> values T_ <> [] ->
  treatment_grid_num self = PyInt n -> (2 <= n)%Z ->
  _grid_values self = (self, Ok (grid_of (values T_) n)).
Proof.
  intros HT Hne Hn H2.
  rewrite (read_only_run _ grid_values_read_only). f_equal.
  unfold _grid_values.
  unfold bind at 1. unfold getattr at 1. rewrite HT.
  unfold bind at 1. unfold read at 1. rewrite Hn.
  rewrite lift_raise_if_then. simpl negb. cbv iota.
  pose proof (quantile_of_levels (values T_) n Hne H2) as Hq.
  unfold bind, lift. simpl int_value.
  destruct (Np.linspace 0 1 n) as [qs|e]; simpl in Hq |- *.
  - now rewrite Hq.
  - discriminate.
Qed.

(** C3.  For a non-empty treatment sample [T] (of a float dtype, with
    numeric covariates and a float outcome, so that [fit] gets past its
    validation) and a grid size [n] (any integer from 2 on; the constructor
    accepts 10 to 999), [fit] stores a grid that has [n] entries, is
    non-decreasing, holds at position [i] the quantile of [T] at the level
    [i / (n - 1)] (the values of [T] put in non-decreasing order, and the
    linear interpolation between the two order statistics nearest to the
    position [i / (n - 1) * (N - 1)]), has the least value of [T] as its
    first entry and the greatest as its last, and stays on the instance
    whatever the later steps of [fit] do. *)
Theorem fit_grid_is_quantiles :
  forall (self : CDRC) (T_ : Series) (X_ : DataFrame) (y_ : Series) (n : Z),
    treatment_grid_num self = PyInt n -> (2 <= n)%Z ->
    values T_ <> [] ->
    refused_fit_data T_ X_ y_ = false ->
    exists grid,
      _grid_values (set_y y_ (set_X X_ (set_T T_ self)))
        = (set_y y_ (set_X X_ (set_T T_ self)), Ok grid) /\
      grid_values (fst (fit T_ X_ y_ self)) = Some grid /\
      List.length grid = Z.to_nat n /\
      (forall i j, (i <= j < Z.to_nat n)%nat -> nth i grid 0 <= nth j grid 0) /\
      (exists sorted,
          Permutation sorted (values T_) /\
          StronglySorted Qle sorted /\
          forall i, (i < Z.to_nat n)%nat ->
            nth i grid 0
            == linear_quantile sorted
                 (inject_Z (Z.of_nat i) / inject_Z (n - 1))) /\
      is_minimum (hd 0 grid) (values T_) /\
      is_maximum (last grid 0) (values T_).
Proof.
  intros self T_ X_ y_ n Hn H2 Hne Hok.
  exists (grid_of (values T_) n).
  assert (Hg : _grid_values (set_y y_ (set_X X_ (set_T T_ self)))
               = (set_y y_ (set_X X_ (set_T T_ self)),
                  Ok (grid_of (values T_) n))).
  { apply grid_values_eval; auto. }
  split; [exact Hg|]. split.
  - rewrite fit_run. cbv zeta.
    rewrite (validate_fit_data_eval _ T_ X_ y_) by reflexivity.
    unfold refused_fit_data in Hok.
    apply orb_false_iff in Hok. destruct Hok as [Hok Hy].
    apply orb_false_iff in Hok. destruct Hok as [HT HX].
    rewrite HT, HX, Hy. simpl snd. cbv iota.
    rewrite Hg. simpl snd. cbv iota.
    assert (Hk : keeps grid_values (bind fit_from_family (fun _ => fit_from_gps))).
    { apply keeps_bind; [apply fit_from_family_keeps_grid|].
      intro. apply fit_from_gps_keeps_grid. }
    now rewrite Hk.
  - split; [apply grid_of_length|]. split.
    + intros i j Hij. now apply grid_of_mono.
    + split.
      * exists (Np.sort (values T_)).
        split; [symmetry; apply sort_perm|]. split; [apply sort_sorted|].
        intros i Hi. rewrite grid_of_quantile by assumption.
        apply quantile_sorted_linear.
      * split; [now apply grid_of_first | now apply grid_of_last].
Qed.

End GridTheorem.

(** ** Rounding and averaging *)

Section Rounding.
Open Scope Q_scope.

Lemma rint_bounds x : (Qfloor x <= Np.rint x <= Qfloor x + 1)%Z.
Proof.
  unfold Np.rint.
  destruct (x - inject_Z (Qfloor x) ?= 1 # 2); [|lia|lia].
  destruct (Z.even (Qfloor x)); lia.
Qed.

Lemma rint_mono x y : x <= y -> (Np.rint x <= Np.rint y)%Z.
Proof.
  intro Hxy. pose proof (Qfloor_resp_le _ _ Hxy) as Hff.
  destruct (Z.eq_dec (Qfloor x) (Qfloor y)) as [Heq|Hneq].
  - unfold Np.rint. rewrite Heq.
    assert (Hr : x - inject_Z (Qfloor y) <= y - inject_Z (Qfloor y)) by lra.
    destruct (Qcompare_spec (x - inject_Z (Qfloor y)) (1 # 2)) as [H1|H1|H1];
      destruct (Qcompare_spec (y - inject_Z (Qfloor y)) (1 # 2)) as [H2|H2|H2];
      try (destruct (Z.even (Qfloor y))); try lia; exfalso; lra.
  - pose proof (rint_bounds x). pose proof (rint_bounds y). lia.
Qed.

Lemma rint_inject_Z z : Np.rint (inject_Z z) = z.
Proof.
  unfold Np.rint. rewrite Qfloor_Z.
  destruct (Qcompare_spec (inject_Z z - inject_Z z) (1 # 2)) as [H|H|H];
    [exfalso; lra | reflexivity | exfalso; lra].
Qed.

Lemma pow10_pos d : 0 < inject_Z (10 ^ Z.of_nat d).
Proof. apply inject_Z_pos. apply Z.pow_pos_nonneg; lia. Qed.

Lemma round_mono d x y : x <= y -> Np.round x d <= Np.round y d.
Proof.
  intro Hxy. unfold Np.round. pose proof (pow10_pos d) as Hp.
  set (p := inject_Z (10 ^ Z.of_nat d)) in *.
  assert (Hm : x * p <= y * p) by nra.
  pose proof (rint_mono _ _ Hm) as Hr. rewrite Zle_Qle in Hr.
  apply Qle_shift_div_l; [exact Hp|].
  unfold Qdiv. rewrite <- Qmult_assoc, (Qmult_comm (/ p)), Qmult_inv_r; lra.
Qed.

Lemma rint_comp x y : x == y -> Np.rint x = Np.rint y.
Proof.
  intro H. unfold Np.rint. rewrite (Qfloor_comp _ _ H).
  assert (Hr : x - inject_Z (Qfloor y) == y - inject_Z (Qfloor y))
    by (rewrite H; reflexivity).
  now rewrite (Qcompare_comp _ _ Hr _ _ (Qeq_refl (1 # 2))).
Qed.


Lemma rint_nearest x :
  Qabs (x - inject_Z (Np.rint x)) <= 1 # 2 /\
  (Qabs (x - inject_Z (Np.rint x)) == 1 # 2 -> Z.even (Np.rint x) = true).
Proof.
  unfold Np.rint.
  pose proof (Qfloor_le x) as H1. pose proof (Qlt_floor x) as H2.
  rewrite inject_Z_plus in H2. change (inject_Z 1) with 1 in H2.
  destruct (Qcompare_spec (x - inject_Z (Qfloor x)) (1 # 2)) as [H|H|H].
  - destruct (Z.even (Qfloor x)) eqn:He.
    + split; [apply Qabs_Qle_condition; split; lra | intros _; exact He].
    + split.
      * rewrite inject_Z_plus. change (inject_Z 1) with 1.
        apply Qabs_Qle_condition; split; lra.
      * intros _. rewrite Z.even_add, He. reflexivity.
  - split; [apply Qabs_Qle_condition; split; lra|].
    intro Habs. exfalso. rewrite Qabs_pos in Habs by lra. lra.
  - rewrite inject_Z_plus. change (inject_Z 1) with 1.
    split; [apply Qabs_Qle_condition; split; lra|].
    intro Habs. exfalso. rewrite Qabs_neg in Habs by lra. lra.
Qed.

Lemma round_nearest_even d x : nearest_even d x (Np.round x d).
Proof.
  unfold nearest_even, Np.round.
  exists (Np.rint (x * inject_Z (10 ^ Z.of_nat d))).
  split; [reflexivity|]. apply rint_nearest.
Qed.

Lemma Forall2_map_nearest {A} (f : A -> Q) d (l : list A) :
  Forall2 (nearest_even d) (map f l) (map (fun r => Np.round (f r) d) l).
Proof.
  induction l as [|a l IH]; simpl; constructor; [|exact IH].
  apply round_nearest_even.
Qed.

Lemma mean_total l :
  Np.mean l * inject_Z (Z.of_nat (List.length l)) == total l.
Proof.
  unfold Np.mean, total, Np.Qsum. destruct l as [|a l]; [reflexivity|].
  assert (Hd : 0 < inject_Z (Z.of_nat (List.length (a :: l)))).
  { apply inject_Z_pos. simpl List.length. lia. }
  field. lra.
Qed.

Lemma Qsum_map_le {A} (f g : A -> Q) (l : list A) :
  (forall x, In x l -> f x <= g x) ->
  Np.Qsum (map f l) <= Np.Qsum (map g l).
Proof.
  induction l as [|a l IH]; intro H; simpl; [lra|].
  assert (f a <= g a) by (apply H; now left).
  assert (Np.Qsum (map f l) <= Np.Qsum (map g l))
    by (apply IH; intros; apply H; now right).
  lra.
Qed.

Lemma mean_map_le {A} (f g : A -> Q) (l : list A) :
  (forall x, In x l -> f x <= g x) ->
  Np.mean (map f l) <= Np.mean (map g l).
Proof.
  intro H. unfold Np.mean. rewrite !length_map.
  pose proof (Qsum_map_le f g l H) as Hs.
  destruct l as [|a l].
  - simpl. lra.
  - assert (Hd : 0 < inject_Z (Z.of_nat (List.length (a :: l)))).
    { apply inject_Z_pos. simpl List.length. lia. }
    apply Qle_shift_div_l; [exact Hd|].
    unfold Qdiv. rewrite <- Qmult_assoc, (Qmult_comm (/ _)), Qmult_inv_r; lra.
Qed.

End Rounding.

(** ** What a fit that returns leaves on the instance *)

Section Fitted.
Context {E : Externals}.

Lemma index_nth {A} (l : list A) (i : nat) (d : A) :
  (i < List.length l)%nat -> index l i = Ok (nth i l d).
Proof.
  intro Hi. unfold index.
  destruct (nth_error l i) as [x|] eqn:Hx.
  - now rewrite (nth_error_nth _ _ d Hx).
  - apply nth_error_None in Hx. lia.
Qed.

Lemma as_column_length n v c :
  Np.as_column n v = Ok c -> List.length c = n.
Proof.
  unfold Np.as_column. destruct (Nat.eqb_spec (List.length v) n).
  - intro H. now injection H as <-.
  - destruct v as [|x [|x' v]]; try discriminate.
    intro H. injection H as <-. apply repeat_length.
Qed.

Lemma as_column_ok n v c :
  Np.as_column n v = Ok c ->
  List.length v = n /\ c = v \/ exists x, v = [x] /\ c = List.repeat x n.
Proof.
  unfold Np.as_column. destruct (Nat.eqb_spec (List.length v) n).
  - intro H. injection H as <-. now left.
  - destruct v as [|x [|x' v]]; try discriminate.
    intro H. injection H as <-. right. now exists x.
Qed.

Lemma range_int n : range (PyInt n) = Ok (seq 0 (Z.to_nat n)).
Proof. reflexivity. Qed.

Lemma gps_values_at_grid_shape self T_ n matrix :
  T self = Some T_ -> treatment_grid_num self = PyInt n ->
  snd (_gps_values_at_grid self) = Ok matrix ->
  List.length matrix = Z.to_nat n /\
  Forall (fun col => List.length col = List.length (values T_)) matrix.
Proof.
  intros HT Hn. unfold _gps_values_at_grid.
  unfold bind at 1. unfold getattr at 1. rewrite HT.
  unfold bind at 1. unfold read at 1. rewrite Hn.
  unfold bind at 1. unfold lift at 1. rewrite range_int.
  intro H. apply for_each_read_only_ok in H;
    [|intro; read_only_steps].
  split.
  - apply Forall2_length in H. now rewrite length_seq in H.
  - clear -H. induction H as [|i col idxs cols Hi _ IH]; constructor; [|exact IH].
    unfold bind, getattr, lift in Hi.
    destruct (grid_values self); [|discriminate].
    simpl in Hi. destruct (index l i); [|discriminate].
    simpl in Hi. destruct (gps_function self); [|discriminate].
    simpl in Hi. destruct (g (Np.Scalar a)); [|discriminate].
    simpl in Hi. now apply as_column_length in Hi.
Qed.

Lemma grid_values_needs_sample self T_ grid :
  T self = Some T_ -> snd (_grid_values self) = Ok grid -> values T_ <> [].
Proof.
  intros HT H Hnil. unfold _grid_values in H.
  unfold bind at 1 in H. unfold getattr at 1 in H. rewrite HT in H.
  unfold bind at 1 in H. unfold read at 1 in H.
  rewrite lift_raise_if_then in H.
  destruct (negb (isinstance_int (treatment_grid_num self))); [discriminate|].
  unfold bind, lift in H.
  destruct (Np.linspace 0 1 (int_value (treatment_grid_num self))) as [qs|e];
    [|discriminate].
  simpl in H. unfold Np.quantile in H. rewrite Hnil in H.
  destruct (negb _); discriminate.
Qed.

Lemma fit_returns self0 T_ X_ y_ self n :
  treatment_grid_num self0 = PyInt n -> 2 <= n ->
  fit T_ X_ y_ self0 = (self, Ok tt) ->
  exists matrix gam,
    fitted self T_ n (grid_of (values T_) n) matrix gam.
Proof.
  intros Hn H2 H. rewrite fit_run in H. cbv zeta in H.
  set (s := set_y y_ (set_X X_ (set_T T_ self0))) in *.
  destruct (snd (_validate_fit_data s)); [|discriminate].
  destruct (snd (_grid_values s)) as [grid|e] eqn:Hgrid; [|discriminate].
  assert (Hne : values T_ <> [])
    by (eapply (grid_values_needs_sample s); [reflexivity | exact Hgrid]).
  rewrite (grid_values_eval s T_ n) in Hgrid by (auto || reflexivity).
  injection Hgrid as <-.
  apply bind_returns in H. destruct H as (u & s5 & Hfam & H).
  assert (HT5 : T s5 = Some T_).
  { pose proof (fit_from_family_keeps_T (set_grid_values (grid_of (values T_) n) s)) as K.
    rewrite Hfam in K. exact K. }
  assert (Hn5 : treatment_grid_num s5 = PyInt n).
  { pose proof (fit_from_family_keeps_num (set_grid_values (grid_of (values T_) n) s)) as K.
    rewrite Hfam in K. simpl in K. now rewrite K. }
  assert (Hg5 : grid_values s5 = Some (grid_of (values T_) n)).
  { pose proof (fit_from_family_keeps_grid (set_grid_values (grid_of (values T_) n) s)) as K.
    rewrite Hfam in K. exact K. }
  clear Hfam. unfold fit_from_gps in H.
  rewrite bind_read_only in H by apply read_only_getattr.
  destruct (snd (getattr gps_function "gps_function" s5)) as [f|]; [|discriminate].
  rewrite bind_read_only in H by apply read_only_getattr.
  destruct (snd (getattr T "T" s5)) as [T'|]; [|discriminate].
  rewrite bind_read_only in H by apply read_only_lift.
  destruct (snd (lift (f (Np.Vector (values T'))) s5)) as [g|]; [|discriminate].
  rewrite bind_assign in H.
  rewrite bind_read_only in H by apply fit_gam_read_only.
  destruct (snd (_fit_gam (set_gps g s5))) as [gam|]; [|discriminate].
  rewrite !bind_assign in H.
  rewrite bind_read_only in H by apply gps_values_at_grid_read_only.
  destruct (snd (_gps_values_at_grid _)) as [matrix|] eqn:Hm; [|discriminate].
  unfold assign in H. injection H as <-.
  destruct (gps_values_at_grid_shape
              (set_gam_summary_str (gam_summary gam)
                 (set_gam_results gam (set_gps g s5)))
              T_ n matrix HT5 Hn5 Hm) as [Hl Hc].
  exists matrix, gam. constructor; auto.
  apply grid_of_length.
Qed.

End Fitted.

(** ** The table of [calculate_CDRC] on a fitted instance *)

Section Table.
Context {E : Externals}.
Open Scope Q_scope.

Lemma query_rows_length nobs g col :
  List.length col = nobs -> List.length (query_rows nobs g col) = nobs.
Proof.
  intro H. unfold query_rows, Np.repeat.
  rewrite length_combine, repeat_length, H. apply Nat.min_id.
Qed.

Lemma cdrc_predictions_eval self T_ n grid matrix gam ci :
  fitted self T_ n grid matrix gam ->
  snd (_cdrc_predictions ci self)
  = Ok (predictions_of gam ci (List.length (values T_))
                       grid matrix n).
Proof.
  intros [Hne HT Hn Hg Hgl Hm Hml Hmc Hgam].
  unfold _cdrc_predictions.
  unfold bind at 1. unfold getattr at 1. rewrite HT.
  unfold bind at 1. unfold read at 1. rewrite Hn.
  unfold bind at 1. unfold lift at 1. rewrite range_int.
  rewrite bind_read_only by (apply read_only_for_each; intro; read_only_steps).
  erewrite for_each_read_only_map with
    (f := fun i =>
            {| point := map (gam_predict gam)
                 (query_rows (List.length (values T_)) (nth i grid 0) (nth i matrix []));
               lower := map fst (map (gam_prediction_intervals gam ci)
                 (query_rows (List.length (values T_)) (nth i grid 0) (nth i matrix [])));
               upper := map snd (map (gam_prediction_intervals gam ci)
                 (query_rows (List.length (values T_)) (nth i grid 0) (nth i matrix []))) |}).
  - simpl. f_equal. unfold round_tensor, predictions_of, slab_of.
    rewrite map_map. apply map_ext. intro i. simpl.
    now rewrite !map_map.
  - intro; read_only_steps.
  - intros i Hi. apply in_seq in Hi.
    unfold bind, getattr, lift, ret. rewrite Hg, Hm, Hgam.
    rewrite (index_nth grid i 0) by lia.
    rewrite (index_nth matrix i []) by lia.
    unfold Np.column_stack, Np.repeat. rewrite repeat_length.
    assert (Hcol : List.length (nth i matrix []) = List.length (values T_)).
    { rewrite Forall_forall in Hmc. apply Hmc, nth_In. lia. }
    rewrite Hcol, Nat.eqb_refl. reflexivity.
Qed.

Lemma results_table_eval self n grid preds :
  treatment_grid_num self = PyInt n ->
  grid_values self = Some grid -> List.length grid = Z.to_nat n ->
  _cdrc_preds self = Some preds -> List.length preds = Z.to_nat n ->
  snd (results_table self) = Ok (map (row_of grid preds) (seq 0 (Z.to_nat n))).
Proof.
  intros Hn Hg Hgl Hp Hpl. unfold results_table.
  unfold bind at 1. unfold read at 1. rewrite Hn.
  unfold bind at 1. unfold lift at 1. rewrite range_int.
  apply for_each_read_only_map.
  - intro; read_only_steps.
  - intros i Hi. apply in_seq in Hi.
    unfold bind, getattr, lift, ret. rewrite Hg, Hp.
    rewrite (index_nth grid i 0) by lia.
    rewrite (index_nth preds i (mkSlab [] [] [])) by lia.
    reflexivity.
Qed.

Lemma predictions_of_length gam w nobs grid matrix n :
  List.length (predictions_of gam w nobs grid matrix n) = Z.to_nat n.
Proof. unfold predictions_of. now rewrite length_map, length_seq. Qed.

Lemma predictions_of_nth gam w nobs grid matrix n i :
  (i < Z.to_nat n)%nat ->
  nth i (predictions_of gam w nobs grid matrix n) (mkSlab [] [] [])
  = slab_of gam w (query_rows nobs (nth i grid 0) (nth i matrix [])).
Proof.
  intro Hi. unfold predictions_of.
  exact (nth_map_seq
           (fun i => slab_of gam w
                       (query_rows nobs (nth i grid 0) (nth i matrix [])))
           _ _ _ Hi).
Qed.

(** A valid [ci] on a fitted instance: the call returns, and what it
    returns and stores. *)
Lemma calculate_CDRC_fitted self T_ n grid matrix gam q :
  fitted self T_ n grid matrix gam -> 0 < q -> q < 1 ->
  let preds :=
    predictions_of gam (PyFloat q) (List.length (values T_)) grid matrix n in
  calculate_CDRC (PyFloat q) self
  = (set_cdrc_preds preds self,
     Ok (map (row_of grid preds) (seq 0 (Z.to_nat n)))).
Proof.
  intros Hf H0 H1 preds.
  rewrite calculate_CDRC_run.
  rewrite (validate_ci_passes q self (conj H0 H1)). simpl snd. cbv iota.
  rewrite (cdrc_predictions_eval self T_ n grid matrix gam (PyFloat q) Hf).
  fold preds. f_equal.
  destruct Hf as [Hne HT Hn Hg Hgl Hm Hml Hmc Hgam].
  apply results_table_eval; auto.
  apply predictions_of_length.
Qed.

End Table.

Section TableTheorems.
Context {E : Externals}.
Open Scope Q_scope.

(** C2.  On an instance that [fit] has fitted (grid size [n], from 2 on; the
    constructor accepts 10 to 999) and for a float [ci] strictly between 0
    and 1, [calculate_CDRC(ci)] returns a table of exactly [n] rows, in grid
    order.  Row [i] holds the stored grid value [i] as [Treatment].  The
    per-observation estimates at grid column [i] are the entries of
    [_cdrc_preds] there: for every observation, the point prediction, lower
    bound and upper bound of the outcome model at the query row (grid value
    [i], GPS of the observation at grid value [i]), each rounded to 3
    decimals.  [CDRC], [Lower_CI] and [Upper_CI] of row [i] are the means
    of these over the observations: each times the number of observations
    is the sum of its column.  When the prediction interval of the outcome
    model brackets its point prediction, every row has
    [Lower_CI <= CDRC <= Upper_CI]. *)
Theorem calculate_CDRC_table :
  forall (self0 self : CDRC) (T_ : Series) (X_ : DataFrame) (y_ : Series)
         (n : Z) (q : Q),
    treatment_grid_num self0 = PyInt n -> (2 <= n)%Z ->
    fit T_ X_ y_ self0 = (self, Ok tt) ->
    0 < q < 1 ->
    (forall gam r,
        fst (gam_prediction_intervals gam (PyFloat q) r) <= gam_predict gam r /\
        gam_predict gam r <= snd (gam_prediction_intervals gam (PyFloat q) r)) ->
    exists grid matrix gam self' preds table,
      grid_values self = Some grid /\
      gps_at_grid self = Some matrix /\
      gam_results self = Some gam /\
      calculate_CDRC (PyFloat q) self = (self', Ok table) /\
      _cdrc_preds self' = Some preds /\
      List.length table = Z.to_nat n /\
      (0 < List.length (values T_))%nat /\
      forall i, (i < Z.to_nat n)%nat ->
        let row := nth i table (TableRow.mk 0 0 0 0) in
        let slab := nth i preds (mkSlab [] [] []) in
        let nobs := inject_Z (Z.of_nat (List.length (values T_))) in
        let rows :=
          query_rows (List.length (values T_)) (nth i grid 0) (nth i matrix []) in
        List.length rows = List.length (values T_) /\
        Forall2 (nearest_even 3) (map (gam_predict gam) rows) (point slab) /\
        Forall2 (nearest_even 3)
                (map (fun r => fst (gam_prediction_intervals gam (PyFloat q) r))
                     rows)
                (lower slab) /\
        Forall2 (nearest_even 3)
                (map (fun r => snd (gam_prediction_intervals gam (PyFloat q) r))
                     rows)
                (upper slab) /\
        TableRow.Treatment row = nth i grid 0 /\
        TableRow.CDRC row * nobs == total (point slab) /\
        TableRow.Lower_CI row * nobs == total (lower slab) /\
        TableRow.Upper_CI row * nobs == total (upper slab) /\
        TableRow.Lower_CI row <= TableRow.CDRC row /\
        TableRow.CDRC row <= TableRow.Upper_CI row.
Proof.
  intros self0 self T_ X_ y_ n q Hn H2 Hfit [Hq0 Hq1] Hbracket.
  destruct (fit_returns _ _ _ _ _ _ Hn H2 Hfit) as (matrix & gam & Hf).
  pose proof (calculate_CDRC_fitted self T_ n _ matrix gam q Hf Hq0 Hq1) as Hcall.
  cbv zeta in Hcall.
  set (grid := grid_of (values T_) n) in *.
  set (preds := predictions_of gam (PyFloat q) (List.length (values T_))
                               grid matrix n) in *.
  exists grid, matrix, gam, (set_cdrc_preds preds self), preds,
    (map (row_of grid preds) (seq 0 (Z.to_nat n))).
  destruct Hf as [Hne HT Hnum Hg Hgl Hm Hml Hmc Hgam].
  split; [exact Hg|]. split; [exact Hm|]. split; [exact Hgam|].
  split; [exact Hcall|]. split; [reflexivity|].
  split; [now rewrite length_map, length_seq|].
  split; [destruct (values T_); [congruence | simpl; lia]|].
  intros i Hi. cbv zeta.
  assert (Hrows : List.length
                    (query_rows (List.length (values T_)) (nth i grid 0)
                                (nth i matrix []))
                  = List.length (values T_)).
  { apply query_rows_length.
    rewrite Forall_forall in Hmc. apply Hmc, nth_In. lia. }
  rewrite (nth_map_seq (row_of grid preds)) by assumption.
  unfold row_of, preds. rewrite predictions_of_nth by assumption.
  set (rows := query_rows (List.length (values T_)) (nth i grid 0)
                          (nth i matrix [])) in *.
  unfold slab_of.
  cbn [point lower upper TableRow.Treatment TableRow.CDRC TableRow.Lower_CI
       TableRow.Upper_CI].
  split; [exact Hrows|].
  split; [apply Forall2_map_nearest|].
  split; [apply (Forall2_map_nearest
                   (fun r => fst (gam_prediction_intervals gam (PyFloat q) r)))|].
  split; [apply (Forall2_map_nearest
                   (fun r => snd (gam_prediction_intervals gam (PyFloat q) r)))|].
  split; [reflexivity|].
  split; [rewrite <- mean_total, length_map, Hrows; reflexivity|].
  split; [rewrite <- mean_total, length_map, Hrows; reflexivity|].
  split; [rewrite <- mean_total, length_map, Hrows; reflexivity|].
  split; apply mean_map_le; intros r _; apply round_mono, Hbracket.
Qed.




End TableTheorems.

(** ** The name stored for the selected family *)

Section StoredFamily.
Context {E : Externals}.

Lemma find_best_gps_model_key self key f d :
  snd (_find_best_gps_model self) = Ok (key, f, d) ->
  In key ["normal_gps_model"; "lognormal_gps_model"; "gamma_gps_model"].
Proof.
  intro H.
  destruct (snd (_create_normal_gps_function self)) as [[fn dn]|e] eqn:Hn.
  - destruct (snd (_create_lognormal_gps_function self)) as [[fl dl]|e] eqn:Hl.
    + destruct (snd (_create_gamma_gps_function self)) as [[fg dg]|e] eqn:Hg.
      * rewrite (find_best_gps_model_selects _ _ _ _ _ _ _ Hn Hl Hg) in H.
        destruct (Qlt_bool dl dn); destruct (Qlt_bool dg _);
          injection H as <- _ _; simpl; auto.
      * destruct (find_best_gps_model_runs_all self) as (_ & _ & Hr).
        rewrite (Hr _ _ _ Hn Hl Hg) in H. discriminate.
    + destruct (find_best_gps_model_runs_all self) as (_ & Hr & _).
      rewrite (Hr _ _ Hn Hl) in H. discriminate.
  - destruct (find_best_gps_model_runs_all self) as (Hr & _).
    rewrite (Hr _ Hn) in H. discriminate.
Qed.

Lemma fit_from_gps_keeps_family : keeps best_gps_family fit_from_gps.
Proof. unfold fit_from_gps. keeps_steps. Qed.

(** Whenever [fit] returns on an instance constructed without a family,
    [best_gps_family] holds one of the three dict keys, none of which is a
    family name. *)
Lemma fit_stores_dict_key self0 T_ X_ y_ self :
  gps_family self0 = PyNone ->
  fit T_ X_ y_ self0 = (self, Ok tt) ->
  exists key,
    best_gps_family self = Some (PyStr key) /\
    In key ["normal_gps_model"; "lognormal_gps_model"; "gamma_gps_model"].
Proof.
  intros Hfam H. rewrite fit_run in H. cbv zeta in H.
  set (s := set_y y_ (set_X X_ (set_T T_ self0))) in *.
  destruct (snd (_validate_fit_data s)); [|discriminate].
  destruct (snd (_grid_values s)) as [grid|e]; [|discriminate].
  apply bind_returns in H. destruct H as (u & s5 & Hsel & H).
  pose proof (fit_from_gps_keeps_family s5) as Hk. rewrite H in Hk.
  simpl fst in Hk. rewrite Hk. clear H Hk.
  unfold fit_from_family in Hsel.
  unfold bind at 1 in Hsel. unfold read at 1 in Hsel.
  change (gps_family (set_grid_values grid s)) with (gps_family self0) in Hsel.
  rewrite Hfam in Hsel. rewrite bind_assign in Hsel.
  change (Py.eqb PyNone PyNone) with true in Hsel. cbv iota in Hsel.
  rewrite bind_read_only in Hsel by apply find_best_read_only.
  destruct (snd (_find_best_gps_model _)) as [[[key f] d]|e] eqn:Hbest;
    [|discriminate].
  rewrite !bind_assign in Hsel. unfold assign in Hsel.
  injection Hsel as <-.
  exists key. split; [reflexivity|].
  exact (find_best_gps_model_key _ _ _ _ Hbest).
Qed.

End StoredFamily.

(** ** The class on concrete data *)

Section Worked.
Import Stub.
Open Scope Q_scope.

Lemma model0_constructed :
  __init__ PyNone (PyInt 10) (PyInt 3) (PyInt 30) (PyFloat (1 # 2))
           (PyInt 100) (PyBool false) = Ok model0.
Proof. reflexivity. Qed.

Lemma model0_valid : valid_params model0.
Proof. apply validate_init_sound. reflexivity. Qed.

Lemma fit0_result : snd (fit T0 X0 y0 model0) = Ok tt.
Proof. vm_compute. reflexivity. Qed.

Lemma fit0_returns : fit T0 X0 y0 model0 = (fitted0, Ok tt).
Proof.
  unfold fitted0. pose proof fit0_result as H.
  destruct (fit T0 X0 y0 model0) as [s r]. simpl in *. now subst r.
Qed.

(** The grid of the sample data: the quantiles of 1, 2, 3, 6 at the levels
    0, 1/9, ..., 1. *)
Lemma fit0_grid :
  option_map (map Qred) (grid_values fitted0)
  = Some [1; 4 # 3; 5 # 3; 2; 7 # 3; 8 # 3; 3; 4; 5; 6].
Proof. vm_compute. reflexivity. Qed.

Lemma calculate0_result : snd (calculate_CDRC ci0 fitted0) = Ok table0.
Proof. vm_compute. reflexivity. Qed.

Lemma calculate0_returns : calculate_CDRC ci0 fitted0 = (after0, Ok table0).
Proof.
  unfold after0. pose proof calculate0_result as H.
  destruct (calculate_CDRC ci0 fitted0) as [s r]. simpl in *. now subst r.
Qed.

Lemma stub_intervals_bracket (w : Q) :
  0 < w ->
  forall (gam : @gam_model externals) r,
    fst (gam_prediction_intervals gam (PyFloat w) r) <= gam_predict gam r /\
    gam_predict gam r <= snd (gam_prediction_intervals gam (PyFloat w) r).
Proof. intros Hw gam r. simpl. split; lra. Qed.

(** C1.  On the sample data, with [gps_family = None]: all three fitters
    run, the lognormal model has the lowest deviance (7/8, against 7/2 and
    6) and is the one selected, together with its deviance; but what [fit]
    stores in [best_gps_family] is the key of the dict entry,
    ['lognormal_gps_model'], not the family name ['lognormal'] that the
    same attribute holds when the family is given explicitly. *)
Theorem best_gps_family_is_dict_key :
  gps_family model0 = PyNone /\
  fit T0 X0 y0 model0 = (fitted0, Ok tt) /\
  returned_deviance (snd (_create_normal_gps_function fitted0))
    = Some (7 # 2) /\
  returned_deviance (snd (_create_lognormal_gps_function fitted0))
    = Some (7 # 8) /\
  returned_deviance (snd (_create_gamma_gps_function fitted0)) = Some 6 /\
  option_map Qred (gps_deviance fitted0) = Some (7 # 8) /\
  best_gps_family fitted0 = Some (PyStr "lognormal_gps_model") /\
  best_gps_family fitted0 <> Some (PyStr "lognormal") /\
  best_gps_family (fst (fit T0 X0 y0 model_lognormal))
    = Some (PyStr "lognormal").
Proof.
  split; [reflexivity|]. split; [exact fit0_returns|].
  repeat (split; [vm_compute; reflexivity|]).
  split; [vm_compute; discriminate | vm_compute; reflexivity].
Qed.

(** *** Where the code departs from the specification *)


(** Against C5: after the call on the sample data the instance holds the
    tensor, 10 grid columns of 4 observations each. *)
Lemma predictions_persist_after_call :
  fit T0 X0 y0 model0 = (fitted0, Ok tt) /\
  _cdrc_preds fitted0 = None /\
  calculate_CDRC ci0 fitted0 = (after0, Ok table0) /\
  assigned (_cdrc_preds after0) = true /\
  option_map (fun preds : Tensor =>
                map (fun slab => List.length (point slab)) preds)
             (_cdrc_preds after0)
  = Some (List.repeat 4%nat 10).
Proof.
  split; [exact fit0_returns|].
  split; [vm_compute; reflexivity|].
  split; [exact calculate0_returns|].
  split; vm_compute; reflexivity.
Qed.

(** Against C10: [spline_order = True] is not rejected by any check. *)
Lemma bool_spline_order_is_accepted :
  __init__ PyNone (PyInt 10) (PyBool true) (PyInt 30) (PyFloat (1 # 2))
           (PyInt 100) (PyBool false)
  = Ok (store_params (E := externals) PyNone (PyInt 10) (PyBool true)
          (PyInt 30) (PyFloat (1 # 2)) (PyInt 100) (PyBool false)).
Proof. reflexivity. Qed.

(** Against C8: a fit refused for an integer treatment, on the instance
    fitted before on the sample data, leaves the grid, the GPS function, the
    GPS values, the GPS-at-grid matrix and the outcome model of the earlier
    fit in place. *)
Lemma refused_refit_keeps_earlier_artifacts :
  fit T0 X0 y0 model0 = (fitted0, Ok tt) /\
  refused_fit_data T_int X0 y0 = true /\
  snd (fit T_int X0 y0 fitted0) = Raise (TypeError "T") /\
  T (fst (fit T_int X0 y0 fitted0)) = Some T_int /\
  assigned (grid_values (fst (fit T_int X0 y0 fitted0))) = true /\
  assigned (gps_function (fst (fit T_int X0 y0 fitted0))) = true /\
  assigned (gps (fst (fit T_int X0 y0 fitted0))) = true /\
  assigned (gps_at_grid (fst (fit T_int X0 y0 fitted0))) = true /\
  assigned (gam_results (fst (fit T_int X0 y0 fitted0))) = true.
Proof.
  split; [exact fit0_returns|].
  repeat (split; [vm_compute; reflexivity|]).
  vm_compute; reflexivity.
Qed.

End Worked.

(** *** The theorems at the sample data *)

Section Instances.
Import Stub.
Open Scope Q_scope.

Lemma calculate_CDRC_table_at_sample :
  exists table,
    snd (calculate_CDRC (PyFloat (95 # 100)) fitted0) = Ok table /\
    List.length table = 10%nat /\
    forall i, (i < 10)%nat ->
      TableRow.Lower_CI (nth i table (TableRow.mk 0 0 0 0))
        <= TableRow.CDRC (nth i table (TableRow.mk 0 0 0 0)) /\
      TableRow.CDRC (nth i table (TableRow.mk 0 0 0 0))
        <= TableRow.Upper_CI (nth i table (TableRow.mk 0 0 0 0)).
Proof.
  destruct (calculate_CDRC_table model0 fitted0 T0 X0 y0 10 (95 # 100))
    as (grid & matrix & gam & self' & preds & table
        & _ & _ & _ & Hcall & _ & Hlen & _ & Hrows).
  - reflexivity.
  - lia.
  - exact fit0_returns.
  - split; reflexivity.
  - apply stub_intervals_bracket. reflexivity.
  - exists table. split; [now rewrite Hcall|]. split; [exact Hlen|].
    intros i Hi. pose proof (Hrows i Hi) as Hrow. cbv zeta in Hrow.
    destruct Hrow as (_ & _ & _ & _ & _ & _ & _ & _ & Hlo & Hup).
    split; assumption.
Defined.

Lemma fit_grid_is_quantiles_at_sample :
  exists grid,
    grid_values fitted0 = Some grid /\
    List.length grid = 10%nat /\
    (exists sorted,
        Permutation sorted (values T0) /\
        StronglySorted Qle sorted /\
        nth 1 grid 0 == linear_quantile sorted (inject_Z 1 / inject_Z 9)) /\
    is_minimum (hd 0 grid) (values T0) /\
    is_maximum (last grid 0) (values T0).
Proof.
  destruct (fit_grid_is_quantiles model0 T0 X0 y0 10)
    as (grid & _ & Hg & Hlen & _ & (sorted & Hperm & Hsorted & Hq)
        & Hmin & Hmax).
  - reflexivity.
  - lia.
  - discriminate.
  - reflexivity.
  - exists grid.
    split; [exact Hg|]. split; [exact Hlen|].
    split; [|split; [exact Hmin | exact Hmax]].
    exists sorted. split; [exact Hperm|]. split; [exact Hsorted|].
    apply (Hq 1%nat). simpl. lia.
Defined.


Lemma calculate_CDRC_stores_predictions_at_sample :
  exists preds,
    snd (_cdrc_predictions ci0 fitted0) = Ok preds /\
    _cdrc_preds after0 = Some preds.
Proof.
  destruct (calculate_CDRC_stores_predictions fitted0 after0 ci0 table0
              calculate0_returns)
    as (preds & Hp & Hs & _).
  exists preds. split; assumption.
Defined.

Lemma fit_ignores_max_iter_at_sample :
  gam_results
    (fst (fit T0 X0 y0
            (store_params (E := externals) PyNone (PyInt 10) (PyInt 3) (PyInt 30)
                          (PyFloat (1 # 2)) (PyInt 100) (PyBool false))))
  = gam_results
      (fst (fit T0 X0 y0
              (store_params (E := externals) PyNone (PyInt 10) (PyInt 3) (PyInt 30)
                            (PyFloat (1 # 2)) (PyInt 250) (PyBool false)))).
Proof.
  destruct (fit_ignores_max_iter (E := externals)
              PyNone (PyInt 10) (PyInt 3) (PyInt 30)
              (PyFloat (1 # 2)) (PyBool false) (PyInt 100) (PyInt 250)
              _ _ T0 X0 y0 eq_refl eq_refl) as (_ & Hgam & _).
  exact Hgam.
Defined.


Lemma fit_refused_data_frame_at_sample :
  exists what,
    fit T_int X0 y0 model0
      = (set_y y0 (set_X X0 (set_T T_int model0)), Raise (TypeError what)).
Proof.
  destruct (fit_refused_data_frame model0 T_int X0 y0 eq_refl)
    as (what & _ & Hrun & _).
  now exists what.
Defined.

Lemma calculate_CDRC_twice_at_sample :
  calculate_CDRC ci0 after0 = (after0, Ok table0).
Proof.
  exact (calculate_CDRC_twice fitted0 after0 ci0 table0 calculate0_returns).
Defined.

Lemma bool_for_int_param_at_sample :
  __init__ (E := externals) PyNone (PyBool true) (PyInt 3) (PyInt 30)
           (PyFloat (1 # 2)) (PyInt 100) (PyBool false)
  = Raise (ValueError "treatment_grid_num").
Proof.
  destruct (bool_for_int_param_meets_range_check (E := externals)
              PyNone (PyInt 10) (PyInt 3) (PyInt 30) (PyFloat (1 # 2))
              (PyInt 100) (PyBool false) true) as (_ & _ & Hrange).
  destruct (Hrange model0_valid) as (Hgrid & _).
  exact Hgrid.
Defined.

End Instances.
(** * Further properties of the class *)

(** ** The constructor *)

Section ConstructorMore.
Context {E : Externals}.

(** X1.  The constructor returns an instance exactly when the family is
    [None], ['normal'], ['lognormal'] or ['gamma'], the grid size an integer
    in [10, 1000), the spline order an integer in [1, 30), the number of
    splines an integer in [2, 100), the penalty a float that is neither
    [<= 0] nor [>= 1000] (a finite float in (0, 1000), or nan, which no
    comparison rejects), the iteration cap an integer in (10, 1000000) and
    [verbose] a boolean; the instance then holds the seven parameters and
    nothing else. *)
Theorem init_accepts_exactly_valid :
  forall (f g so ns l mi v : value) (self : CDRC),
    __init__ f g so ns l mi v = Ok self <->
    valid_params (store_params f g so ns l mi v) /\
    self = store_params f g so ns l mi v.
Proof.
  intros f g so ns l mi v self. split.
  - unfold __init__. intro H.
    destruct (_validate_init_params (store_params f g so ns l mi v))
      as [[]|e] eqn:Hv; [|discriminate].
    simpl in H. injection H as <-. split; [|reflexivity].
    now apply validate_init_sound.
  - intros [Hv ->]. now apply init_ok.
Qed.

(** X2.  The family is checked before every other parameter: a family that
    is neither a string nor [None] raises the type error of [gps_family],
    and a string other than the three names its value error, whatever the
    other arguments are. *)
Theorem init_checks_family_first :
  forall (f g so ns l mi v : value),
    (isinstance_str_or_NoneType f = false ->
     __init__ f g so ns l mi v = Raise (TypeError "gps_family")) /\
    (forall s, f = PyStr s ->
               str_in s ["normal"; "lognormal"; "gamma"] = false ->
     __init__ f g so ns l mi v = Raise (ValueError "gps_family")).
Proof.
  intros f g so ns l mi v. split.
  - intro Hf. unfold __init__, _validate_init_params, store_params.
    cbn [gps_family]. rewrite raise_if_then, Hf. reflexivity.
  - intros s -> Hs. unfold __init__, _validate_init_params, store_params.
    cbn [gps_family]. rewrite !raise_if_then.
    cbn [isinstance_str_or_NoneType isinstance_str negb andb].
    rewrite Hs. reflexivity.
Qed.

(** X3.  Unlike the integer parameters, the penalty and the verbosity are
    strict about their type.  With the family, the grid size, the spline
    order and the number of splines acceptable, and whatever [max_iter] and
    [verbose] are, a [lambda_] that is not a float (an integer such as 1, or
    a boolean) raises the type error of [lambda_], and a float
    [lambda_ <= 0] or [lambda_ >= 1000] (an infinity among them) its value
    error.  With the six parameters before it acceptable, a [verbose] that
    is not a boolean (such as the integer 1) raises the type error of
    [verbose]. *)
Theorem init_penalty_and_verbosity_are_strict :
  forall (f g so ns l mi v l' mi' v' : value),
    valid_params (store_params f g so ns l mi v) ->
    (isinstance_float l' = false ->
     __init__ f g so ns l' mi' v' = Raise (TypeError "lambda_")) /\
    (forall q, l' = PyFloat q -> (q <= 0 \/ 1000 <= q)%Q ->
     __init__ f g so ns l' mi' v' = Raise (ValueError "lambda_")) /\
    (forall positive, l' = PyInf positive ->
     __init__ f g so ns l' mi' v' = Raise (ValueError "lambda_")) /\
    (isinstance_bool v' = false ->
     __init__ f g so ns l mi v' = Raise (TypeError "verbose")).
Proof.
  intros f g so ns l mi v l' mi' v' H.
  apply validate_init_complete in H.
  unfold _validate_init_params, store_params in H.
  cbn [gps_family treatment_grid_num spline_order n_splines lambda_ max_iter
       verbose] in H.
  repeat match type of H with
         | (raise_if ?c ?e ;;; ?k)%res = Ok _ =>
             let Hc := fresh "Hc" in
             rewrite raise_if_then in H; destruct c eqn:Hc; [discriminate H|]
         end.
  split; [|split; [|split]].
  - intro Hl. unfold __init__, _validate_init_params, store_params.
    cbn [gps_family treatment_grid_num spline_order n_splines lambda_
         max_iter verbose].
    rewrite !raise_if_then.
    repeat match goal with
           | Hc : ?c = false |- context [?c] => rewrite Hc
           end.
    reflexivity.
  - intros q -> Hq. unfold __init__, _validate_init_params, store_params.
    cbn [gps_family treatment_grid_num spline_order n_splines lambda_
         max_iter verbose].
    rewrite !raise_if_then.
    repeat match goal with
           | Hc : ?c = false |- context [?c] => rewrite Hc
           end.
    cbn [isinstance_float negb andb float_le float_ge].
    destruct Hq as [Hq|Hq].
    + apply Qle_bool_iff in Hq. rewrite Hq. reflexivity.
    + destruct (Qle_bool q 0); [reflexivity|].
      apply Qle_bool_iff in Hq. rewrite Hq. reflexivity.
  - intros positive ->. unfold __init__, _validate_init_params, store_params.
    cbn [gps_family treatment_grid_num spline_order n_splines lambda_
         max_iter verbose].
    rewrite !raise_if_then.
    repeat match goal with
           | Hc : ?c = false |- context [?c] => rewrite Hc
           end.
    cbn [isinstance_float negb andb float_le float_ge].
    destruct positive; reflexivity.
  - intro Hv'. unfold __init__, _validate_init_params, store_params.
    cbn [gps_family treatment_grid_num spline_order n_splines lambda_
         max_iter verbose].
    rewrite !raise_if_then.
    repeat match goal with
           | Hc : ?c = false |- context [?c] => rewrite Hc
           end.
    reflexivity.
Qed.

End ConstructorMore.

(** ** The GPS family *)

Section FamilyMore.
Context {E : Externals}.

Lemma create_normal_reads_data :
  respects only_T_and_X _create_normal_gps_function.
Proof. unfold _create_normal_gps_function. respects_steps. Qed.

Lemma create_lognormal_reads_data :
  respects only_T_and_X _create_lognormal_gps_function.
Proof. unfold _create_lognormal_gps_function. respects_steps. Qed.

Lemma create_gamma_reads_data :
  respects only_T_and_X _create_gamma_gps_function.
Proof. unfold _create_gamma_gps_function. respects_steps. Qed.

Lemma find_best_reads_data : respects only_T_and_X _find_best_gps_model.
Proof.
  unfold _find_best_gps_model.
  apply respects_bind; [apply create_normal_reads_data | intro].
  apply respects_bind; [apply create_lognormal_reads_data | intro].
  apply respects_bind; [apply create_gamma_reads_data | intro].
  respects_steps.
Qed.

Lemma family_fitter_read_only name fitter :
  family_fitter name = Some fitter -> read_only fitter.
Proof.
  unfold family_fitter. intro H.
  destruct (String.eqb name "normal");
    [injection H as <-; apply create_normal_read_only|].
  destruct (String.eqb name "lognormal");
    [injection H as <-; apply create_lognormal_read_only|].
  destruct (String.eqb name "gamma");
    [injection H as <-; apply create_gamma_read_only | discriminate].
Qed.

Lemma family_fitter_reads_data name fitter :
  family_fitter name = Some fitter -> respects only_T_and_X fitter.
Proof.
  unfold family_fitter. intro H.
  destruct (String.eqb name "normal");
    [injection H as <-; apply create_normal_reads_data|].
  destruct (String.eqb name "lognormal");
    [injection H as <-; apply create_lognormal_reads_data|].
  destruct (String.eqb name "gamma");
    [injection H as <-; apply create_gamma_reads_data | discriminate].
Qed.

Lemma fit_from_gps_keeps_function : keeps gps_function fit_from_gps.
Proof. unfold fit_from_gps. keeps_steps. Qed.

Lemma fit_from_gps_keeps_deviance : keeps gps_deviance fit_from_gps.
Proof. unfold fit_from_gps. keeps_steps. Qed.

(** [fit] up to the choice of the family, on inputs that pass the
    validation. *)
Lemma fit_reaches_family self0 T_ X_ y_ n :
  treatment_grid_num self0 = PyInt n -> 2 <= n ->
  values T_ <> [] -> refused_fit_data T_ X_ y_ = false ->
  fit T_ X_ y_ self0
  = bind fit_from_family (fun _ => fit_from_gps)
      (set_grid_values (grid_of (values T_) n)
         (set_y y_ (set_X X_ (set_T T_ self0)))).
Proof.
  intros Hn H2 Hne Hok. rewrite fit_run. cbv zeta.
  rewrite (validate_fit_data_eval _ T_ X_ y_) by reflexivity.
  unfold refused_fit_data in Hok.
  apply orb_false_iff in Hok. destruct Hok as [Hok Hy].
  apply orb_false_iff in Hok. destruct Hok as [HT HX].
  rewrite HT, HX, Hy. simpl snd. cbv iota.
  rewrite (grid_values_eval _ T_ n) by (auto || reflexivity).
  reflexivity.
Qed.

(** X4.  When the three fitters return, the selection returns one of their
    three results, and its deviance is the least of the three; the
    lognormal model is returned only if its deviance is strictly below the
    normal one, the gamma model only if its deviance is strictly below both
    others: on equal deviances the earlier of normal, lognormal, gamma is
    kept. *)
Theorem find_best_gps_model_outcome :
  forall (self : CDRC) (fn fl fg : GpsFunction) (dn dl dg : Q),
    snd (_create_normal_gps_function self) = Ok (fn, dn) ->
    snd (_create_lognormal_gps_function self) = Ok (fl, dl) ->
    snd (_create_gamma_gps_function self) = Ok (fg, dg) ->
    exists name f d,
      _find_best_gps_model self = (self, Ok (name, f, d)) /\
      (d <= dn /\ d <= dl /\ d <= dg)%Q /\
      ((name, f, d) = ("normal_gps_model", fn, dn) \/
       (name, f, d) = ("lognormal_gps_model", fl, dl) /\ (dl < dn)%Q \/
       (name, f, d) = ("gamma_gps_model", fg, dg) /\
         (dg < dn)%Q /\ (dg < dl)%Q).
Proof.
  intros self fn fl fg dn dl dg Hn Hl Hg.
  pose proof (find_best_gps_model_selects _ _ _ _ _ _ _ Hn Hl Hg) as Hsel.
  rewrite (read_only_run _ find_best_read_only self), Hsel.
  destruct (Qlt_bool dl dn) eqn:H1.
  - apply Qlt_bool_iff in H1. destruct (Qlt_bool dg dl) eqn:H2.
    + apply Qlt_bool_iff in H2.
      assert (dg < dn)%Q by (eapply Qlt_trans; eauto).
      exists "gamma_gps_model", fg, dg. split; [reflexivity|].
      split; [repeat split; auto using Qlt_le_weak, Qle_refl|].
      right. right. auto.
    + apply Qlt_bool_false_iff in H2.
      exists "lognormal_gps_model", fl, dl. split; [reflexivity|].
      split; [repeat split; auto using Qlt_le_weak, Qle_refl|].
      right. left. auto.
  - apply Qlt_bool_false_iff in H1. destruct (Qlt_bool dg dn) eqn:H2.
    + apply Qlt_bool_iff in H2.
      assert (dg < dl)%Q by (eapply Qlt_le_trans; eauto).
      exists "gamma_gps_model", fg, dg. split; [reflexivity|].
      split; [repeat split; auto using Qlt_le_weak, Qle_refl|].
      right. right. auto.
    + apply Qlt_bool_false_iff in H2.
      exists "normal_gps_model", fn, dn. split; [reflexivity|].
      split; [repeat split; auto using Qle_refl|].
      left. reflexivity.
Qed.

(** X5.  With no family given, [fit] needs all three families to be
    fitted: when any of the three fitters raises on the data, [fit] raises
    the same exception, also when an earlier fitter had returned.  The
    instance is then left with [T], [X], [y] and the grid assigned,
    [best_gps_family] set to [None], and the GPS function as it was before
    the call. *)
Theorem fit_selection_needs_every_family :
  forall (self0 : CDRC) (T_ : Series) (X_ : DataFrame) (y_ : Series)
         (n : Z) (e : exn),
    gps_family self0 = PyNone ->
    treatment_grid_num self0 = PyInt n -> 2 <= n ->
    values T_ <> [] -> refused_fit_data T_ X_ y_ = false ->
    (let data := set_X X_ (set_T T_ self0) in
     snd (_create_normal_gps_function data) = Raise e \/
     (exists r, snd (_create_normal_gps_function data) = Ok r /\
                snd (_create_lognormal_gps_function data) = Raise e) \/
     (exists r r', snd (_create_normal_gps_function data) = Ok r /\
                   snd (_create_lognormal_gps_function data) = Ok r' /\
                   snd (_create_gamma_gps_function data) = Raise e)) ->
    snd (fit T_ X_ y_ self0) = Raise e /\
    (let self := fst (fit T_ X_ y_ self0) in
     T self = Some T_ /\ X self = Some X_ /\ y self = Some y_ /\
     assigned (grid_values self) = true /\
     best_gps_family self = Some PyNone /\
     gps_function self = gps_function self0).
Proof.
  intros self0 T_ X_ y_ n e Hfam Hn H2 Hne Hok Hraise. cbv zeta in Hraise.
  rewrite (fit_reaches_family self0 T_ X_ y_ n) by assumption.
  set (s := set_grid_values (grid_of (values T_) n)
              (set_y y_ (set_X X_ (set_T T_ self0)))).
  assert (Hbest : snd (_find_best_gps_model (set_best_gps_family PyNone s))
                  = Raise e).
  { set (s' := set_best_gps_family PyNone s).
    assert (Hd : only_T_and_X (set_X X_ (set_T T_ self0)) = only_T_and_X s')
      by reflexivity.
    destruct (create_normal_reads_data _ _ Hd) as [_ Hrn].
    destruct (create_lognormal_reads_data _ _ Hd) as [_ Hrl].
    destruct (create_gamma_reads_data _ _ Hd) as [_ Hrg].
    destruct (find_best_gps_model_runs_all s') as (R1 & R2 & R3).
    destruct Hraise as [Hr | [(r & Hr1 & Hr2) | (r & r' & Hr1 & Hr2 & Hr3)]].
    - apply R1. now rewrite <- Hrn.
    - apply (R2 r); [now rewrite <- Hrn | now rewrite <- Hrl].
    - apply (R3 r r');
        [now rewrite <- Hrn | now rewrite <- Hrl | now rewrite <- Hrg]. }
  assert (Hrun : bind fit_from_family (fun _ => fit_from_gps) s
                 = (set_best_gps_family PyNone s, Raise e)).
  { unfold fit_from_family.
    rewrite bind_assoc. unfold bind at 1. unfold read at 1.
    change (gps_family s) with (gps_family self0). rewrite Hfam.
    rewrite bind_assoc, bind_assign.
    change (Py.eqb PyNone PyNone) with true. cbv iota.
    rewrite bind_assoc.
    rewrite bind_read_only by apply find_best_read_only.
    now rewrite Hbest. }
  rewrite Hrun. split; [reflexivity|]. cbv zeta. repeat split.
Qed.

(** X6.  With a family given to the constructor, [fit] calls the fitter of
    that family only: when [fit] returns, [best_gps_family] is the name
    given, and the GPS function and deviance on the instance are the ones
    that fitter returns on the data. *)
Theorem fit_with_given_family :
  forall (self0 self : CDRC) (T_ : Series) (X_ : DataFrame) (y_ : Series)
         (name : string) (fitter : M (GpsFunction * Q)),
    gps_family self0 = PyStr name ->
    family_fitter name = Some fitter ->
    fit T_ X_ y_ self0 = (self, Ok tt) ->
    best_gps_family self = Some (PyStr name) /\
    exists f d,
      snd (fitter (set_X X_ (set_T T_ self0))) = Ok (f, d) /\
      gps_function self = Some f /\
      gps_deviance self = Some d.
Proof.
  intros self0 self T_ X_ y_ name fitter Hfam Hfit H.
  rewrite fit_run in H. cbv zeta in H.
  set (s := set_y y_ (set_X X_ (set_T T_ self0))) in *.
  destruct (snd (_validate_fit_data s)); [|discriminate].
  destruct (snd (_grid_values s)) as [grid|e]; [|discriminate].
  apply bind_returns in H. destruct H as (u & s5 & Hsel & H).
  pose proof (fit_from_gps_keeps_family s5) as K1.
  pose proof (fit_from_gps_keeps_function s5) as K2.
  pose proof (fit_from_gps_keeps_deviance s5) as K3.
  rewrite H in K1, K2, K3. simpl fst in K1, K2, K3.
  rewrite K1, K2, K3. clear H K1 K2 K3.
  unfold fit_from_family in Hsel.
  unfold bind at 1 in Hsel. unfold read at 1 in Hsel.
  change (gps_family (set_grid_values grid s)) with (gps_family self0) in Hsel.
  rewrite Hfam in Hsel. rewrite bind_assign in Hsel.
  change (Py.eqb (PyStr name) PyNone) with false in Hsel. cbv iota in Hsel.
  unfold bind at 1 in Hsel. unfold getattr at 1 in Hsel.
  cbn [best_gps_family set_best_gps_family] in Hsel.
  set (s' := set_best_gps_family (PyStr name) (set_grid_values grid s)) in *.
  assert (Hd : only_T_and_X (set_X X_ (set_T T_ self0)) = only_T_and_X s')
    by reflexivity.
  destruct (family_fitter_reads_data _ _ Hfit _ _ Hd) as [_ Hr].
  rewrite Hr.
  pose proof (family_fitter_read_only _ _ Hfit) as Hro.
  assert (Hchain :
    exists f d, snd (fitter s') = Ok (f, d) /\
                s5 = set_gps_deviance d (set_gps_function f s')).
  { unfold family_fitter in Hfit.
    change (Py.eqb (PyStr name) (PyStr "normal"))
      with (String.eqb name "normal") in Hsel.
    change (Py.eqb (PyStr name) (PyStr "lognormal"))
      with (String.eqb name "lognormal") in Hsel.
    change (Py.eqb (PyStr name) (PyStr "gamma"))
      with (String.eqb name "gamma") in Hsel.
    destruct (String.eqb name "normal").
    { injection Hfit as <-.
      rewrite bind_read_only in Hsel by exact Hro.
      destruct (snd (_create_normal_gps_function s')) as [[f d]|];
        [|discriminate].
      rewrite !bind_assign in Hsel. unfold assign in Hsel.
      injection Hsel as <-. now exists f, d. }
    destruct (String.eqb name "lognormal").
    { injection Hfit as <-.
      rewrite bind_read_only in Hsel by exact Hro.
      destruct (snd (_create_lognormal_gps_function s')) as [[f d]|];
        [|discriminate].
      rewrite !bind_assign in Hsel. unfold assign in Hsel.
      injection Hsel as <-. now exists f, d. }
    destruct (String.eqb name "gamma"); [|discriminate].
    injection Hfit as <-.
    rewrite bind_read_only in Hsel by exact Hro.
    destruct (snd (_create_gamma_gps_function s')) as [[f d]|];
      [|discriminate].
    rewrite !bind_assign in Hsel. unfold assign in Hsel.
    injection Hsel as <-. now exists f, d. }
  destruct Hchain as (f & d & Hf & ->).
  split; [reflexivity|]. exists f, d. repeat split. exact Hf.
Qed.

Lemma fit_respects_lambda T_ X_ y_ : respects forget_lambda (fit T_ X_ y_).
Proof.
  unfold fit, _validate_fit_data, _grid_values, _find_best_gps_model,
    _create_normal_gps_function, _create_lognormal_gps_function,
    _create_gamma_gps_function, _fit_gam, _gps_values_at_grid.
  respects_steps.
Qed.

Lemma calculate_CDRC_respects_lambda ci :
  respects forget_lambda (calculate_CDRC ci).
Proof.
  unfold calculate_CDRC, _validate_calculate_CDRC_params, _cdrc_predictions,
    results_table.
  respects_steps.
Qed.

(** X7.  The smoothing penalty [lambda_] is validated by the constructor
    and used nowhere else: two instances that differ only in [lambda_] end
    [fit] the same way, with the same attributes apart from [lambda_]
    (the same outcome model among them), and give the same outcome of
    [calculate_CDRC]. *)
Theorem fit_ignores_lambda :
  forall (f g so ns mi v l1 l2 : value) (self1 self2 : CDRC)
         (T_ : Series) (X_ : DataFrame) (y_ : Series),
    __init__ f g so ns l1 mi v = Ok self1 ->
    __init__ f g so ns l2 mi v = Ok self2 ->
    snd (fit T_ X_ y_ self1) = snd (fit T_ X_ y_ self2) /\
    forget_lambda (fst (fit T_ X_ y_ self1))
      = forget_lambda (fst (fit T_ X_ y_ self2)) /\
    gam_results (fst (fit T_ X_ y_ self1))
      = gam_results (fst (fit T_ X_ y_ self2)) /\
    (forall ci,
        snd (calculate_CDRC ci (fst (fit T_ X_ y_ self1)))
        = snd (calculate_CDRC ci (fst (fit T_ X_ y_ self2)))).
Proof.
  intros f g so ns mi v l1 l2 self1 self2 T_ X_ y_ H1 H2.
  unfold __init__ in H1, H2.
  destruct (_validate_init_params (store_params f g so ns l1 mi v));
    [|discriminate].
  destruct (_validate_init_params (store_params f g so ns l2 mi v));
    [|discriminate].
  injection H1 as <-. injection H2 as <-.
  destruct (fit_respects_lambda T_ X_ y_
              (store_params f g so ns l1 mi v)
              (store_params f g so ns l2 mi v) eq_refl) as [Hs Hr].
  split; [exact Hr|]. split; [exact Hs|]. split.
  - change (gam_results (forget_lambda
              (fst (fit T_ X_ y_ (store_params f g so ns l1 mi v))))
            = gam_results (forget_lambda
              (fst (fit T_ X_ y_ (store_params f g so ns l2 mi v))))).
    now rewrite Hs.
  - intro ci. apply (calculate_CDRC_respects_lambda ci _ _ Hs).
Qed.

End FamilyMore.

(** ** The fit inputs and the grid *)

Section FitMore.
Context {E : Externals}.
Open Scope Q_scope.



Lemma fit_stores_grid_of self0 T_ X_ y_ n :
  treatment_grid_num self0 = PyInt n -> (2 <= n)%Z ->
  values T_ <> [] -> refused_fit_data T_ X_ y_ = false ->
  grid_values (fst (fit T_ X_ y_ self0)) = Some (grid_of (values T_) n).
Proof.
  intros Hn H2 Hne Hok.
  rewrite (fit_reaches_family self0 T_ X_ y_ n) by assumption.
  assert (Hk : keeps grid_values (bind fit_from_family (fun _ => fit_from_gps))).
  { apply keeps_bind; [apply fit_from_family_keeps_grid|].
    intro. apply fit_from_gps_keeps_grid. }
  now rewrite Hk.
Qed.

Lemma minimum_unique m m' l : is_minimum m l -> is_minimum m' l -> m == m'.
Proof.
  intros [[x [Hx Hxm]] Hle] [[x' [Hx' Hxm']] Hle'].
  apply Qle_antisym.
  - rewrite <- Hxm'. now apply Hle.
  - rewrite <- Hxm. now apply Hle'.
Qed.

Lemma maximum_unique m m' l : is_maximum m l -> is_maximum m' l -> m == m'.
Proof.
  intros [[x [Hx Hxm]] Hle] [[x' [Hx' Hxm']] Hle'].
  apply Qle_antisym.
  - rewrite <- Hxm. now apply Hle'.
  - rewrite <- Hxm'. now apply Hle.
Qed.

(** X9.  The grid never leaves the observed range of the treatment: every
    grid value lies between the least and the greatest value of [T]; in
    particular, when all observations have the same treatment, every grid
    value is that treatment. *)
Theorem fit_grid_within_sample_range :
  forall (self : CDRC) (T_ : Series) (X_ : DataFrame) (y_ : Series) (n : Z),
    treatment_grid_num self = PyInt n -> (2 <= n)%Z ->
    values T_ <> [] ->
    refused_fit_data T_ X_ y_ = false ->
    exists grid,
      grid_values (fst (fit T_ X_ y_ self)) = Some grid /\
      forall lo hi,
        is_minimum lo (values T_) -> is_maximum hi (values T_) ->
        Forall (fun g => lo <= g /\ g <= hi) grid /\
        (lo == hi -> Forall (fun g => g == lo) grid).
Proof.
  intros self T_ X_ y_ n Hn H2 Hne Hok.
  exists (grid_of (values T_) n).
  split; [now apply fit_stores_grid_of|].
  intros lo hi Hlo Hhi.
  assert (Hall : Forall (fun g => lo <= g /\ g <= hi) (grid_of (values T_) n)).
  { apply Forall_forall. intros g Hg.
    destruct (In_nth _ _ 0 Hg) as [i [Hi <-]].
    rewrite grid_of_length in Hi.
    pose proof (grid_of_first (values T_) n Hne H2) as Hfirst.
    pose proof (grid_of_last (values T_) n Hne H2) as Hlast.
    assert (Hhd : hd 0 (grid_of (values T_) n) = nth 0 (grid_of (values T_) n) 0)
      by now destruct (grid_of (values T_) n).
    rewrite Hhd in Hfirst.
    rewrite last_is_nth, grid_of_length in Hlast.
    rewrite (minimum_unique _ _ _ Hlo Hfirst).
    rewrite (maximum_unique _ _ _ Hhi Hlast).
    split; apply grid_of_mono; auto; lia. }
  split; [exact Hall|].
  intro Heq. eapply Forall_impl; [|exact Hall].
  intros g [H1 H3]. apply Qle_antisym; [now rewrite Heq | exact H1].
Qed.

End FitMore.

(** ** The fitted state *)

Section FittedMore.
Context {E : Externals}.
Open Scope Q_scope.

(** X10.  On an instance that was constructed and never fitted, a
    [calculate_CDRC] with an acceptable [ci] raises the attribute error of
    [T] and [print_gam_summary] the attribute error of [_gam_summary_str];
    both leave the instance as it was. *)
Theorem methods_before_fit_raise :
  forall (f g so ns l mi v : value) (self : CDRC) (q : Q),
    __init__ f g so ns l mi v = Ok self ->
    0 < q < 1 ->
    calculate_CDRC (PyFloat q) self = (self, Raise (AttributeError "T")) /\
    print_gam_summary self
      = (self, Raise (AttributeError "_gam_summary_str")).
Proof.
  intros f g so ns l mi v self q Hinit Hq.
  unfold __init__ in Hinit.
  destruct (_validate_init_params (store_params f g so ns l mi v));
    [|discriminate].
  injection Hinit as <-. split; [|reflexivity].
  rewrite calculate_CDRC_run, (validate_ci_passes q _ Hq).
  reflexivity.
Qed.

(** What [fit] has done from the evaluation of the GPS on, when it
    returns. *)
Lemma fit_returns_tail self0 T_ X_ y_ self :
  fit T_ X_ y_ self0 = (self, Ok tt) ->
  exists s5 f g gam matrix,
    T s5 = Some T_ /\ y s5 = Some y_ /\
    gps_function s5 = Some f /\
    f (Np.Vector (values T_)) = Ok g /\
    snd (_fit_gam (set_gps g s5)) = Ok gam /\
    self = set_gps_at_grid matrix
             (set_gam_summary_str (gam_summary gam)
                (set_gam_results gam (set_gps g s5))).
Proof.
  intro H. rewrite fit_run in H. cbv zeta in H.
  set (s := set_y y_ (set_X X_ (set_T T_ self0))) in *.
  destruct (snd (_validate_fit_data s)); [|discriminate].
  destruct (snd (_grid_values s)) as [grid|e]; [|discriminate].
  apply bind_returns in H. destruct H as (u & s5 & Hfam & H).
  assert (HT5 : T s5 = Some T_).
  { pose proof (fit_from_family_keeps_T (set_grid_values grid s)) as K.
    rewrite Hfam in K. exact K. }
  assert (Hy5 : y s5 = Some y_).
  { pose proof (fit_from_family_keeps_y (set_grid_values grid s)) as K.
    rewrite Hfam in K. exact K. }
  clear Hfam. unfold fit_from_gps in H.
  unfold bind at 1 in H. unfold getattr at 1 in H.
  destruct (gps_function s5) as [f|] eqn:Hf; [|discriminate].
  unfold bind at 1 in H. unfold getattr at 1 in H. rewrite HT5 in H.
  unfold bind at 1 in H. unfold lift at 1 in H.
  destruct (f (Np.Vector (values T_))) as [g|] eqn:Hg; [|discriminate].
  rewrite bind_assign in H.
  rewrite bind_read_only in H by apply fit_gam_read_only.
  destruct (snd (_fit_gam (set_gps g s5))) as [gam|] eqn:Hgam; [|discriminate].
  rewrite !bind_assign in H.
  rewrite bind_read_only in H by apply gps_values_at_grid_read_only.
  destruct (snd (_gps_values_at_grid _)) as [matrix|]; [|discriminate].
  unfold assign in H. injection H as <-.
  exists s5, f, g, gam, matrix. repeat split; auto.
Qed.

(** X11.  After a fit that returned, [print_gam_summary] gives the summary
    of the outcome model the instance holds, and a later [calculate_CDRC],
    whatever its outcome, does not change that. *)
Theorem summary_is_of_the_fitted_model :
  forall (self0 self : CDRC) (T_ : Series) (X_ : DataFrame) (y_ : Series),
    fit T_ X_ y_ self0 = (self, Ok tt) ->
    exists gam,
      gam_results self = Some gam /\
      print_gam_summary self = (self, Ok (gam_summary gam)) /\
      forall ci,
        snd (print_gam_summary (fst (calculate_CDRC ci self)))
        = Ok (gam_summary gam).
Proof.
  intros self0 self T_ X_ y_ H.
  destruct (fit_returns_tail _ _ _ _ _ H)
    as (s5 & f & g & gam & matrix & _ & _ & _ & _ & _ & ->).
  exists gam. split; [reflexivity|]. split; [reflexivity|].
  intro ci. rewrite calculate_CDRC_run.
  destruct (snd (_validate_calculate_CDRC_params ci _)); [|reflexivity].
  destruct (snd (_cdrc_predictions ci _)); reflexivity.
Qed.

(** X12.  After a fit that returned (grid size [n], from 2 on), the
    attributes have matching shapes: the grid has [n] entries, the GPS
    values one entry per observation of [T], and the GPS-at-grid matrix [n]
    columns of one entry per observation each. *)
Theorem fit_shapes :
  forall (self0 self : CDRC) (T_ : Series) (X_ : DataFrame) (y_ : Series)
         (n : Z),
    treatment_grid_num self0 = PyInt n -> (2 <= n)%Z ->
    fit T_ X_ y_ self0 = (self, Ok tt) ->
    exists grid gps_ matrix,
      grid_values self = Some grid /\
      List.length grid = Z.to_nat n /\
      gps self = Some gps_ /\
      List.length gps_ = List.length (values T_) /\
      gps_at_grid self = Some matrix /\
      List.length matrix = Z.to_nat n /\
      Forall (fun column => List.length column = List.length (values T_))
             matrix.
Proof.
  intros self0 self T_ X_ y_ n Hn H2 H.
  destruct (fit_returns _ _ _ _ _ _ Hn H2 H) as (matrix & gam & Hf).
  destruct Hf as [Hne HT Hnum Hg Hgl Hm Hml Hmc Hgam].
  destruct (fit_returns_tail _ _ _ _ _ H)
    as (s5 & f & g & gam' & matrix' & HT5 & Hy5 & _ & _ & Hfg & Hself).
  exists (grid_of (values T_) n), g, matrix.
  repeat split; auto.
  - rewrite Hself. reflexivity.
  - unfold _fit_gam in Hfg.
    unfold bind at 1 in Hfg. unfold getattr at 1 in Hfg.
    change (T (set_gps g s5)) with (T s5) in Hfg. rewrite HT5 in Hfg.
    unfold bind at 1 in Hfg. unfold getattr at 1 in Hfg.
    cbn [gps set_gps] in Hfg.
    unfold bind at 1 in Hfg. unfold lift at 1 in Hfg.
    unfold Np.column_stack in Hfg.
    destruct (Nat.eqb_spec (List.length (values T_)) (List.length g));
      [congruence | discriminate].
Qed.

End FittedMore.

(** ** Calls of [calculate_CDRC] *)

Section CurveMore.
Context {E : Externals}.
Open Scope Q_scope.

Lemma Forall2_left_in {A B} (P : A -> B -> Prop) l l' x :
  Forall2 P l l' -> In x l -> exists y, P x y.
Proof.
  induction 1 as [|a b l l' Hab _ IH]; intro Hx; [contradiction|].
  destruct Hx as [<-|Hx]; [now exists b | now apply IH].
Qed.

(** Once the predictions are there, the table can be built. *)
Lemma results_table_after_predictions self ci preds :
  snd (_cdrc_predictions ci self) = Ok preds ->
  exists table, snd (results_table (set_cdrc_preds preds self)) = Ok table.
Proof.
  unfold _cdrc_predictions.
  unfold bind at 1. unfold getattr at 1.
  destruct (T self) as [T_|]; [|discriminate].
  unfold bind at 1. unfold read at 1.
  unfold bind at 1. unfold lift at 1.
  destruct (range (treatment_grid_num self)) as [indices|] eqn:Hrange;
    [|discriminate].
  rewrite bind_read_only by (apply read_only_for_each; intro; read_only_steps).
  destruct (snd (for_each indices _ self)) as [raw|] eqn:Hraw; [|discriminate].
  intro H. injection H as <-.
  apply for_each_read_only_ok in Hraw; [|intro; read_only_steps].
  assert (Hidx : exists k, indices = seq 0 k).
  { unfold range in Hrange.
    destruct (isinstance_int (treatment_grid_num self)); [|discriminate].
    injection Hrange as <-. eauto. }
  destruct Hidx as [k ->].
  pose proof (Forall2_length Hraw) as Hlen. rewrite length_seq in Hlen.
  destruct (grid_values self) as [grid|] eqn:Hgrid.
  - exists (map (row_of grid (round_tensor raw)) (seq 0 k)).
    unfold results_table.
    unfold bind at 1. unfold read at 1.
    change (treatment_grid_num (set_cdrc_preds (round_tensor raw) self))
      with (treatment_grid_num self).
    unfold bind at 1. unfold lift at 1. rewrite Hrange.
    apply for_each_read_only_map; [intro; read_only_steps|].
    intros i Hi.
    destruct (Forall2_left_in _ _ _ i Hraw Hi) as [slab Hslab].
    apply in_seq in Hi.
    unfold bind, getattr, lift, ret in Hslab |- *.
    cbn [grid_values _cdrc_preds set_cdrc_preds].
    rewrite Hgrid in Hslab |- *. simpl in Hslab |- *.
    unfold index in Hslab |- *.
    destruct (nth_error grid i) as [g|] eqn:Hg; [|discriminate].
    simpl. unfold row_of. rewrite (nth_error_nth _ _ 0 Hg).
    destruct (nth_error (round_tensor raw) i) as [sl|] eqn:Hs.
    + simpl. now rewrite (nth_error_nth _ _ (mkSlab [] [] []) Hs).
    + apply nth_error_None in Hs. unfold round_tensor in Hs.
      rewrite length_map in Hs. lia.
  - destruct k as [|k].
    + exists []. unfold results_table.
      unfold bind at 1. unfold read at 1.
      change (treatment_grid_num (set_cdrc_preds (round_tensor raw) self))
        with (treatment_grid_num self).
      unfold bind at 1. unfold lift at 1. rewrite Hrange. reflexivity.
    + exfalso. inversion Hraw as [|i slab l l' Hslab _]; subst.
      unfold bind, getattr in Hslab. rewrite Hgrid in Hslab. discriminate.
Qed.

(** X13.  A call of [calculate_CDRC] that raises, for whatever reason,
    leaves the instance exactly as it was: [_cdrc_preds] is assigned only
    in calls that return a table. *)
Theorem calculate_CDRC_raises_without_change :
  forall (self self' : CDRC) (ci : value) (e : exn),
    calculate_CDRC ci self = (self', Raise e) -> self' = self.
Proof.
  intros self self' ci e H. rewrite calculate_CDRC_run in H.
  destruct (snd (_validate_calculate_CDRC_params ci self));
    [|now injection H as <- _].
  destruct (snd (_cdrc_predictions ci self)) as [preds|e'] eqn:Hp;
    [|now injection H as <- _].
  destruct (results_table_after_predictions _ _ _ Hp) as [table Ht].
  rewrite Ht in H. discriminate.
Qed.

(** X14.  The outcome of [calculate_CDRC] does not depend on earlier calls:
    after a call with any [ci1], whatever its outcome, a call with [ci2]
    gives what it would have given without the first call. *)
Theorem calculate_CDRC_ignores_earlier_calls :
  forall (self : CDRC) (ci1 ci2 : value),
    snd (calculate_CDRC ci2 (fst (calculate_CDRC ci1 self)))
    = snd (calculate_CDRC ci2 self).
Proof.
  intros self ci1 ci2.
  assert (Hs : fst (calculate_CDRC ci1 self) = self \/
               exists preds,
                 fst (calculate_CDRC ci1 self) = set_cdrc_preds preds self).
  { rewrite calculate_CDRC_run.
    destruct (snd (_validate_calculate_CDRC_params ci1 self)); [|now left].
    destruct (snd (_cdrc_predictions ci1 self)) as [preds|]; [|now left].
    right. now exists preds. }
  destruct Hs as [-> | [preds1 ->]]; [reflexivity|].
  rewrite !calculate_CDRC_run. rewrite !validate_ci_eval. simpl snd.
  destruct (if negb (isinstance_float ci2) then _ else _); [|reflexivity].
  destruct (cdrc_predictions_respects_preds ci2
              (set_cdrc_preds preds1 self) self eq_refl) as [_ ->].
  destruct (snd (_cdrc_predictions ci2 self)); reflexivity.
Qed.

(** *** Rounding before averaging *)

Lemma rint_error x :
  - (1 # 2) <= inject_Z (Np.rint x) - x /\ inject_Z (Np.rint x) - x <= 1 # 2.
Proof.
  unfold Np.rint.
  pose proof (Qfloor_le x) as H1. pose proof (Qlt_floor x) as H2.
  rewrite inject_Z_plus in H2. change (inject_Z 1) with 1 in H2.
  destruct (Qcompare_spec (x - inject_Z (Qfloor x)) (1 # 2)) as [H|H|H].
  - destruct (Z.even (Qfloor x)).
    + split; lra.
    + rewrite inject_Z_plus. change (inject_Z 1) with 1. split; lra.
  - split; lra.
  - rewrite inject_Z_plus. change (inject_Z 1) with 1. split; lra.
Qed.

Lemma round3_error x :
  - (1 # 2000) <= Np.round x 3 - x /\ Np.round x 3 - x <= 1 # 2000.
Proof.
  unfold Np.round. change (inject_Z (10 ^ Z.of_nat 3)) with (1000 # 1).
  destruct (rint_error (x * (1000 # 1))) as [H1 H2].
  set (r := inject_Z (Np.rint (x * (1000 # 1)))) in *.
  assert (Hr : r / (1000 # 1) == r * (1 # 1000)) by (field; discriminate).
  rewrite Hr. split; lra.
Qed.

Lemma Qsum_map_close {A} (f g : A -> Q) (l : list A) (eps : Q) :
  (forall x, In x l -> - eps <= f x - g x /\ f x - g x <= eps) ->
  - (inject_Z (Z.of_nat (List.length l)) * eps)
    <= Np.Qsum (map f l) - Np.Qsum (map g l) /\
  Np.Qsum (map f l) - Np.Qsum (map g l)
    <= inject_Z (Z.of_nat (List.length l)) * eps.
Proof.
  induction l as [|a l IH]; intro H.
  - change (inject_Z (Z.of_nat (List.length (@nil A)))) with 0.
    simpl. split; lra.
  - destruct (H a (or_introl eq_refl)) as [Ha1 Ha2].
    destruct IH as [IH1 IH2]; [intros; apply H; now right|].
    simpl List.length. rewrite Nat2Z.inj_succ. unfold Z.succ.
    rewrite inject_Z_plus. change (inject_Z 1) with 1.
    simpl map. simpl Np.Qsum. split; lra.
Qed.

Lemma mean_map_close {A} (f g : A -> Q) (l : list A) (eps : Q) :
  0 <= eps ->
  (forall x, In x l -> - eps <= f x - g x /\ f x - g x <= eps) ->
  Qabs (Np.mean (map f l) - Np.mean (map g l)) <= eps.
Proof.
  intros Heps H. apply Qabs_Qle_condition.
  destruct (Qsum_map_close f g l eps H) as [H1 H2].
  unfold Np.mean. rewrite !length_map.
  destruct l as [|a l].
  - simpl. split; lra.
  - set (N := inject_Z (Z.of_nat (List.length (a :: l)))) in *.
    assert (HN : 0 < N).
    { apply inject_Z_pos. simpl List.length. lia. }
    set (sf := Np.Qsum (map f (a :: l))) in *.
    set (sg := Np.Qsum (map g (a :: l))) in *.
    assert (Hd : sf / N - sg / N == (sf - sg) / N) by (field; lra).
    rewrite Hd. split.
    + apply Qle_shift_div_l; [exact HN|]. lra.
    + apply Qle_shift_div_r; [exact HN|]. lra.
Qed.

(** X15.  Rounding the predictions before averaging moves the reported
    values by at most 0.0005: on a fitted instance and for an acceptable
    [ci], each [CDRC], [Lower_CI] and [Upper_CI] of the table is within
    1/2000 of the mean over the observations of the unrounded prediction,
    lower bound and upper bound of the outcome model (the mean being the
    number that, times the number of observations, gives the sum). *)
Theorem table_within_half_a_thousandth :
  forall (self0 self : CDRC) (T_ : Series) (X_ : DataFrame) (y_ : Series)
         (n : Z) (q : Q),
    treatment_grid_num self0 = PyInt n -> (2 <= n)%Z ->
    fit T_ X_ y_ self0 = (self, Ok tt) ->
    0 < q < 1 ->
    exists grid matrix gam table,
      grid_values self = Some grid /\
      gps_at_grid self = Some matrix /\
      gam_results self = Some gam /\
      snd (calculate_CDRC (PyFloat q) self) = Ok table /\
      (0 < List.length (values T_))%nat /\
      forall i, (i < Z.to_nat n)%nat ->
        let row := nth i table (TableRow.mk 0 0 0 0) in
        let rows :=
          query_rows (List.length (values T_)) (nth i grid 0) (nth i matrix []) in
        let nobs := inject_Z (Z.of_nat (List.length (values T_))) in
        List.length rows = List.length (values T_) /\
        exists mean_point mean_lower mean_upper : Q,
          mean_point * nobs == total (map (gam_predict gam) rows) /\
          mean_lower * nobs
          == total (map (fun r =>
                           fst (gam_prediction_intervals gam (PyFloat q) r))
                        rows) /\
          mean_upper * nobs
          == total (map (fun r =>
                           snd (gam_prediction_intervals gam (PyFloat q) r))
                        rows) /\
          Qabs (TableRow.CDRC row - mean_point) <= 1 # 2000 /\
          Qabs (TableRow.Lower_CI row - mean_lower) <= 1 # 2000 /\
          Qabs (TableRow.Upper_CI row - mean_upper) <= 1 # 2000.
Proof.
  intros self0 self T_ X_ y_ n q Hn H2 Hfit [Hq0 Hq1].
  destruct (fit_returns _ _ _ _ _ _ Hn H2 Hfit) as (matrix & gam & Hf).
  pose proof (calculate_CDRC_fitted self T_ n _ matrix gam q Hf Hq0 Hq1) as Hcall.
  cbv zeta in Hcall.
  set (grid := grid_of (values T_) n) in *.
  set (preds := predictions_of gam (PyFloat q) (List.length (values T_))
                               grid matrix n) in *.
  exists grid, matrix, gam, (map (row_of grid preds) (seq 0 (Z.to_nat n))).
  destruct Hf as [Hne HT Hnum Hg Hgl Hm Hml Hmc Hgam].
  split; [exact Hg|]. split; [exact Hm|]. split; [exact Hgam|].
  split; [now rewrite Hcall|].
  split; [destruct (values T_); [congruence | simpl; lia]|].
  intros i Hi. cbv zeta.
  assert (Hrows : List.length
                    (query_rows (List.length (values T_)) (nth i grid 0)
                                (nth i matrix []))
                  = List.length (values T_)).
  { apply query_rows_length.
    rewrite Forall_forall in Hmc. apply Hmc, nth_In. lia. }
  split; [exact Hrows|].
  rewrite (nth_map_seq (row_of grid preds)) by assumption.
  unfold row_of, preds. rewrite predictions_of_nth by assumption.
  set (rows := query_rows (List.length (values T_)) (nth i grid 0)
                          (nth i matrix [])) in *.
  exists (Np.mean (map (gam_predict gam) rows)),
    (Np.mean (map (fun r => fst (gam_prediction_intervals gam (PyFloat q) r))
                  rows)),
    (Np.mean (map (fun r => snd (gam_prediction_intervals gam (PyFloat q) r))
                  rows)).
  split; [rewrite <- mean_total, length_map, Hrows; reflexivity|].
  split; [rewrite <- mean_total, length_map, Hrows; reflexivity|].
  split; [rewrite <- mean_total, length_map, Hrows; reflexivity|].
  simpl. repeat split; apply mean_map_close;
    try (intros; apply round3_error); discriminate.
Qed.

End CurveMore.

(** ** The stages of [fit] *)

Section StagesMore.
Context {E : Externals}.
Open Scope Q_scope.

Lemma index_ok {A} (l : list A) (i : nat) (d a : A) :
  index l i = Ok a -> a = nth i l d.
Proof.
  unfold index. destruct (nth_error l i) as [x|] eqn:Hx; [|discriminate].
  intro H. injection H as <-. symmetry. now apply nth_error_nth.
Qed.

Lemma Forall2_seq_nth {B} (P : nat -> B -> Prop) (d : B) n :
  forall a l, Forall2 P (seq a n) l ->
    forall j, (j < n)%nat -> P (a + j)%nat (nth j l d).
Proof.
  induction n as [|n IH]; intros a l H j Hj; [lia|].
  simpl in H. inversion H as [|x0 b0 xs0 bs0 Hhd Htl]; subst.
  destruct j as [|j]; simpl.
  - now rewrite Nat.add_0_r.
  - rewrite <- Nat.add_succ_comm. apply IH; [exact Htl | lia].
Qed.

(** Every column of the matrix is the GPS function at one grid value. *)
Lemma gps_values_at_grid_columns self T_ n grid f matrix :
  T self = Some T_ -> treatment_grid_num self = PyInt n ->
  grid_values self = Some grid -> gps_function self = Some f ->
  snd (_gps_values_at_grid self) = Ok matrix ->
  forall j, (j < Z.to_nat n)%nat ->
    exists v, f (Np.Scalar (nth j grid 0)) = Ok v /\
              Np.as_column (List.length (values T_)) v = Ok (nth j matrix []) /\
              (List.length v = List.length (values T_) /\ nth j matrix [] = v \/
               exists x, v = [x] /\
                         nth j matrix []
                         = List.repeat x (List.length (values T_))).
Proof.
  intros HT Hn Hg Hf. unfold _gps_values_at_grid.
  unfold bind at 1. unfold getattr at 1. rewrite HT.
  unfold bind at 1. unfold read at 1. rewrite Hn.
  unfold bind at 1. unfold lift at 1. rewrite range_int.
  intro H. apply for_each_read_only_ok in H;
    [|intro; read_only_steps].
  intros j Hj.
  pose proof (Forall2_seq_nth _ [] _ _ _ H j Hj) as Hi. simpl in Hi.
  unfold bind, getattr, lift in Hi. rewrite Hg, Hf in Hi. simpl in Hi.
  destruct (index grid j) as [g|] eqn:Hidx; [|discriminate].
  simpl in Hi. apply (index_ok _ _ 0) in Hidx. subst g.
  destruct (f (Np.Scalar (nth j grid 0))) as [v|]; [|discriminate].
  simpl in Hi. exists v. split; [reflexivity|]. split; [exact Hi|].
  exact (as_column_ok _ _ _ Hi).
Qed.

(** [fit] from the choice of the family on, with a family given. *)
Lemma fit_from_family_given s name fitter :
  gps_family s = PyStr name -> family_fitter name = Some fitter ->
  fit_from_family s =
  match snd (fitter (set_best_gps_family (PyStr name) s)) with
  | Ok (f, d) =>
      (set_gps_deviance d
         (set_gps_function f (set_best_gps_family (PyStr name) s)), Ok tt)
  | Raise e => (set_best_gps_family (PyStr name) s, Raise e)
  end.
Proof.
  intros Hfam Hfit. unfold fit_from_family.
  unfold bind at 1. unfold read at 1. rewrite Hfam. rewrite bind_assign.
  change (Py.eqb (PyStr name) PyNone) with false. cbv iota.
  unfold bind at 1. unfold getattr at 1.
  cbn [best_gps_family set_best_gps_family].
  pose proof (family_fitter_read_only _ _ Hfit) as Hro.
  unfold family_fitter in Hfit.
  change (Py.eqb (PyStr name) (PyStr "normal"))
    with (String.eqb name "normal").
  change (Py.eqb (PyStr name) (PyStr "lognormal"))
    with (String.eqb name "lognormal").
  change (Py.eqb (PyStr name) (PyStr "gamma"))
    with (String.eqb name "gamma").
  destruct (String.eqb name "normal").
  { injection Hfit as <-. rewrite bind_read_only by exact Hro.
    destruct (snd (_create_normal_gps_function _)) as [[f d]|]; reflexivity. }
  destruct (String.eqb name "lognormal").
  { injection Hfit as <-. rewrite bind_read_only by exact Hro.
    destruct (snd (_create_lognormal_gps_function _)) as [[f d]|];
      reflexivity. }
  destruct (String.eqb name "gamma"); [|discriminate].
  injection Hfit as <-. rewrite bind_read_only by exact Hro.
  destruct (snd (_create_gamma_gps_function _)) as [[f d]|]; reflexivity.
Qed.

(** [fit] from the choice of the family on, with no family given. *)
Lemma fit_from_family_selected s :
  gps_family s = PyNone ->
  fit_from_family s =
  match snd (_find_best_gps_model (set_best_gps_family PyNone s)) with
  | Ok (key, f, d) =>
      (set_gps_deviance d
         (set_gps_function f
            (set_best_gps_family (PyStr key)
               (set_best_gps_family PyNone s))), Ok tt)
  | Raise e => (set_best_gps_family PyNone s, Raise e)
  end.
Proof.
  intro Hfam. unfold fit_from_family.
  unfold bind at 1. unfold read at 1. rewrite Hfam. rewrite bind_assign.
  change (Py.eqb PyNone PyNone) with true. cbv iota.
  rewrite bind_read_only by apply find_best_read_only.
  destruct (snd (_find_best_gps_model _)) as [[[key f] d]|]; reflexivity.
Qed.

(** The stages of a [fit] that returned. *)
Lemma fit_returns_stages self0 T_ X_ y_ self :
  fit T_ X_ y_ self0 = (self, Ok tt) ->
  exists grid s5 f g gam matrix,
    fit_from_family
      (set_grid_values grid (set_y y_ (set_X X_ (set_T T_ self0))))
    = (s5, Ok tt) /\
    gps_function s5 = Some f /\
    f (Np.Vector (values T_)) = Ok g /\
    snd (_gps_values_at_grid
           (set_gam_summary_str (gam_summary gam)
              (set_gam_results gam (set_gps g s5)))) = Ok matrix /\
    self = set_gps_at_grid matrix
             (set_gam_summary_str (gam_summary gam)
                (set_gam_results gam (set_gps g s5))).
Proof.
  intro H. rewrite fit_run in H. cbv zeta in H.
  set (s := set_y y_ (set_X X_ (set_T T_ self0))) in *.
  destruct (snd (_validate_fit_data s)); [|discriminate].
  destruct (snd (_grid_values s)) as [grid|e]; [|discriminate].
  apply bind_returns in H. destruct H as ([] & s5 & Hfam & H).
  assert (HT5 : T s5 = Some T_).
  { pose proof (fit_from_family_keeps_T (set_grid_values grid s)) as K.
    rewrite Hfam in K. exact K. }
  unfold fit_from_gps in H.
  unfold bind at 1 in H. unfold getattr at 1 in H.
  destruct (gps_function s5) as [f|] eqn:Hf; [|discriminate].
  unfold bind at 1 in H. unfold getattr at 1 in H. rewrite HT5 in H.
  unfold bind at 1 in H. unfold lift at 1 in H.
  destruct (f (Np.Vector (values T_))) as [g|] eqn:Hg; [|discriminate].
  rewrite bind_assign in H.
  rewrite bind_read_only in H by apply fit_gam_read_only.
  destruct (snd (_fit_gam (set_gps g s5))) as [gam|] eqn:Hgam; [|discriminate].
  rewrite !bind_assign in H.
  rewrite bind_read_only in H by apply gps_values_at_grid_read_only.
  destruct (snd (_gps_values_at_grid _)) as [matrix|] eqn:Hm; [|discriminate].
  unfold assign in H. injection H as <-.
  exists grid, s5, f, g, gam, matrix. repeat split; auto.
Qed.

(** X16.  After a fit that returned, the GPS values on the instance are the
    values of the GPS function on the instance: [gps] is that function at
    the observed treatments, and column [j] of [gps_at_grid] is that
    function at grid value [j], one entry per observation: the result of
    the function as it is when it has one entry per observation, and a
    result of one entry repeated for every observation. *)
Theorem fit_gps_values_of_gps_function :
  forall (self0 self : CDRC) (T_ : Series) (X_ : DataFrame) (y_ : Series)
         (n : Z),
    treatment_grid_num self0 = PyInt n ->
    fit T_ X_ y_ self0 = (self, Ok tt) ->
    exists f grid gps_ matrix,
      gps_function self = Some f /\ grid_values self = Some grid /\
      gps self = Some gps_ /\ gps_at_grid self = Some matrix /\
      f (Np.Vector (values T_)) = Ok gps_ /\
      forall j, (j < Z.to_nat n)%nat ->
        exists v,
          f (Np.Scalar (nth j grid 0)) = Ok v /\
          Np.as_column (List.length (values T_)) v = Ok (nth j matrix []) /\
          (List.length v = List.length (values T_) /\ nth j matrix [] = v \/
           exists x, v = [x] /\
                     nth j matrix []
                     = List.repeat x (List.length (values T_))).
Proof.
  intros self0 self T_ X_ y_ n Hn H.
  destruct (fit_returns_stages _ _ _ _ _ H)
    as (grid & s5 & f & g & gam & matrix & Hfam & Hf & Hg & Hm & ->).
  set (s := set_grid_values grid (set_y y_ (set_X X_ (set_T T_ self0)))) in *.
  assert (HT5 : T s5 = Some T_).
  { pose proof (fit_from_family_keeps_T s) as K. rewrite Hfam in K. exact K. }
  assert (Hn5 : treatment_grid_num s5 = PyInt n).
  { pose proof (fit_from_family_keeps_num s) as K. rewrite Hfam in K.
    simpl in K. now rewrite K. }
  assert (Hg5 : grid_values s5 = Some grid).
  { pose proof (fit_from_family_keeps_grid s) as K. rewrite Hfam in K.
    exact K. }
  exists f, grid, g, matrix.
  split; [exact Hf|]. split; [exact Hg5|]. split; [reflexivity|].
  split; [reflexivity|]. split; [exact Hg|].
  exact (gps_values_at_grid_columns
           (set_gam_summary_str (gam_summary gam)
              (set_gam_results gam (set_gps g s5)))
           T_ n grid f matrix HT5 Hn5 Hg5 Hf Hm).
Qed.

(** The fitter of a family returns the deviance of its GLM and a function
    that, at a scalar, gives the densities of the family. *)
Lemma family_fitter_density name fitter s T_ X_ m :
  family_fitter name = Some fitter ->
  T s = Some T_ -> X s = Some X_ ->
  family_glm name T_ X_ = Ok m ->
  exists f,
    snd (fitter s) = Ok (f, deviance m) /\
    forall x, f (Np.Scalar x) = Ok (family_density name m x).
Proof.
  unfold family_fitter, family_glm, family_density. intros Hfit HT HX Hm.
  destruct (String.eqb name "normal").
  { injection Hfit as <-. unfold _create_normal_gps_function.
    unfold bind, getattr, lift. rewrite HT, HX. simpl. rewrite Hm. simpl.
    eexists. split; [reflexivity|]. intro x. reflexivity. }
  destruct (String.eqb name "lognormal").
  { injection Hfit as <-. unfold _create_lognormal_gps_function.
    unfold bind, getattr, lift. rewrite HT, HX. simpl. rewrite Hm. simpl.
    eexists. split; [reflexivity|]. intro x. reflexivity. }
  destruct (String.eqb name "gamma"); [|discriminate].
  injection Hfit as <-. unfold _create_gamma_gps_function.
  unfold bind, getattr, lift. rewrite HT, HX. simpl. rewrite Hm. simpl.
  eexists. split; [reflexivity|]. intro x. reflexivity.
Qed.

(** X17.  With a family given to the constructor, a fit that returned has
    stored the deviance of that family's GLM on the data, and column [j] of
    [gps_at_grid] holds the densities of grid value [j] under that GLM: the
    normal density around the fitted values for ['normal'], the normal
    density of the logarithm of the grid value around the fitted values of
    the GLM on the logarithms for ['lognormal'], the gamma density with
    shape [mu / scale] for ['gamma'].  When the GLM gives one fitted value
    per observation the column is that list of densities. *)
Theorem fit_given_family_densities :
  forall (self0 self : CDRC) (T_ : Series) (X_ : DataFrame) (y_ : Series)
         (name : string) (fitter : M (GpsFunction * Q)) (n : Z)
         (m : GLMResults),
    gps_family self0 = PyStr name ->
    family_fitter name = Some fitter ->
    treatment_grid_num self0 = PyInt n ->
    family_glm name T_ X_ = Ok m ->
    fit T_ X_ y_ self0 = (self, Ok tt) ->
    gps_deviance self = Some (deviance m) /\
    exists grid matrix,
      grid_values self = Some grid /\ gps_at_grid self = Some matrix /\
      forall j, (j < Z.to_nat n)%nat ->
        Np.as_column (List.length (values T_))
                     (family_density name m (nth j grid 0))
        = Ok (nth j matrix []) /\
        (List.length (family_density name m (nth j grid 0))
         = List.length (values T_) ->
         nth j matrix [] = family_density name m (nth j grid 0)).
Proof.
  intros self0 self T_ X_ y_ name fitter n m Hfam Hfit Hn Hm H.
  destruct (fit_returns_stages _ _ _ _ _ H)
    as (grid & s5 & f & g & gam & matrix & Hsel & Hf & Hg & Hmat & ->).
  set (s := set_grid_values grid (set_y y_ (set_X X_ (set_T T_ self0)))) in *.
  rewrite (fit_from_family_given s name fitter Hfam Hfit) in Hsel.
  destruct (family_fitter_density name fitter
              (set_best_gps_family (PyStr name) s) T_ X_ m Hfit
              eq_refl eq_refl Hm) as (f' & Hf' & Hdens).
  rewrite Hf' in Hsel. injection Hsel as <-.
  cbn [gps_function set_gps_deviance set_gps_function] in Hf.
  injection Hf as <-.
  split; [reflexivity|].
  exists grid, matrix. split; [reflexivity|]. split; [reflexivity|].
  intros j Hj.
  destruct (gps_values_at_grid_columns
              (set_gam_summary_str (gam_summary gam)
                 (set_gam_results gam
                    (set_gps g
                       (set_gps_deviance (deviance m)
                          (set_gps_function f'
                             (set_best_gps_family (PyStr name) s))))))
              T_ n grid f' matrix
              eq_refl Hn eq_refl eq_refl Hmat j Hj) as (v & Hv & Hcol & _).
  rewrite Hdens in Hv. injection Hv as <-.
  split; [exact Hcol|].
  intro Hlen. unfold Np.as_column in Hcol.
  rewrite Hlen, Nat.eqb_refl in Hcol. now injection Hcol as <-.
Qed.

End StagesMore.

(** ** Fitting again *)

Section RefitMore.
Context {E : Externals}.

Lemma carries_respects e {A} (m : M A) : respects e m -> carries e e m.
Proof.
  intros Hm s1 s2 H. destruct (Hm s1 s2 H) as [Hs Hr].
  split; [exact Hr | intros _; exact Hs].
Qed.

Lemma carries_assign e1 e2 (set : CDRC -> CDRC) :
  (forall s, e2 (set s) = e2 (set (e1 s))) -> carries e1 e2 (assign set).
Proof.
  intros Hc s1 s2 H. split; [reflexivity|]. intros _. simpl.
  now rewrite (Hc s1), (Hc s2), H.
Qed.

Lemma carries_bind e1 e2 e3 {A B} (m : M A) (k : A -> M B) :
  carries e1 e2 m -> (forall a, carries e2 e3 (k a)) ->
  carries e1 e3 (bind m k).
Proof.
  intros Hm Hk s1 s2 H. unfold bind.
  destruct (Hm s1 s2 H) as [Hr Hs].
  destruct (m s1) as [s1' r1], (m s2) as [s2' r2]. simpl in *. subst r2.
  destruct r1 as [a|e].
  - apply Hk. now apply Hs.
  - split; [reflexivity | discriminate].
Qed.

Lemma fit_from_gps_carries :
  carries (keep_first 7) (keep_first 11) fit_from_gps.
Proof.
  unfold fit_from_gps.
  apply (carries_bind _ (keep_first 7));
    [apply carries_respects, respects_getattr; intro; reflexivity | intro f].
  apply (carries_bind _ (keep_first 7));
    [apply carries_respects, respects_getattr; intro; reflexivity | intro T'].
  apply (carries_bind _ (keep_first 7));
    [apply carries_respects, respects_lift | intro g].
  apply (carries_bind _ (keep_first 8));
    [apply carries_assign; intro; reflexivity | intros _].
  apply (carries_bind _ (keep_first 8));
    [apply carries_respects; unfold _fit_gam; respects_steps | intro gam].
  apply (carries_bind _ (keep_first 9));
    [apply carries_assign; intro; reflexivity | intros _].
  apply (carries_bind _ (keep_first 10));
    [apply carries_assign; intro; reflexivity | intros _].
  apply (carries_bind _ (keep_first 10));
    [apply carries_respects; unfold _gps_values_at_grid; respects_steps
    | intro matrix].
  apply carries_assign; intro; reflexivity.
Qed.

Lemma valid_family_has_fitter name :
  str_in name ["normal"; "lognormal"; "gamma"] = true ->
  exists fitter, family_fitter name = Some fitter.
Proof.
  unfold str_in, family_fitter. simpl.
  destruct (String.eqb name "normal"); [eexists; reflexivity|].
  destruct (String.eqb name "lognormal"); [eexists; reflexivity|].
  destruct (String.eqb name "gamma"); [eexists; reflexivity | discriminate].
Qed.

Lemma fit_from_family_carries s1 s2 :
  valid_params s1 ->
  keep_first 4 s1 = keep_first 4 s2 ->
  snd (fit_from_family s1) = snd (fit_from_family s2) /\
  (returned (snd (fit_from_family s1)) = true ->
   keep_first 7 (fst (fit_from_family s1))
   = keep_first 7 (fst (fit_from_family s2))).
Proof.
  intros Hv H.
  assert (Hfam : gps_family s1 = gps_family s2)
    by exact (f_equal gps_family H).
  assert (Hd : forall v, only_T_and_X (set_best_gps_family v s1)
                         = only_T_and_X (set_best_gps_family v s2)).
  { intro v. unfold only_T_and_X. cbn [T X set_best_gps_family].
    pose proof (f_equal T H) as HT. pose proof (f_equal X H) as HX.
    simpl in HT, HX. now rewrite HT, HX. }
  assert (Hset : forall set : CDRC -> CDRC,
             (forall s, keep_first 7 (set s) = keep_first 7 (set (keep_first 4 s))) ->
             keep_first 7 (set s1) = keep_first 7 (set s2)).
  { intros set Hc. now rewrite (Hc s1), (Hc s2), H. }
  destruct (vp_family _ Hv) as [Hnone | (name & Hname & Hin)].
  - rewrite (fit_from_family_selected s1 Hnone).
    rewrite (fit_from_family_selected s2) by now rewrite <- Hfam.
    destruct (find_best_reads_data _ _ (Hd PyNone)) as [_ Hr]. rewrite <- Hr.
    destruct (snd (_find_best_gps_model (set_best_gps_family PyNone s1)))
      as [[[key f] d]|e]; simpl.
    + split; [reflexivity|]. intros _.
      apply (Hset (fun s => set_gps_deviance d
                              (set_gps_function f
                                 (set_best_gps_family (PyStr key)
                                    (set_best_gps_family PyNone s))))).
      intro; reflexivity.
    + split; [reflexivity | discriminate].
  - destruct (valid_family_has_fitter name Hin) as [fitter Hfit].
    rewrite (fit_from_family_given s1 name fitter Hname Hfit).
    rewrite (fit_from_family_given s2 name fitter) by
      (auto; now rewrite <- Hfam).
    destruct (family_fitter_reads_data _ _ Hfit _ _ (Hd (PyStr name)))
      as [_ Hr].
    rewrite <- Hr.
    destruct (snd (fitter (set_best_gps_family (PyStr name) s1)))
      as [[f d]|e]; simpl.
    + split; [reflexivity|]. intros _.
      apply (Hset (fun s => set_gps_deviance d
                              (set_gps_function f
                                 (set_best_gps_family (PyStr name) s)))).
      intro; reflexivity.
    + split; [reflexivity | discriminate].
Qed.

Lemma fit_keeps_cdrc_preds T_ X_ y_ : keeps _cdrc_preds (fit T_ X_ y_).
Proof.
  unfold fit.
  do 3 (apply keeps_bind; [apply keeps_assign; intro; reflexivity | intro]).
  apply keeps_bind;
    [apply keeps_read_only, validate_fit_data_read_only | intro].
  apply keeps_bind; [apply keeps_read_only, grid_values_read_only | intro].
  keeps_steps.
Qed.

Lemma valid_params_after_inputs self T_ X_ y_ grid :
  valid_params self ->
  valid_params (set_grid_values grid (set_y y_ (set_X X_ (set_T T_ self)))).
Proof. intros [H1 H2 H3 H4 H5 H6 H7]. now constructor. Qed.

(** X18.  What [fit] does depends on the parameters and the data only, not
    on what an earlier [fit] or [calculate_CDRC] left on the instance: on
    two instances with the same (valid) parameters, [fit] on the same data
    ends the same way, and when it returns the two instances hold the same
    attributes, apart from [_cdrc_preds], which [fit] never assigns: the
    predictions of an earlier [calculate_CDRC] stay on the instance. *)
Theorem fit_overwrites_fitted_state :
  forall (a b : CDRC) (T_ : Series) (X_ : DataFrame) (y_ : Series),
    valid_params a ->
    params_of a = params_of b ->
    snd (fit T_ X_ y_ a) = snd (fit T_ X_ y_ b) /\
    _cdrc_preds (fst (fit T_ X_ y_ a)) = _cdrc_preds a /\
    (snd (fit T_ X_ y_ a) = Ok tt ->
     forget_cdrc_preds (fst (fit T_ X_ y_ a))
     = forget_cdrc_preds (fst (fit T_ X_ y_ b))).
Proof.
  intros a b T_ X_ y_ Hv Hp.
  assert (H0 : keep_first 0 a = keep_first 0 b) by exact Hp.
  assert (H3 : keep_first 3 (set_y y_ (set_X X_ (set_T T_ a)))
               = keep_first 3 (set_y y_ (set_X X_ (set_T T_ b)))).
  { change (keep_first 3 (set_y y_ (set_X X_ (set_T T_ (keep_first 0 a))))
            = keep_first 3 (set_y y_ (set_X X_ (set_T T_ (keep_first 0 b))))).
    now rewrite H0. }
  assert (Hval : respects (keep_first 3) _validate_fit_data)
    by (unfold _validate_fit_data; respects_steps).
  assert (Hgrid : respects (keep_first 3) _grid_values)
    by (unfold _grid_values; respects_steps).
  destruct (Hval _ _ H3) as [_ Hr1]. destruct (Hgrid _ _ H3) as [_ Hr2].
  assert (Hmain :
    snd (fit T_ X_ y_ a) = snd (fit T_ X_ y_ b) /\
    (returned (snd (fit T_ X_ y_ a)) = true ->
     keep_first 11 (fst (fit T_ X_ y_ a))
     = keep_first 11 (fst (fit T_ X_ y_ b)))).
  { rewrite !fit_run. cbv zeta. rewrite <- Hr1, <- Hr2.
    destruct (snd (_validate_fit_data (set_y y_ (set_X X_ (set_T T_ a)))));
      [|split; [reflexivity | discriminate]].
    destruct (snd (_grid_values (set_y y_ (set_X X_ (set_T T_ a)))))
      as [grid|e]; [|split; [reflexivity | discriminate]].
    assert (H4 : keep_first 4 (set_grid_values grid
                                 (set_y y_ (set_X X_ (set_T T_ a))))
                 = keep_first 4 (set_grid_values grid
                                   (set_y y_ (set_X X_ (set_T T_ b))))).
    { change (keep_first 4
                (set_grid_values grid
                   (keep_first 3 (set_y y_ (set_X X_ (set_T T_ a)))))
              = keep_first 4
                  (set_grid_values grid
                     (keep_first 3 (set_y y_ (set_X X_ (set_T T_ b)))))).
      now rewrite H3. }
    destruct (fit_from_family_carries _ _
                (valid_params_after_inputs a T_ X_ y_ grid Hv) H4)
      as [Hr Hs].
    unfold bind.
    destruct (fit_from_family
                (set_grid_values grid (set_y y_ (set_X X_ (set_T T_ a)))))
      as [s5a ra].
    destruct (fit_from_family
                (set_grid_values grid (set_y y_ (set_X X_ (set_T T_ b)))))
      as [s5b rb].
    simpl in Hr, Hs. subst rb.
    destruct ra as [u|e]; [|split; [reflexivity | discriminate]].
    apply fit_from_gps_carries. now apply Hs. }
  destruct Hmain as [Hr Hs].
  split; [exact Hr|]. split; [apply fit_keeps_cdrc_preds|].
  intro Hok. apply Hs. now rewrite Hok.
Qed.

End RefitMore.

(** ** The further properties at the sample data *)

Section MoreInstances.
Import Stub.
Open Scope Q_scope.

Lemma nan_penalty_valid :
  valid_params
    (store_params (E := externals) PyNone (PyInt 10) (PyInt 3) (PyInt 30)
                  PyNaN (PyInt 100) (PyBool false)).
Proof.
  constructor; simpl.
  - now left.
  - split; [reflexivity | lia].
  - split; [reflexivity | lia].
  - split; [reflexivity | lia].
  - now left.
  - split; [reflexivity | lia].
  - now exists false.
Qed.

Lemma init_accepts_exactly_valid_at_sample :
  __init__ PyNone (PyInt 10) (PyInt 3) (PyInt 30) (PyFloat (1 # 2))
           (PyInt 100) (PyBool false) = Ok model0 /\
  __init__ (E := externals) PyNone (PyInt 10) (PyInt 3) (PyInt 30) PyNaN
           (PyInt 100) (PyBool false)
  = Ok (store_params PyNone (PyInt 10) (PyInt 3) (PyInt 30) PyNaN
                     (PyInt 100) (PyBool false)).
Proof.
  split.
  - apply (init_accepts_exactly_valid (E := externals)).
    split; [exact model0_valid | reflexivity].
  - apply (init_accepts_exactly_valid (E := externals)).
    split; [exact nan_penalty_valid | reflexivity].
Defined.

Lemma init_checks_family_first_at_sample :
  __init__ (E := externals) (PyInt 3) (PyBool true) PyNone PyNone PyNone
           PyNone PyNone
  = Raise (TypeError "gps_family") /\
  __init__ (E := externals) (PyStr "poisson") (PyBool true) PyNone PyNone
           PyNone PyNone PyNone
  = Raise (ValueError "gps_family").
Proof.
  split.
  - apply (init_checks_family_first (E := externals)). reflexivity.
  - destruct (init_checks_family_first (E := externals)
                (PyStr "poisson") (PyBool true) PyNone PyNone PyNone PyNone
                PyNone) as [_ H].
    apply (H "poisson"); reflexivity.
Defined.

Lemma init_penalty_and_verbosity_are_strict_at_sample :
  __init__ (E := externals) PyNone (PyInt 10) (PyInt 3) (PyInt 30) (PyInt 1)
           (PyInt 5) (PyInt 1)
  = Raise (TypeError "lambda_") /\
  __init__ (E := externals) PyNone (PyInt 10) (PyInt 3) (PyInt 30)
           (PyFloat (1 # 2)) (PyInt 100) (PyInt 1)
  = Raise (TypeError "verbose").
Proof.
  destruct (init_penalty_and_verbosity_are_strict (E := externals)
              PyNone (PyInt 10) (PyInt 3) (PyInt 30) (PyFloat (1 # 2))
              (PyInt 100) (PyBool false) (PyInt 1) (PyInt 5) (PyInt 1)
              model0_valid)
    as (Hl & _ & _ & Hv).
  split; [apply Hl | apply Hv]; reflexivity.
Defined.

Lemma fitters0_return :
  (exists fn dn, snd (_create_normal_gps_function fitted0) = Ok (fn, dn)) /\
  (exists fl dl, snd (_create_lognormal_gps_function fitted0) = Ok (fl, dl)) /\
  (exists fg dg, snd (_create_gamma_gps_function fitted0) = Ok (fg, dg)).
Proof.
  assert (Hn : returned (snd (_create_normal_gps_function fitted0)) = true)
    by (vm_compute; reflexivity).
  assert (Hl : returned (snd (_create_lognormal_gps_function fitted0)) = true)
    by (vm_compute; reflexivity).
  assert (Hg : returned (snd (_create_gamma_gps_function fitted0)) = true)
    by (vm_compute; reflexivity).
  split; [|split].
  - destruct (snd (_create_normal_gps_function fitted0)) as [[f d]|e];
      [exists f, d; reflexivity | discriminate].
  - destruct (snd (_create_lognormal_gps_function fitted0)) as [[f d]|e];
      [exists f, d; reflexivity | discriminate].
  - destruct (snd (_create_gamma_gps_function fitted0)) as [[f d]|e];
      [exists f, d; reflexivity | discriminate].
Qed.

Lemma find_best_gps_model_outcome_at_sample :
  exists name f d, _find_best_gps_model fitted0 = (fitted0, Ok (name, f, d)).
Proof.
  destruct fitters0_return as ((fn & dn & Hn) & (fl & dl & Hl) & (fg & dg & Hg)).
  destruct (find_best_gps_model_outcome fitted0 fn fl fg dn dl dg Hn Hl Hg)
    as (name & f & d & H & _).
  exists name, f, d. exact H.
Defined.

Lemma fitters_no_gamma :
  let data := set_X X0 (set_T T0 model_no_gamma) in
  exists r r',
    snd (_create_normal_gps_function data) = Ok r /\
    snd (_create_lognormal_gps_function data) = Ok r' /\
    snd (_create_gamma_gps_function data)
      = Raise (LibraryError "statsmodels").
Proof.
  cbv zeta.
  assert (Hn : returned (snd (_create_normal_gps_function
                                (set_X X0 (set_T T0 model_no_gamma)))) = true)
    by (vm_compute; reflexivity).
  assert (Hl : returned (snd (_create_lognormal_gps_function
                                (set_X X0 (set_T T0 model_no_gamma)))) = true)
    by (vm_compute; reflexivity).
  destruct (snd (_create_normal_gps_function
                   (set_X X0 (set_T T0 model_no_gamma)))) as [r|e];
    [|discriminate].
  destruct (snd (_create_lognormal_gps_function
                   (set_X X0 (set_T T0 model_no_gamma)))) as [r'|e];
    [|discriminate].
  exists r, r'.
  split; [reflexivity|]. split; [reflexivity|]. vm_compute. reflexivity.
Qed.

Lemma fit_selection_needs_every_family_at_sample :
  snd (fit T0 X0 y0 model_no_gamma) = Raise (LibraryError "statsmodels").
Proof.
  apply (fit_selection_needs_every_family model_no_gamma T0 X0 y0 10
           (LibraryError "statsmodels")).
  - reflexivity.
  - reflexivity.
  - lia.
  - discriminate.
  - reflexivity.
  - right. right. exact fitters_no_gamma.
Defined.

Lemma fit_normal_result : snd (fit T0 X0 y0 model_normal) = Ok tt.
Proof. vm_compute. reflexivity. Qed.

Lemma fit_normal_returns :
  fit T0 X0 y0 model_normal = (fst (fit T0 X0 y0 model_normal), Ok tt).
Proof.
  pose proof fit_normal_result as H.
  destruct (fit T0 X0 y0 model_normal) as [s r]. simpl in *. now subst r.
Qed.

Lemma fit_with_given_family_at_sample :
  best_gps_family (fst (fit T0 X0 y0 model_normal)) = Some (PyStr "normal").
Proof.
  apply (fit_with_given_family model_normal _ T0 X0 y0 "normal"
           _create_normal_gps_function eq_refl eq_refl fit_normal_returns).
Defined.

Lemma fit_ignores_lambda_at_sample :
  gam_results
    (fst (fit T0 X0 y0
            (store_params (E := externals) PyNone (PyInt 10) (PyInt 3)
               (PyInt 30) (PyFloat (1 # 2)) (PyInt 100) (PyBool false))))
  = gam_results
      (fst (fit T0 X0 y0
              (store_params (E := externals) PyNone (PyInt 10) (PyInt 3)
                 (PyInt 30) (PyFloat 5) (PyInt 100) (PyBool false)))).
Proof.
  destruct (fit_ignores_lambda (E := externals)
              PyNone (PyInt 10) (PyInt 3) (PyInt 30) (PyInt 100) (PyBool false)
              (PyFloat (1 # 2)) (PyFloat 5) _ _ T0 X0 y0 eq_refl eq_refl)
    as (_ & _ & Hgam & _).
  exact Hgam.
Defined.


Lemma flat_sample_extremes :
  is_minimum 2 (values T_flat) /\ is_maximum 2 (values T_flat).
Proof.
  split; (split; [exists 2; split; [now left | reflexivity]|]);
    intros x Hx; simpl in Hx;
    destruct Hx as [<-|[<-|[<-|[]]]]; apply Qle_refl.
Qed.

Lemma fit_grid_within_sample_range_at_sample :
  exists grid,
    grid_values (fst (fit T_flat X0 y0 model0)) = Some grid /\
    Forall (fun g => g == 2) grid.
Proof.
  destruct (fit_grid_within_sample_range model0 T_flat X0 y0 10)
    as (grid & Hg & Hrange).
  - reflexivity.
  - lia.
  - discriminate.
  - reflexivity.
  - exists grid. split; [exact Hg|].
    destruct flat_sample_extremes as [Hmin Hmax].
    destruct (Hrange 2 2 Hmin Hmax) as [_ Hflat].
    apply Hflat. reflexivity.
Defined.

Lemma methods_before_fit_raise_at_sample :
  calculate_CDRC (PyFloat (95 # 100)) model0
    = (model0, Raise (AttributeError "T")).
Proof.
  destruct (methods_before_fit_raise
              PyNone (PyInt 10) (PyInt 3) (PyInt 30) (PyFloat (1 # 2))
              (PyInt 100) (PyBool false) model0 (95 # 100)
              model0_constructed (conj eq_refl eq_refl)) as [H _].
  exact H.
Defined.

Lemma summary_is_of_the_fitted_model_at_sample :
  exists gam,
    gam_results fitted0 = Some gam /\
    print_gam_summary fitted0 = (fitted0, Ok (gam_summary gam)).
Proof.
  destruct (summary_is_of_the_fitted_model model0 fitted0 T0 X0 y0
              fit0_returns) as (gam & Hg & Hs & _).
  exists gam. split; [exact Hg | exact Hs].
Defined.

Lemma fit_shapes_at_sample :
  exists gps_,
    gps fitted0 = Some gps_ /\ List.length gps_ = 4%nat.
Proof.
  destruct (fit_shapes model0 fitted0 T0 X0 y0 10 eq_refl ltac:(lia)
              fit0_returns)
    as (grid & gps_ & matrix & _ & _ & Hg & Hl & _).
  exists gps_. split; [exact Hg | exact Hl].
Defined.

Lemma calculate_before_fit :
  calculate_CDRC ci0 model0 = (model0, Raise (AttributeError "T")).
Proof. reflexivity. Qed.

Lemma calculate_CDRC_raises_without_change_at_sample :
  fst (calculate_CDRC ci0 model0) = model0.
Proof.
  rewrite calculate_before_fit.
  exact (calculate_CDRC_raises_without_change model0 model0 ci0
           (AttributeError "T") calculate_before_fit).
Defined.

Lemma table_within_half_a_thousandth_at_sample :
  exists table,
    snd (calculate_CDRC (PyFloat (95 # 100)) fitted0) = Ok table.
Proof.
  destruct (table_within_half_a_thousandth model0 fitted0 T0 X0 y0 10
              (95 # 100) eq_refl ltac:(lia) fit0_returns
              (conj eq_refl eq_refl))
    as (grid & matrix & gam & table & _ & _ & _ & Hcall & _).
  exists table. exact Hcall.
Defined.

Lemma fit_gps_values_of_gps_function_at_sample :
  exists f gps_,
    gps_function fitted0 = Some f /\ gps fitted0 = Some gps_ /\
    f (Np.Vector (values T0)) = Ok gps_.
Proof.
  destruct (fit_gps_values_of_gps_function model0 fitted0 T0 X0 y0 10
              eq_refl fit0_returns)
    as (f & grid & gps_ & matrix & Hf & _ & Hg & _ & Hv & _).
  exists f, gps_. split; [exact Hf|]. split; [exact Hg | exact Hv].
Defined.

Lemma glm_normal0_fitted :
  family_glm (E := externals) "normal" T0 X0 = Ok glm_normal0.
Proof. vm_compute. reflexivity. Qed.

Lemma fit_given_family_densities_at_sample :
  gps_deviance (fst (fit T0 X0 y0 model_normal))
  = Some (deviance glm_normal0).
Proof.
  destruct (fit_given_family_densities model_normal _ T0 X0 y0 "normal"
              _create_normal_gps_function 10 glm_normal0
              eq_refl eq_refl eq_refl glm_normal0_fitted fit_normal_returns)
    as [Hd _].
  exact Hd.
Defined.

Lemma after0_valid : valid_params after0.
Proof. apply validate_init_sound. vm_compute. reflexivity. Qed.

Lemma after0_params : params_of after0 = params_of model0.
Proof. vm_compute. reflexivity. Qed.

Lemma fit_overwrites_fitted_state_at_sample :
  snd (fit T0 X0 y0 after0) = snd (fit T0 X0 y0 model0) /\
  _cdrc_preds (fst (fit T0 X0 y0 after0)) = _cdrc_preds after0.
Proof.
  destruct (fit_overwrites_fitted_state after0 model0 T0 X0 y0
              after0_valid after0_params) as (H1 & H2 & _).
  split; [exact H1 | exact H2].
Defined.

End MoreInstances.
